(** * Data catalog API: tracking plans, events and properties

    A shallow embedding of the service layer of the data-catalog API
    (TypeScript, TypeORM on PostgreSQL): the identity resolvers
    [findOrCreateEvent] / [findOrCreateProperty], the conflict comparator,
    the rule-set validation, and the tracking-plan orchestrator with its
    transaction handling.

    Conventions of the embedding

    - A JavaScript [async] method becomes a computation in the monad [M]:
      a function of the [World] that returns either a value or a thrown
      [Error], together with the new world.
    - The world holds the database (five tables), the open transaction of the
      query runner, the clock, and the behaviour of what lies outside the
      program: which storage calls fail, the regular-expression compiler of
      the JavaScript engine, the ILIKE matcher of the database engine, and
      the order in which the database returns the rows of a query that asks
      for none.
    - A [jsonb] column holds a value in the form in which PostgreSQL keeps
      it and the driver parses it back: the keys of an object in the order of
      the column type, not in the order in which they were written.
    - Generated uuids are drawn from a counter of the store.
    - JavaScript numbers are restricted to the integers. *)

From Stdlib Require Import String Ascii List ZArith NArith Bool Arith Lia DecimalString
  Permutation.
Import ListNotations.
Local Open Scope string_scope.
Set Warnings "-register-all".

(* ===================================================================== *)
(** ** JavaScript values, as they occur in a validation-rule set *)
(* ===================================================================== *)

(** A value parsed from a JSON body.  An object keeps its properties in
    insertion order; a property that is absent reads as [None]
    ([undefined]). *)
Inductive JsVal : Type :=
| JNull
| JBool (b : bool)
| JNum (n : Z)
| JStr (s : string)
| JArr (xs : list JsVal)
| JObj (fields : list (string * JsVal)).

(** Truthiness of a value in a condition ([if (v)], [v && ...], [v || ...]). *)
Definition truthy (v : option JsVal) : bool :=
  match v with
  | None => false
  | Some JNull => false
  | Some (JBool b) => b
  | Some (JNum n) => negb (n =? 0)%Z
  | Some (JStr s) => negb (s =? "")
  | Some (JArr _) => true
  | Some (JObj _) => true
  end.

(** [v || null] *)
Definition or_null (v : option JsVal) : JsVal :=
  match v with
  | Some x => if truthy v then x else JNull
  | None => JNull
  end.

(** [typeof v] *)
Definition typeof (v : option JsVal) : string :=
  match v with
  | None => "undefined"
  | Some JNull => "object"
  | Some (JBool _) => "boolean"
  | Some (JNum _) => "number"
  | Some (JStr _) => "string"
  | Some (JArr _) => "object"
  | Some (JObj _) => "object"
  end.

(** [Array.isArray(v)] *)
Definition Array_isArray (v : option JsVal) : bool :=
  match v with
  | Some (JArr _) => true
  | _ => false
  end.

Fixpoint assoc (k : string) (fields : list (string * JsVal)) : option JsVal :=
  match fields with
  | [] => None
  | (k', v) :: rest => if k' =? k then Some v else assoc k rest
  end.

(** Property access [rules.k]; a value that is not an object has none of the
    rule properties. *)
Definition get (rules : JsVal) (k : string) : option JsVal :=
  match rules with
  | JObj fields => assoc k fields
  | _ => None
  end.

(** *** JSON.stringify *)

Definition dquote : ascii := ascii_of_nat 34.

Definition hex_digit (n : nat) : ascii :=
  if (n <? 10)%nat then ascii_of_nat (48 + n) else ascii_of_nat (87 + n).

Definition escape_char (c : ascii) : string :=
  let n := nat_of_ascii c in
  if (n =? 34)%nat then String "\" (String dquote EmptyString)
  else if (n =? 92)%nat then "\\"
  else if (n =? 8)%nat then "\b"
  else if (n =? 9)%nat then "\t"
  else if (n =? 10)%nat then "\n"
  else if (n =? 12)%nat then "\f"
  else if (n =? 13)%nat then "\r"
  else if (n <? 32)%nat then
    "\u00" ++ String (hex_digit (n / 16)) (String (hex_digit (n mod 16)) EmptyString)
  else String c EmptyString.

Fixpoint escape (s : string) : string :=
  match s with
  | EmptyString => EmptyString
  | String c rest => escape_char c ++ escape rest
  end.

Definition quote (s : string) : string :=
  String dquote (escape s ++ String dquote EmptyString).

Definition string_of_Z (n : Z) : string := NilZero.string_of_int (Z.to_int n).

(** Serialisation in property order, without white space. *)
Fixpoint JSON_stringify (v : JsVal) : string :=
  match v with
  | JNull => "null"
  | JBool true => "true"
  | JBool false => "false"
  | JNum n => string_of_Z n
  | JStr s => quote s
  | JArr xs =>
      "[" ++
      (fix elements (l : list JsVal) : string :=
         match l with
         | [] => ""
         | x :: rest =>
             match rest with
             | [] => JSON_stringify x
             | _ :: _ => JSON_stringify x ++ "," ++ elements rest
             end
         end) xs ++ "]"
  | JObj fields =>
      "{" ++
      (fix members (l : list (string * JsVal)) : string :=
         match l with
         | [] => ""
         | (k, x) :: rest =>
             match rest with
             | [] => quote k ++ ":" ++ JSON_stringify x
             | _ :: _ => quote k ++ ":" ++ JSON_stringify x ++ "," ++ members rest
             end
         end) fields ++ "}"
  end.

(** *** A value in a [jsonb] column

    The driver writes a value of a [jsonb] column with [JSON.stringify] and
    parses what it reads with [JSON.parse].  In between PostgreSQL keeps an
    object with its keys sorted, shorter keys first and keys of one length
    byte by byte; the object that [JSON.parse] builds from that text lists,
    as every JavaScript object does, the keys that are array indices first,
    in ascending order, and the others in the order of the text. *)

(** The order of the keys within a [jsonb] object. *)
Definition jsonb_key_lt (k k' : string) : bool :=
  (String.length k <? String.length k')%nat
  || ((String.length k =? String.length k')%nat
      && match String.compare k k' with Lt => true | _ => false end).

(** Adds a binding to the sorted bindings of an object.  A JavaScript object
    has each key once; in a list that repeats a key the first binding is the
    one that [get] reads, and it is the one kept. *)
Fixpoint jsonb_insert (k : string) (v : JsVal) (l : list (string * JsVal))
    : list (string * JsVal) :=
  match l with
  | [] => [(k, v)]
  | (k', v') :: rest =>
      if k =? k' then (k, v) :: rest
      else if jsonb_key_lt k k' then (k, v) :: l
      else (k', v') :: jsonb_insert k v rest
  end.

Fixpoint decimal_value (s : string) (acc : N) : option N :=
  match s with
  | EmptyString => Some acc
  | String c rest =>
      let n := nat_of_ascii c in
      if ((48 <=? n) && (n <=? 57))%nat
      then decimal_value rest (10 * acc + N.of_nat (n - 48))%N
      else None
  end.

(** An array index: the canonical decimal form of an integer from 0 to
    2^32 - 2. *)
Definition is_array_index (k : string) : bool :=
  match k with
  | EmptyString => false
  | String c rest =>
      match decimal_value k 0%N with
      | Some n =>
          ((k =? "0") || negb (nat_of_ascii c =? 48)%nat)
          && (n <=? 4294967294)%N
      | None => false
      end
  end.

(** The order in which a JavaScript object lists the keys that were added to
    it in the order of [l], when the array indices among them ascend. *)
Definition own_keys_order (l : list (string * JsVal)) : list (string * JsVal) :=
  (filter (fun kv => is_array_index (fst kv)) l
   ++ filter (fun kv => negb (is_array_index (fst kv))) l)%list.

(** The value that is read back from a [jsonb] column into which [v] was
    written. *)
Fixpoint jsonb (v : JsVal) : JsVal :=
  match v with
  | JArr xs =>
      JArr ((fix elements (l : list JsVal) : list JsVal :=
               match l with
               | [] => []
               | x :: rest => jsonb x :: elements rest
               end) xs)
  | JObj fields =>
      JObj (own_keys_order
              ((fix members (l : list (string * JsVal)) : list (string * JsVal) :=
                  match l with
                  | [] => []
                  | (k, x) :: rest => jsonb_insert k (jsonb x) (members rest)
                  end) fields))
  | _ => v
  end.

(* ===================================================================== *)
(** ** Errors (utils/errors) *)
(* ===================================================================== *)

Inductive ErrorClass : Type :=
| AppError
| ValidationError
| NotFoundError
| ConflictError
| UniqueConstraintError
| QueryFailedError
| TransactionNotStartedError
| TypeError
| StorageError.

Record Error : Type := mkError {
  cls : ErrorClass;
  message : string;
  statusCode : nat
}.

(** [error.constructor.name] *)
Definition constructor_name (e : Error) : string :=
  match cls e with
  | AppError => "AppError"
  | ValidationError => "ValidationError"
  | NotFoundError => "NotFoundError"
  | ConflictError => "ConflictError"
  | UniqueConstraintError => "UniqueConstraintError"
  | QueryFailedError => "QueryFailedError"
  | TransactionNotStartedError => "TransactionNotStartedError"
  | TypeError => "TypeError"
  | StorageError => "Error"
  end.

(** [error instanceof AppError] *)
Definition instanceof_AppError (e : Error) : bool :=
  match cls e with
  | AppError | ValidationError | NotFoundError | ConflictError
  | UniqueConstraintError => true
  | _ => false
  end.

Definition new_AppError (msg : string) (status : nat) : Error :=
  mkError AppError msg status.
Definition new_ValidationError (msg : string) : Error :=
  mkError ValidationError msg 400.
Definition new_NotFoundError (resource : string) : Error :=
  mkError NotFoundError (resource ++ " not found") 404.
Definition new_ConflictError (msg : string) : Error :=
  mkError ConflictError msg 409.
Definition new_UniqueConstraintError (field value : string) : Error :=
  mkError UniqueConstraintError (field ++ " '" ++ value ++ "' already exists") 409.

(** Errors that come from outside the program: the driver's duplicate-key
    failure, TypeORM's refusal to roll back without a transaction, a
    property read on [null], and any other storage failure. *)
Definition duplicate_key_message : string :=
  "duplicate key value violates unique constraint".
Definition duplicate_key_error : Error :=
  mkError QueryFailedError duplicate_key_message 0.
Definition transaction_not_started : Error :=
  mkError TransactionNotStartedError
    "Transaction is not started yet, start transaction before committing or rolling it back." 0.
Definition null_reference : Error :=
  mkError TypeError "Cannot read properties of null" 0.
Definition storage_failure (msg : string) : Error :=
  mkError StorageError msg 0.

(* ===================================================================== *)
(** ** Types (types/index) and entities *)
(* ===================================================================== *)

Definition Id := nat.
Definition Date := nat.

Inductive EventType : Type := TRACK | IDENTIFY | ALIAS | SCREEN | PAGE.
Inductive PropertyType : Type := STRING | NUMBER | BOOLEAN.

Definition EventType_value (t : EventType) : string :=
  match t with
  | TRACK => "track"
  | IDENTIFY => "identify"
  | ALIAS => "alias"
  | SCREEN => "screen"
  | PAGE => "page"
  end.

Definition PropertyType_value (t : PropertyType) : string :=
  match t with
  | STRING => "string"
  | NUMBER => "number"
  | BOOLEAN => "boolean"
  end.

Definition EventType_eqb (a b : EventType) : bool :=
  match a, b with
  | TRACK, TRACK | IDENTIFY, IDENTIFY | ALIAS, ALIAS | SCREEN, SCREEN
  | PAGE, PAGE => true
  | _, _ => false
  end.

Definition PropertyType_eqb (a b : PropertyType) : bool :=
  match a, b with
  | STRING, STRING | NUMBER, NUMBER | BOOLEAN, BOOLEAN => true
  | _, _ => false
  end.

Module Event.
Record t : Type := mk {
  id : Id;
  name : string;
  type : EventType;
  description : string;
  create_time : Date;
  update_time : Date;
  is_deleted : bool;
  deleted_at : option Date
}.
End Event.

Module Property.
(** [validation_rules] is a [jsonb] column; SQL [NULL] reads as [JNull]. *)
Record t : Type := mk {
  id : Id;
  name : string;
  type : PropertyType;
  description : string;
  validation_rules : JsVal;
  create_time : Date;
  update_time : Date;
  is_deleted : bool;
  deleted_at : option Date
}.
End Property.

Module TrackingPlan.
Record t : Type := mk {
  id : Id;
  name : string;
  description : string;
  create_time : Date;
  update_time : Date;
  is_deleted : bool;
  deleted_at : option Date
}.
End TrackingPlan.

Module TrackingPlanEvent.
Record t : Type := mk {
  id : Id;
  tracking_plan_id : Id;
  event_id : Id;
  additional_properties : bool;
  created_at : Date;
  is_deleted : bool;
  deleted_at : option Date
}.
End TrackingPlanEvent.

Module EventProperty.
Record t : Type := mk {
  id : Id;
  tracking_plan_event_id : Id;
  property_id : Id;
  required : bool;
  created_at : Date;
  is_deleted : bool;
  deleted_at : option Date
}.
End EventProperty.

(** *** Request and response shapes *)

Record CreateEventDto : Type := {
  ce_name : string;
  ce_type : EventType;
  ce_description : string;
  ce_create_time : option Date
}.

Record UpdateEventDto : Type := {
  ue_name : option string;
  ue_type : option EventType;
  ue_description : option string
}.

Record CreatePropertyDto : Type := {
  cp_name : string;
  cp_type : PropertyType;
  cp_description : string;
  cp_validation_rules : option JsVal;
  cp_create_time : option Date
}.


Record EventPropertyDto : Type := {
  epd_name : string;
  epd_type : PropertyType;
  epd_required : bool;
  epd_description : string;
  epd_validation_rules : option JsVal
}.

Record TrackingPlanEventDto : Type := {
  tpe_name : string;
  tpe_type : EventType;
  tpe_description : string;
  tpe_properties : list EventPropertyDto;
  tpe_additionalProperties : bool
}.

Record CreateTrackingPlanDto : Type := {
  ctp_name : string;
  ctp_description : string;
  ctp_events : list TrackingPlanEventDto;
  ctp_create_time : option Date
}.

Record UpdateTrackingPlanDto : Type := {
  utp_name : option string;
  utp_description : option string;
  utp_events : option (list TrackingPlanEventDto)
}.

Record PropertyRef : Type := {
  pr_id : Id;
  pr_name : string;
  pr_type : PropertyType;
  pr_description : string;
  pr_required : bool;
  pr_validation_rules : option JsVal
}.

Record EventRef : Type := {
  er_id : Id;
  er_name : string;
  er_type : EventType;
  er_description : string;
  er_additionalProperties : bool;
  er_properties : list PropertyRef
}.

Record TrackingPlanResponseDto : Type := {
  r_id : Id;
  r_name : string;
  r_description : string;
  r_create_time : Date;
  r_update_time : Date;
  r_is_deleted : bool;
  r_deleted_at : option Date;
  r_events : list EventRef
}.

Record PaginationOptions : Type := {
  page : option Z;
  limit : option Z
}.

Record Pagination : Type := {
  pg_page : Z;
  pg_limit : Z;
  pg_total : Z;
  pg_pages : option Z
}.

Record PaginatedResponse (T : Type) : Type := {
  pd_data : list T;
  pd_pagination : Pagination
}.
Arguments Build_PaginatedResponse {T}.
Arguments pd_data {T}.
Arguments pd_pagination {T}.

Record ApiError : Type := {
  code : string;
  err_message : string
}.

(** [ServiceResponse<T>]: [{ success: true, data }] or
    [{ success: false, error: { code, message } }]. *)
Inductive ServiceResponse (T : Type) : Type :=
| Success (data : T)
| Failure (error : ApiError).
Arguments Success {T}.
Arguments Failure {T}.

Definition success {T} (r : ServiceResponse T) : bool :=
  match r with
  | Success _ => true
  | Failure _ => false
  end.

(* ===================================================================== *)
(** ** The database and the world around the program *)
(* ===================================================================== *)

Record Store : Type := mkStore {
  tracking_plans : list TrackingPlan.t;
  events : list Event.t;
  properties : list Property.t;
  tracking_plan_events : list TrackingPlanEvent.t;
  event_properties : list EventProperty.t;
  next_id : Id
}.

(** The calls that leave the program and may fail there. *)
Inductive Op : Type :=
| OpConnect
| OpStartTransaction
| OpCommit
| OpRollback
| OpRelease
| OpQuery.

(** [db] is the database as the query runner's connection sees it.  While a
    transaction is open, [tx] holds the database as every other connection
    sees it, which is also what a rollback returns to.  [fault n op] tells
    whether the [n]-th call that leaves the program fails when it is an [op],
    and with which message.  [scan_rank n] is the order in which the [n]-th
    call finds the rows of a join: a query without ORDER BY returns its rows
    in an order of the database's choosing. *)
Record World : Type := mkWorld {
  db : Store;
  tx : option Store;
  fault : nat -> Op -> option string;
  clock : nat;
  now : Date;
  regexp_compiles : JsVal -> bool;
  ilike : string -> string -> bool;
  scan_rank : nat -> Id -> nat
}.

Definition set_db (d : Store) (w : World) : World :=
  mkWorld d (tx w) (fault w) (clock w) (now w) (regexp_compiles w) (ilike w)
    (scan_rank w).
Definition set_tx (t : option Store) (w : World) : World :=
  mkWorld (db w) t (fault w) (clock w) (now w) (regexp_compiles w) (ilike w)
    (scan_rank w).
Definition tick (w : World) : World :=
  mkWorld (db w) (tx w) (fault w) (S (clock w)) (now w) (regexp_compiles w) (ilike w)
    (scan_rank w).

(** *** The monad of service computations *)

Inductive Outcome (A : Type) : Type :=
| Ok (a : A)
| Throw (e : Error).
Arguments Ok {A}.
Arguments Throw {A}.

Definition M (A : Type) : Type := World -> Outcome A * World.

Definition ret {A} (a : A) : M A := fun w => (Ok a, w).

Definition throw {A} (e : Error) : M A := fun w => (Throw e, w).

Definition bind {A B} (m : M A) (k : A -> M B) : M B :=
  fun w =>
    match m w with
    | (Ok a, w1) => k a w1
    | (Throw e, w1) => (Throw e, w1)
    end.

Declare Scope service_scope.
Delimit Scope service_scope with service.
Notation "x <- m ;; k" := (bind m (fun x => k))
  (at level 61, m at next level, right associativity) : service_scope.
Notation "m ;; k" := (bind m (fun _ => k))
  (at level 61, right associativity) : service_scope.
Local Open Scope service_scope.

(** [try { body } catch (error) { handler }] *)
Definition tryCatch {A} (body : M A) (handler : Error -> M A) : M A :=
  fun w =>
    match body w with
    | (Ok a, w1) => (Ok a, w1)
    | (Throw e, w1) => handler e w1
    end.

(** [try { body } catch (error) { handler } finally { fin }]: the [finally]
    block runs whatever the first two did, and an exception of its own
    replaces their result. *)
Definition tryCatchFinally {A} (body : M A) (handler : Error -> M A)
    (fin : M unit) : M A :=
  fun w =>
    let (r, w1) := tryCatch body handler w in
    match fin w1 with
    | (Ok _, w2) => (r, w2)
    | (Throw e, w2) => (Throw e, w2)
    end.

(** [for (const x of xs) { ... }], collecting what each round yields. *)
Fixpoint forEach {A B} (f : A -> M B) (xs : list A) : M (list B) :=
  match xs with
  | [] => ret []
  | x :: rest => y <- f x ;; ys <- forEach f rest ;; ret (y :: ys)
  end.

(** A call that leaves the program: it counts, and fails when the world says
    so. *)
Definition external {A} (op : Op) (run : M A) : M A :=
  fun w =>
    match fault w (clock w) op with
    | Some msg => (Throw (storage_failure msg), tick w)
    | None => run (tick w)
    end.

Definition new_Date : M Date := fun w => (Ok (now w), w).

(* ===================================================================== *)
(** ** TypeORM: entities, repositories, query runner *)
(* ===================================================================== *)

(** What the decorators of an entity class declare: its table, its unique
    index ([unique_clash a b]: the two rows have the same index key),
    whether an update stamps [update_time] ([touch]), and the types of its
    columns ([as_stored r]: the row as its columns hold it). *)
Class Entity (T : Type) : Type := {
  entity_id : T -> Id;
  entity_is_deleted : T -> bool;
  table : Store -> list T;
  set_table : list T -> Store -> Store;
  unique_clash : T -> T -> bool;
  touch : Date -> T -> T;
  mark_deleted : Date -> T -> T;
  as_stored : T -> T
}.

Definition bump (i : Id) (s : Store) : Store :=
  mkStore (tracking_plans s) (events s) (properties s)
    (tracking_plan_events s) (event_properties s) (S i).

#[export] Instance TrackingPlan_Entity : Entity TrackingPlan.t := {
  entity_id := TrackingPlan.id;
  entity_is_deleted := TrackingPlan.is_deleted;
  table := tracking_plans;
  set_table := fun l s =>
    mkStore l (events s) (properties s) (tracking_plan_events s)
      (event_properties s) (next_id s);
  unique_clash := fun a b => TrackingPlan.name a =? TrackingPlan.name b;
  touch := fun d p =>
    TrackingPlan.mk (TrackingPlan.id p) (TrackingPlan.name p)
      (TrackingPlan.description p) (TrackingPlan.create_time p) d
      (TrackingPlan.is_deleted p) (TrackingPlan.deleted_at p);
  mark_deleted := fun d p =>
    TrackingPlan.mk (TrackingPlan.id p) (TrackingPlan.name p)
      (TrackingPlan.description p) (TrackingPlan.create_time p)
      (TrackingPlan.update_time p) true (Some d);
  as_stored := fun p => p
}.

#[export] Instance Event_Entity : Entity Event.t := {
  entity_id := Event.id;
  entity_is_deleted := Event.is_deleted;
  table := events;
  set_table := fun l s =>
    mkStore (tracking_plans s) l (properties s) (tracking_plan_events s)
      (event_properties s) (next_id s);
  unique_clash := fun a b =>
    (Event.name a =? Event.name b) && EventType_eqb (Event.type a) (Event.type b);
  touch := fun d e =>
    Event.mk (Event.id e) (Event.name e) (Event.type e) (Event.description e)
      (Event.create_time e) d (Event.is_deleted e) (Event.deleted_at e);
  mark_deleted := fun d e =>
    Event.mk (Event.id e) (Event.name e) (Event.type e) (Event.description e)
      (Event.create_time e) (Event.update_time e) true (Some d);
  as_stored := fun e => e
}.

#[export] Instance Property_Entity : Entity Property.t := {
  entity_id := Property.id;
  entity_is_deleted := Property.is_deleted;
  table := properties;
  set_table := fun l s =>
    mkStore (tracking_plans s) (events s) l (tracking_plan_events s)
      (event_properties s) (next_id s);
  unique_clash := fun a b =>
    (Property.name a =? Property.name b)
    && PropertyType_eqb (Property.type a) (Property.type b);
  touch := fun d p =>
    Property.mk (Property.id p) (Property.name p) (Property.type p)
      (Property.description p) (Property.validation_rules p)
      (Property.create_time p) d (Property.is_deleted p) (Property.deleted_at p);
  mark_deleted := fun d p =>
    Property.mk (Property.id p) (Property.name p) (Property.type p)
      (Property.description p) (Property.validation_rules p)
      (Property.create_time p) (Property.update_time p) true (Some d);
  as_stored := fun p =>
    Property.mk (Property.id p) (Property.name p) (Property.type p)
      (Property.description p) (jsonb (Property.validation_rules p))
      (Property.create_time p) (Property.update_time p) (Property.is_deleted p)
      (Property.deleted_at p)
}.

#[export] Instance TrackingPlanEvent_Entity : Entity TrackingPlanEvent.t := {
  entity_id := TrackingPlanEvent.id;
  entity_is_deleted := TrackingPlanEvent.is_deleted;
  table := tracking_plan_events;
  set_table := fun l s =>
    mkStore (tracking_plans s) (events s) (properties s) l
      (event_properties s) (next_id s);
  unique_clash := fun a b =>
    (TrackingPlanEvent.tracking_plan_id a =? TrackingPlanEvent.tracking_plan_id b)%nat
    && (TrackingPlanEvent.event_id a =? TrackingPlanEvent.event_id b)%nat;
  touch := fun _ l => l;
  mark_deleted := fun d l =>
    TrackingPlanEvent.mk (TrackingPlanEvent.id l)
      (TrackingPlanEvent.tracking_plan_id l) (TrackingPlanEvent.event_id l)
      (TrackingPlanEvent.additional_properties l)
      (TrackingPlanEvent.created_at l) true (Some d);
  as_stored := fun l => l
}.

#[export] Instance EventProperty_Entity : Entity EventProperty.t := {
  entity_id := EventProperty.id;
  entity_is_deleted := EventProperty.is_deleted;
  table := event_properties;
  set_table := fun l s =>
    mkStore (tracking_plans s) (events s) (properties s)
      (tracking_plan_events s) l (next_id s);
  unique_clash := fun a b =>
    (EventProperty.tracking_plan_event_id a =? EventProperty.tracking_plan_event_id b)%nat
    && (EventProperty.property_id a =? EventProperty.property_id b)%nat;
  touch := fun _ l => l;
  mark_deleted := fun d l =>
    EventProperty.mk (EventProperty.id l) (EventProperty.tracking_plan_event_id l)
      (EventProperty.property_id l) (EventProperty.required l)
      (EventProperty.created_at l) true (Some d);
  as_stored := fun l => l
}.

(** The two ways the services reach the database: the repositories built on
    [AppDataSource.getRepository], which take a connection of the pool for
    each call, and the repositories of [queryRunner.manager], which use the
    runner's connection and transaction. *)
Inductive Conn : Type := Pool | Runner.

(** What a read on the connection sees. *)
Definition view (c : Conn) (w : World) : Store :=
  match c, tx w with
  | Pool, Some committed => committed
  | _, _ => db w
  end.

(** A write on the connection.  A write through the pool is committed on its
    own: the runner sees it, and a later rollback of the runner keeps it. *)
Definition write (c : Conn) (f : Store -> Store) (w : World) : World :=
  match c with
  | Runner => set_db (f (db w)) w
  | Pool => set_tx (option_map f (tx w)) (set_db (f (db w)) w)
  end.

Definition insert_row {T} `{Entity T} (row : T) (s : Store) : Store :=
  bump (entity_id row) (set_table (table s ++ [as_stored row]) s).

Definition apply_update {T} `{Entity T} (crit : T -> bool) (patch : T -> T)
    (d : Date) (s : Store) : Store :=
  set_table
    (map (fun r => if crit r then as_stored (touch d (patch r)) else r) (table s)) s.

(** Would the update leave two rows with the same unique-index key? *)
Definition update_clashes {T} `{Entity T} (crit : T -> bool) (patch : T -> T)
    (rows : list T) : bool :=
  existsb (fun r =>
    crit r &&
    existsb (fun o =>
      negb (entity_id o =? entity_id r)%nat
      && unique_clash (patch r) (if crit o then patch o else o)) rows) rows.

Module Repository.

Definition findOne {T} `{Entity T} (c : Conn) (where_ : T -> bool) : M (option T) :=
  external OpQuery (fun w => (Ok (find where_ (table (view c w))), w)).

Definition find {T} `{Entity T} (c : Conn) (where_ : T -> bool) : M (list T) :=
  external OpQuery (fun w => (Ok (filter where_ (table (view c w))), w)).

(** [save] of a new entity: an INSERT.  The row gets its uuid and the column
    defaults; the unique index of the table refuses a second row with the
    same key, deleted or not.  The entity that [save] returns is the object
    it was given, completed with the generated columns; the table holds the
    row as its columns store it. *)
Definition save {T} `{Entity T} (c : Conn) (entity : Id -> Date -> T) : M T :=
  external OpQuery (fun w =>
    let row := entity (next_id (db w)) (now w) in
    if existsb (unique_clash row) (table (view c w))
    then (Throw duplicate_key_error, w)
    else (Ok row, write c (insert_row row) w)).

(** [update(criteria, partial)]: the number of rows affected. *)
Definition update {T} `{Entity T} (c : Conn) (crit : T -> bool) (patch : T -> T)
    : M nat :=
  external OpQuery (fun w =>
    let rows := table (view c w) in
    if update_clashes crit patch rows
    then (Throw duplicate_key_error, w)
    else (Ok (length (filter crit rows)), write c (apply_update crit patch (now w)) w)).

End Repository.

Module QueryRunner.

(** A new runner has no transaction; what an abandoned runner had not
    committed is gone. *)
Definition createQueryRunner : M unit :=
  fun w => (Ok tt, set_tx None (set_db (view Pool w) w)).

Definition connect : M unit := external OpConnect (ret tt).

Definition startTransaction : M unit :=
  external OpStartTransaction (fun w => (Ok tt, set_tx (Some (db w)) w)).

Definition commitTransaction : M unit :=
  fun w =>
    match tx w with
    | None => (Throw transaction_not_started, w)
    | Some _ => external OpCommit (fun w1 => (Ok tt, set_tx None w1)) w
    end.

Definition rollbackTransaction : M unit :=
  fun w =>
    match tx w with
    | None => (Throw transaction_not_started, w)
    | Some committed =>
        external OpRollback (fun w1 => (Ok tt, set_tx None (set_db committed w1))) w
    end.

Definition release : M unit := external OpRelease (ret tt).

End QueryRunner.

(* ===================================================================== *)
(** ** Repositories *)
(* ===================================================================== *)

Module BaseRepository.

Definition findById {T} `{Entity T} (id : Id) : M (option T) :=
  Repository.findOne Pool
    (fun r => (entity_id r =? id)%nat && negb (entity_is_deleted r)).

Definition create {T} `{Entity T} (data : Id -> Date -> T) : M T :=
  Repository.save Pool data.

Definition update {T} `{Entity T} (id : Id) (data : T -> T) : M (option T) :=
  Repository.update Pool (fun r => (entity_id r =? id)%nat) data ;;
  findById id.

Definition softDelete {T} `{Entity T} (id : Id) : M bool :=
  d <- new_Date ;;
  affected <- Repository.update Pool (fun r => (entity_id r =? id)%nat) (mark_deleted d) ;;
  ret (affected =? 1)%nat.

End BaseRepository.

Definition like_pattern (term : string) : string := "%" ++ term ++ "%".

Definition given {A} (o : option A) : bool :=
  match o with
  | Some _ => true
  | None => false
  end.

(** Truthiness of an optional string: given and not empty. *)
Definition nonempty (s : option string) : bool :=
  match s with
  | Some x => negb (x =? "")
  | None => false
  end.

(** A filter field narrows the query only when it is given and not empty. *)
Definition ilike_filter (w : World) (term : option string) (value : string) : bool :=
  match term with
  | Some t => if negb (t =? "") then ilike w (like_pattern t) value else true
  | None => true
  end.

Module EventRepository.

Definition findByNameAndType (name : string) (type : EventType) : M (option Event.t) :=
  Repository.findOne Pool (fun e =>
    (Event.name e =? name) && EventType_eqb (Event.type e) type
    && negb (Event.is_deleted e)).

Definition findByNameAndTypeExcludingId (name : string) (type : EventType)
    (excludeId : Id) : M (option Event.t) :=
  Repository.findOne Pool (fun e =>
    (Event.name e =? name) && EventType_eqb (Event.type e) type
    && negb (Event.is_deleted e) && negb (Event.id e =? excludeId)%nat).

Record EventFilter : Type := {
  name : option string;
  type : option EventType;
  description : option string
}.

Definition findByFilter (filter : EventFilter) : M (list Event.t) :=
  fun w =>
    Repository.find Pool (fun e =>
      negb (Event.is_deleted e)
      && ilike_filter w (name filter) (Event.name e)
      && match type filter with
         | Some t => EventType_eqb (Event.type e) t
         | None => true
         end
      && ilike_filter w (description filter) (Event.description e)) w.

Definition searchByName (searchTerm : string) : M (list Event.t) :=
  fun w =>
    Repository.find Pool (fun e =>
      ilike w (like_pattern searchTerm) (Event.name e)
      && negb (Event.is_deleted e)) w.

End EventRepository.

Module PropertyRepository.

Definition findByNameAndType (name : string) (type : PropertyType)
    : M (option Property.t) :=
  Repository.findOne Pool (fun p =>
    (Property.name p =? name) && PropertyType_eqb (Property.type p) type
    && negb (Property.is_deleted p)).

Definition findByNameAndTypeExcludingId (name : string) (type : PropertyType)
    (excludeId : Id) : M (option Property.t) :=
  Repository.findOne Pool (fun p =>
    (Property.name p =? name) && PropertyType_eqb (Property.type p) type
    && negb (Property.is_deleted p) && negb (Property.id p =? excludeId)%nat).

Record PropertyFilter : Type := {
  name : option string;
  type : option PropertyType;
  description : option string
}.

Definition findByFilter (filter : PropertyFilter) : M (list Property.t) :=
  fun w =>
    Repository.find Pool (fun p =>
      negb (Property.is_deleted p)
      && ilike_filter w (name filter) (Property.name p)
      && match type filter with
         | Some t => PropertyType_eqb (Property.type p) t
         | None => true
         end
      && ilike_filter w (description filter) (Property.description p)) w.

Definition searchByName (searchTerm : string) : M (list Property.t) :=
  fun w =>
    Repository.find Pool (fun p =>
      ilike w (like_pattern searchTerm) (Property.name p)
      && negb (Property.is_deleted p)) w.

End PropertyRepository.

(** A tracking plan loaded with its relations
    ([trackingPlanEvents: { event, eventProperties: { property } }]).  The
    relations are loaded whatever their [is_deleted] flag; a relation whose
    target row is missing loads as [null]. *)
Record LoadedEventProperty : Type := {
  lep_row : EventProperty.t;
  lep_property : option Property.t
}.

Record LoadedTrackingPlanEvent : Type := {
  lpe_row : TrackingPlanEvent.t;
  lpe_event : option Event.t;
  lpe_eventProperties : list LoadedEventProperty
}.

Record LoadedTrackingPlan : Type := {
  lp_row : TrackingPlan.t;
  lp_trackingPlanEvents : list LoadedTrackingPlanEvent
}.

(** The rows in the order in which the scan finds them; rows of one rank
    stay in the order of the table. *)
Fixpoint insert_by {A} (rank : A -> nat) (x : A) (l : list A) : list A :=
  match l with
  | [] => [x]
  | y :: rest =>
      if (rank x <=? rank y)%nat then x :: l else y :: insert_by rank x rest
  end.

Definition arrange {A} (rank : A -> nat) (l : list A) : list A :=
  fold_right (insert_by rank) [] l.

(** [relations: [...]]: the joins of the query, read into the entity and its
    nested arrays in the order of the result rows. *)
Definition load_relations (rank : Id -> nat) (s : Store) (p : TrackingPlan.t)
    : LoadedTrackingPlan :=
  {| lp_row := p;
     lp_trackingPlanEvents :=
       map (fun l =>
         {| lpe_row := l;
            lpe_event :=
              find (fun e => (Event.id e =? TrackingPlanEvent.event_id l)%nat) (events s);
            lpe_eventProperties :=
              map (fun ep =>
                {| lep_row := ep;
                   lep_property :=
                     find (fun q => (Property.id q =? EventProperty.property_id ep)%nat)
                       (properties s) |})
                (arrange (fun ep => rank (EventProperty.id ep))
                   (filter (fun ep =>
                      (EventProperty.tracking_plan_event_id ep
                       =? TrackingPlanEvent.id l)%nat)
                      (event_properties s))) |})
         (arrange (fun l => rank (TrackingPlanEvent.id l))
            (filter (fun l =>
               (TrackingPlanEvent.tracking_plan_id l =? TrackingPlan.id p)%nat)
               (tracking_plan_events s))) |}.

Module TrackingPlanRepository.

Definition findByName (name : string) : M (option TrackingPlan.t) :=
  Repository.findOne Pool (fun p =>
    (TrackingPlan.name p =? name) && negb (TrackingPlan.is_deleted p)).

Record TrackingPlanFilter : Type := {
  name : option string;
  description : option string
}.

Definition findByFilter (filter : TrackingPlanFilter) : M (list TrackingPlan.t) :=
  fun w =>
    Repository.find Pool (fun p =>
      negb (TrackingPlan.is_deleted p)
      && ilike_filter w (name filter) (TrackingPlan.name p)
      && ilike_filter w (description filter) (TrackingPlan.description p)) w.

Definition findByNameExcludingId (name : string) (excludeId : Id)
    : M (option TrackingPlan.t) :=
  Repository.findOne Pool (fun p =>
    (TrackingPlan.name p =? name) && negb (TrackingPlan.is_deleted p)
    && negb (TrackingPlan.id p =? excludeId)%nat).

Definition findWithEvents (id : Id) : M (option LoadedTrackingPlan) :=
  external OpQuery (fun w =>
    let s := view Pool w in
    (Ok (option_map (load_relations (scan_rank w (clock w)) s)
           (List.find (fun p => (TrackingPlan.id p =? id)%nat
                                && negb (TrackingPlan.is_deleted p))
              (tracking_plans s))), w)).

End TrackingPlanRepository.

(* ===================================================================== *)
(** ** Services *)
(* ===================================================================== *)

(** [error instanceof Error ? error.message : 'Unknown error occurred']:
    everything thrown in this program is an [Error]. *)
Definition failure {T} (code_ : string) (e : Error) : ServiceResponse T :=
  Failure {| code := code_; err_message := message e |}.

(** [d || new Date()]: a [Date] object is always truthy. *)
Definition or_now (d : option Date) : M Date :=
  match d with
  | Some x => ret x
  | None => new_Date
  end.

(** [xs.slice(startIndex, endIndex)] *)
Definition slice {A} (xs : list A) (startIndex endIndex : Z) : list A :=
  let len := Z.of_nat (length xs) in
  let clamp i := if (i <? 0)%Z then Z.max (len + i) 0 else Z.min i len in
  let b := clamp startIndex in
  let e := clamp endIndex in
  firstn (Z.to_nat (e - b)) (skipn (Z.to_nat b) xs).

(** [Math.ceil(total / limit)]; not a finite number when [limit] is 0. *)
Definition ceil_div (total limit_ : Z) : option Z :=
  if (limit_ =? 0)%Z then None else Some (- ((- total) / limit_))%Z.

Definition paginate {A} (xs : list A) (pagination : PaginationOptions)
    : list A * Pagination :=
  let page_ := match page pagination with Some p => p | None => 1%Z end in
  let limit_ := match limit pagination with Some l => l | None => 10%Z end in
  let startIndex := ((page_ - 1) * limit_)%Z in
  let endIndex := (startIndex + limit_)%Z in
  (slice xs startIndex endIndex,
   {| pg_page := page_;
      pg_limit := limit_;
      pg_total := Z.of_nat (length xs);
      pg_pages := ceil_div (Z.of_nat (length xs)) limit_ |}).

Module EventService.

Definition new_event (data : CreateEventDto) (create_time : Date)
    (id : Id) (today : Date) : Event.t :=
  Event.mk id (ce_name data) (ce_type data) (ce_description data)
    create_time today false None.

Definition createEvent (data : CreateEventDto) : M (ServiceResponse Event.t) :=
  tryCatch
    (existingEvent <- EventRepository.findByNameAndType (ce_name data) (ce_type data) ;;
     match existingEvent with
     | Some _ =>
         throw (new_UniqueConstraintError "Event"
                  (ce_name data ++ ":" ++ EventType_value (ce_type data)))
     | None =>
         create_time <- or_now (ce_create_time data) ;;
         event <- BaseRepository.create (new_event data create_time) ;;
         ret (Success event)
     end)
    (fun error => ret (failure "CREATE_EVENT_ERROR" error)).

Definition getEventById (id : Id) : M (ServiceResponse Event.t) :=
  tryCatch
    (event <- BaseRepository.findById id ;;
     match event with
     | None => throw (new_NotFoundError "Event")
     | Some e => ret (Success e)
     end)
    (fun error => ret (failure "GET_EVENT_ERROR" error)).

Definition getAllEvents (filter : EventRepository.EventFilter)
    (pagination : PaginationOptions)
    : M (ServiceResponse (PaginatedResponse Event.t)) :=
  tryCatch
    (events <- EventRepository.findByFilter filter ;;
     let (paginatedEvents, info) := paginate events pagination in
     ret (Success (Build_PaginatedResponse paginatedEvents info)))
    (fun error => ret (failure "GET_ALL_EVENTS_ERROR" error)).

(** The columns an [UpdateEventDto] sets: those that are not [undefined]. *)
Definition patch_event (data : UpdateEventDto) (e : Event.t) : Event.t :=
  Event.mk (Event.id e)
    (match ue_name data with Some n => n | None => Event.name e end)
    (match ue_type data with Some t => t | None => Event.type e end)
    (match ue_description data with Some d => d | None => Event.description e end)
    (Event.create_time e) (Event.update_time e) (Event.is_deleted e)
    (Event.deleted_at e).

Definition updateEvent (id : Id) (data : UpdateEventDto)
    : M (ServiceResponse (option Event.t)) :=
  tryCatch
    (existingEvent <- BaseRepository.findById id ;;
     match existingEvent with
     | None => throw (new_NotFoundError "Event")
     | Some existing =>
         (if nonempty (ue_name data) || given (ue_type data)
          then
            let nameToCheck :=
              if nonempty (ue_name data)
              then match ue_name data with Some n => n | None => Event.name existing end
              else Event.name existing in
            let typeToCheck :=
              match ue_type data with Some t => t | None => Event.type existing end in
            conflictingEvent <-
              EventRepository.findByNameAndTypeExcludingId nameToCheck typeToCheck id ;;
            match conflictingEvent with
            | Some _ =>
                throw (new_UniqueConstraintError "Event"
                         (nameToCheck ++ ":" ++ EventType_value typeToCheck))
            | None => ret tt
            end
          else ret tt) ;;
         updatedEvent <- BaseRepository.update id (patch_event data) ;;
         ret (Success updatedEvent)
     end)
    (fun error => ret (failure "UPDATE_EVENT_ERROR" error)).

Definition deleteEvent (id : Id) : M (ServiceResponse unit) :=
  tryCatch
    (event <- BaseRepository.findById (T := Event.t) id ;;
     match event with
     | None => throw (new_NotFoundError "Event")
     | Some _ =>
         BaseRepository.softDelete (T := Event.t) id ;;
         ret (Success tt)
     end)
    (fun error => ret (failure "DELETE_EVENT_ERROR" error)).

Definition searchEvents (searchTerm : string) : M (ServiceResponse (list Event.t)) :=
  tryCatch
    (events <- EventRepository.searchByName searchTerm ;;
     ret (Success events))
    (fun error => ret (failure "SEARCH_EVENTS_ERROR" error)).

(** Internal method used by TrackingPlanService. *)
Definition findOrCreateEvent (data : CreateEventDto) : M Event.t :=
  existingEvent <- EventRepository.findByNameAndType (ce_name data) (ce_type data) ;;
  match existingEvent with
  | Some existing =>
      if negb (Event.description existing =? ce_description data)
      then throw (new_ConflictError
                    ("Event '" ++ ce_name data ++ "' of type '"
                     ++ EventType_value (ce_type data)
                     ++ "' already exists with different description"))
      else ret existing
  | None =>
      create_time <- or_now (ce_create_time data) ;;
      BaseRepository.create (new_event data create_time)
  end.

End EventService.

Module PropertyService.

(** [if (c) throw new ValidationError(msg)] *)
Definition reject_if (c : bool) (msg : string) : M unit :=
  if c then throw (new_ValidationError msg) else ret tt.

Definition not_a (ty : string) (v : option JsVal) : bool :=
  truthy v && negb (typeof v =? ty).

Definition validatePropertyRules (rules : JsVal) (type : PropertyType) : M unit :=
  match type with
  | STRING =>
      reject_if (not_a "number" (get rules "min"))
        "String property min length must be a number" ;;
      reject_if (not_a "number" (get rules "max"))
        "String property max length must be a number" ;;
      reject_if (not_a "string" (get rules "regex"))
        "String property regex must be a string"
  | NUMBER =>
      reject_if (not_a "number" (get rules "min"))
        "Number property min value must be a number" ;;
      reject_if (not_a "number" (get rules "max"))
        "Number property max value must be a number"
  | BOOLEAN =>
      reject_if (truthy (get rules "enum") && negb (Array_isArray (get rules "enum")))
        "Boolean property enum must be an array"
  end ;;
  match get rules "regex" with
  | Some regex =>
      if truthy (Some regex)
      then fun w =>
             if regexp_compiles w regex then (Ok tt, w)
             else (Throw (new_ValidationError "Invalid regex pattern in validation rules"), w)
      else ret tt
  | None => ret tt
  end.

(** [if (data.validation_rules) this.validatePropertyRules(...)] *)
Definition validate_if_given (rules : option JsVal) (type : PropertyType) : M unit :=
  match rules with
  | Some r => if truthy rules then validatePropertyRules r type else ret tt
  | None => ret tt
  end.

Definition new_property (data : CreatePropertyDto) (create_time : Date)
    (id : Id) (today : Date) : Property.t :=
  Property.mk id (cp_name data) (cp_type data) (cp_description data)
    (match cp_validation_rules data with Some r => r | None => JNull end)
    create_time today false None.

Definition createProperty (data : CreatePropertyDto)
    : M (ServiceResponse Property.t) :=
  tryCatch
    (existingProperty <-
       PropertyRepository.findByNameAndType (cp_name data) (cp_type data) ;;
     match existingProperty with
     | Some _ =>
         throw (new_UniqueConstraintError "Property"
                  (cp_name data ++ ":" ++ PropertyType_value (cp_type data)))
     | None =>
         validate_if_given (cp_validation_rules data) (cp_type data) ;;
         create_time <- or_now (cp_create_time data) ;;
         property <- BaseRepository.create (new_property data create_time) ;;
         ret (Success property)
     end)
    (fun error => ret (failure "CREATE_PROPERTY_ERROR" error)).


Definition getAllProperties (filter : PropertyRepository.PropertyFilter)
    (pagination : PaginationOptions)
    : M (ServiceResponse (PaginatedResponse Property.t)) :=
  tryCatch
    (properties <- PropertyRepository.findByFilter filter ;;
     let (paginatedProperties, info) := paginate properties pagination in
     ret (Success (Build_PaginatedResponse paginatedProperties info)))
    (fun error => ret (failure "GET_ALL_PROPERTIES_ERROR" error)).




Definition searchProperties (searchTerm : string)
    : M (ServiceResponse (list Property.t)) :=
  tryCatch
    (properties <- PropertyRepository.searchByName searchTerm ;;
     ret (Success properties))
    (fun error => ret (failure "SEARCH_PROPERTIES_ERROR" error)).

(** Internal method used by TrackingPlanService. *)
Definition findOrCreateProperty (data : CreatePropertyDto) : M Property.t :=
  existingProperty <-
    PropertyRepository.findByNameAndType (cp_name data) (cp_type data) ;;
  match existingProperty with
  | Some existing =>
      if negb (Property.description existing =? cp_description data)
      then throw (new_ConflictError
                    ("Property '" ++ cp_name data ++ "' of type '"
                     ++ PropertyType_value (cp_type data)
                     ++ "' already exists with different description"))
      else
        (* Normalize validation rules - treat null and undefined as equivalent *)
        let existingRules := or_null (Some (Property.validation_rules existing)) in
        let newRules := or_null (cp_validation_rules data) in
        if negb (JSON_stringify existingRules =? JSON_stringify newRules)
        then throw (new_ConflictError
                      ("Property '" ++ cp_name data ++ "' of type '"
                       ++ PropertyType_value (cp_type data)
                       ++ "' already exists with different validation rules"))
        else ret existing
  | None =>
      validate_if_given (cp_validation_rules data) (cp_type data) ;;
      create_time <- or_now (cp_create_time data) ;;
      BaseRepository.create (new_property data create_time)
  end.

End PropertyService.

Module TrackingPlanService.

Definition new_tracking_plan (data : CreateTrackingPlanDto) (create_time : Date)
    (id : Id) (today : Date) : TrackingPlan.t :=
  TrackingPlan.mk id (ctp_name data) (ctp_description data) create_time today
    false None.

Definition new_tracking_plan_event (tracking_plan_id event_id : Id)
    (additional_properties : bool) (id : Id) (today : Date) : TrackingPlanEvent.t :=
  TrackingPlanEvent.mk id tracking_plan_id event_id additional_properties today
    false None.

Definition new_event_property (tracking_plan_event_id property_id : Id)
    (required : bool) (id : Id) (today : Date) : EventProperty.t :=
  EventProperty.mk id tracking_plan_event_id property_id required today false None.

(** [rules || undefined] *)
Definition or_undefined (rules : JsVal) : option JsVal :=
  if truthy (Some rules) then Some rules else None.

Definition property_ref (property : Property.t) (required : bool) : PropertyRef :=
  {| pr_id := Property.id property;
     pr_name := Property.name property;
     pr_type := Property.type property;
     pr_description := Property.description property;
     pr_required := required;
     pr_validation_rules := or_undefined (Property.validation_rules property) |}.

Definition event_ref (event : Event.t) (additionalProperties : bool)
    (props : list PropertyRef) : EventRef :=
  {| er_id := Event.id event;
     er_name := Event.name event;
     er_type := Event.type event;
     er_description := Event.description event;
     er_additionalProperties := additionalProperties;
     er_properties := props |}.

Definition response (trackingPlan : TrackingPlan.t) (events : list EventRef)
    : TrackingPlanResponseDto :=
  {| r_id := TrackingPlan.id trackingPlan;
     r_name := TrackingPlan.name trackingPlan;
     r_description := TrackingPlan.description trackingPlan;
     r_create_time := TrackingPlan.create_time trackingPlan;
     r_update_time := TrackingPlan.update_time trackingPlan;
     r_is_deleted := TrackingPlan.is_deleted trackingPlan;
     r_deleted_at := TrackingPlan.deleted_at trackingPlan;
     r_events := events |}.

(** One round of the inner loop of [createTrackingPlan]. *)
Definition create_property_link (create_time : option Date)
    (trackingPlanEvent : TrackingPlanEvent.t) (propertyData : EventPropertyDto)
    : M PropertyRef :=
  property <- PropertyService.findOrCreateProperty
    {| cp_name := epd_name propertyData;
       cp_type := epd_type propertyData;
       cp_description := epd_description propertyData;
       cp_validation_rules := epd_validation_rules propertyData;
       cp_create_time := create_time |} ;;
  Repository.save Runner
    (new_event_property (TrackingPlanEvent.id trackingPlanEvent)
       (Property.id property) (epd_required propertyData)) ;;
  ret (property_ref property (epd_required propertyData)).

(** One round of the outer loop of [createTrackingPlan]. *)
Definition create_event_link (create_time : option Date)
    (trackingPlan : TrackingPlan.t) (eventData : TrackingPlanEventDto)
    : M EventRef :=
  event <- EventService.findOrCreateEvent
    {| ce_name := tpe_name eventData;
       ce_type := tpe_type eventData;
       ce_description := tpe_description eventData;
       ce_create_time := create_time |} ;;
  trackingPlanEvent <- Repository.save Runner
    (new_tracking_plan_event (TrackingPlan.id trackingPlan) (Event.id event)
       (tpe_additionalProperties eventData)) ;;
  createdProperties <-
    forEach (create_property_link create_time trackingPlanEvent)
      (tpe_properties eventData) ;;
  ret (event_ref event (tpe_additionalProperties eventData) createdProperties).

(** The [try] block of [createTrackingPlan]. *)
Definition createTrackingPlan_try (data : CreateTrackingPlanDto)
    : M (ServiceResponse TrackingPlanResponseDto) :=
  existingPlan <- TrackingPlanRepository.findByName (ctp_name data) ;;
  match existingPlan with
  | Some _ => throw (new_UniqueConstraintError "TrackingPlan" (ctp_name data))
  | None =>
      create_time <- or_now (ctp_create_time data) ;;
      trackingPlan <- BaseRepository.create (new_tracking_plan data create_time) ;;
      createdEvents <-
        forEach (create_event_link (ctp_create_time data) trackingPlan)
          (ctp_events data) ;;
      QueryRunner.commitTransaction ;;
      ret (Success (response trackingPlan createdEvents))
  end.

Definition createTrackingPlan (data : CreateTrackingPlanDto)
    : M (ServiceResponse TrackingPlanResponseDto) :=
  QueryRunner.createQueryRunner ;;
  QueryRunner.connect ;;
  QueryRunner.startTransaction ;;
  tryCatchFinally
    (createTrackingPlan_try data)
    (fun error =>
       QueryRunner.rollbackTransaction ;;
       ret (failure "CREATE_TRACKING_PLAN_ERROR" error))
    QueryRunner.release.

(** [tpe.event.id], [ep.property.id]: reading through a relation that loaded
    as [null] throws. *)
Definition deref {A} (o : option A) : M A :=
  match o with
  | Some a => ret a
  | None => throw null_reference
  end.

Definition mapToResponseDto (trackingPlan : LoadedTrackingPlan)
    : M TrackingPlanResponseDto :=
  events <-
    forEach (fun tpe =>
      event <- deref (lpe_event tpe) ;;
      props <-
        forEach (fun ep =>
          property <- deref (lep_property ep) ;;
          ret (property_ref property (EventProperty.required (lep_row ep))))
          (filter (fun ep => negb (EventProperty.is_deleted (lep_row ep)))
             (lpe_eventProperties tpe)) ;;
      ret (event_ref event (TrackingPlanEvent.additional_properties (lpe_row tpe)) props))
      (filter (fun tpe => negb (TrackingPlanEvent.is_deleted (lpe_row tpe)))
         (lp_trackingPlanEvents trackingPlan)) ;;
  ret (response (lp_row trackingPlan) events).

Definition getTrackingPlanById (id : Id)
    : M (ServiceResponse TrackingPlanResponseDto) :=
  tryCatch
    (trackingPlan <- TrackingPlanRepository.findWithEvents id ;;
     match trackingPlan with
     | None => throw (new_NotFoundError "TrackingPlan")
     | Some plan =>
         response <- mapToResponseDto plan ;;
         ret (Success response)
     end)
    (fun error => ret (failure "GET_TRACKING_PLAN_ERROR" error)).

(** The plans of the page are loaded one after the other. *)
Definition getAllTrackingPlans (filter : TrackingPlanRepository.TrackingPlanFilter)
    (pagination : PaginationOptions)
    : M (ServiceResponse (PaginatedResponse TrackingPlanResponseDto)) :=
  tryCatch
    (trackingPlans <- TrackingPlanRepository.findByFilter filter ;;
     let (paginatedPlans, info) := paginate trackingPlans pagination in
     plansWithEvents <-
       forEach (fun plan =>
         fullPlan <- TrackingPlanRepository.findWithEvents (TrackingPlan.id plan) ;;
         match fullPlan with
         | Some full => r <- mapToResponseDto full ;; ret (Some r)
         | None => ret None
         end) paginatedPlans ;;
     ret (Success
            (Build_PaginatedResponse
               (flat_map (fun o => match o with Some r => [r] | None => [] end)
                  plansWithEvents)
               info)))
    (fun error => ret (failure "GET_ALL_TRACKING_PLANS_ERROR" error)).

(** [updateData]: the name and the description that are given and not
    empty. *)
Definition patch_tracking_plan (data : UpdateTrackingPlanDto) (p : TrackingPlan.t)
    : TrackingPlan.t :=
  TrackingPlan.mk (TrackingPlan.id p)
    (if nonempty (utp_name data)
     then match utp_name data with Some n => n | None => TrackingPlan.name p end
     else TrackingPlan.name p)
    (if nonempty (utp_description data)
     then match utp_description data with
          | Some d => d
          | None => TrackingPlan.description p
          end
     else TrackingPlan.description p)
    (TrackingPlan.create_time p) (TrackingPlan.update_time p)
    (TrackingPlan.is_deleted p) (TrackingPlan.deleted_at p).

(** One round of the inner loop of [updateTrackingPlan]. *)
Definition update_property_link (trackingPlanEvent : TrackingPlanEvent.t)
    (propertyData : EventPropertyDto) : M unit :=
  property <- PropertyService.findOrCreateProperty
    {| cp_name := epd_name propertyData;
       cp_type := epd_type propertyData;
       cp_description := epd_description propertyData;
       cp_validation_rules := epd_validation_rules propertyData;
       cp_create_time := None |} ;;
  Repository.save Runner
    (new_event_property (TrackingPlanEvent.id trackingPlanEvent)
       (Property.id property) (epd_required propertyData)) ;;
  ret tt.

(** One round of the outer loop of [updateTrackingPlan]. *)
Definition update_event_link (id : Id) (eventData : TrackingPlanEventDto) : M unit :=
  event <- EventService.findOrCreateEvent
    {| ce_name := tpe_name eventData;
       ce_type := tpe_type eventData;
       ce_description := tpe_description eventData;
       ce_create_time := None |} ;;
  trackingPlanEvent <- Repository.save Runner
    (new_tracking_plan_event id (Event.id event) (tpe_additionalProperties eventData)) ;;
  forEach (update_property_link trackingPlanEvent) (tpe_properties eventData) ;;
  ret tt.

(** The [try] block of [updateTrackingPlan], up to the commit. *)
Definition updateTrackingPlan_write (id : Id) (data : UpdateTrackingPlanDto) : M unit :=
  existingPlan <- BaseRepository.findById id ;;
  match existingPlan with
  | None => throw (new_NotFoundError "TrackingPlan")
  | Some existing =>
      match utp_name data with
      | Some name =>
          if nonempty (utp_name data) && negb (name =? TrackingPlan.name existing)
          then
            conflictingPlan <- TrackingPlanRepository.findByNameExcludingId name id ;;
            match conflictingPlan with
            | Some _ => throw (new_UniqueConstraintError "TrackingPlan" name)
            | None => ret tt
            end
          else ret tt
      | None => ret tt
      end ;;
      (if nonempty (utp_name data) || nonempty (utp_description data)
       then BaseRepository.update id (patch_tracking_plan data) ;; ret tt
       else ret tt) ;;
      match utp_events data with
      | Some events =>
          d <- new_Date ;;
          Repository.update Runner
            (fun l => (TrackingPlanEvent.tracking_plan_id l =? id)%nat)
            (mark_deleted d) ;;
          forEach (update_event_link id) events ;;
          ret tt
      | None => ret tt
      end ;;
      QueryRunner.commitTransaction
  end.

(** The whole [try] block: the writes, the commit, and the reload of the plan
    for the response. *)
Definition updateTrackingPlan_try (id : Id) (data : UpdateTrackingPlanDto)
    : M (ServiceResponse TrackingPlanResponseDto) :=
  updateTrackingPlan_write id data ;;
  updatedPlan <- TrackingPlanRepository.findWithEvents id ;;
  plan <- deref updatedPlan ;;
  response <- mapToResponseDto plan ;;
  ret (Success response).

Definition updateTrackingPlan (id : Id) (data : UpdateTrackingPlanDto)
    : M (ServiceResponse TrackingPlanResponseDto) :=
  QueryRunner.createQueryRunner ;;
  QueryRunner.connect ;;
  QueryRunner.startTransaction ;;
  tryCatchFinally
    (updateTrackingPlan_try id data)
    (fun error =>
       QueryRunner.rollbackTransaction ;;
       ret (failure "UPDATE_TRACKING_PLAN_ERROR" error))
    QueryRunner.release.

Definition deleteTrackingPlan (id : Id) : M (ServiceResponse unit) :=
  tryCatch
    (trackingPlan <- BaseRepository.findById (T := TrackingPlan.t) id ;;
     match trackingPlan with
     | None => throw (new_NotFoundError "TrackingPlan")
     | Some _ =>
         BaseRepository.softDelete (T := TrackingPlan.t) id ;;
         ret (Success tt)
     end)
    (fun error => ret (failure "DELETE_TRACKING_PLAN_ERROR" error)).

End TrackingPlanService.

(* ===================================================================== *)
(** ** The HTTP boundary: controller and error handler *)
(* ===================================================================== *)

(** [haystack.includes(needle)] *)
Fixpoint includes (haystack needle : string) : bool :=
  prefix needle haystack ||
  match haystack with
  | EmptyString => false
  | String _ rest => includes rest needle
  end.

Record HttpResponse : Type := {
  status : nat;
  body_success : bool;
  body_error : option ApiError;
  body_data : option TrackingPlanResponseDto
}.

Definition error_response (status_ : nat) (code_ message_ : string) : HttpResponse :=
  {| status := status_;
     body_success := false;
     body_error := Some {| code := code_; err_message := message_ |};
     body_data := None |}.

Definition errorHandler (error : Error) : HttpResponse :=
  if instanceof_AppError error
  then error_response (statusCode error) (constructor_name error) (message error)
  else if constructor_name error =? "QueryFailedError"
  then error_response 400 "DATABASE_ERROR" "Database query failed"
  else if includes (message error) "duplicate key value"
          || includes (message error) "UNIQUE constraint"
  then error_response 409 "UNIQUE_CONSTRAINT_ERROR" "Resource already exists"
  else error_response 500 "INTERNAL_SERVER_ERROR" "An unexpected error occurred".

(** [asyncHandler(fn)]: a rejection of the handler goes to [errorHandler]. *)
Definition asyncHandler (fn : M HttpResponse) : M HttpResponse :=
  tryCatch fn (fun error => ret (errorHandler error)).

Module TrackingPlanController.

Definition createTrackingPlan (body : CreateTrackingPlanDto) : M HttpResponse :=
  asyncHandler
    (result <- TrackingPlanService.createTrackingPlan body ;;
     match result with
     | Failure error => throw (new_AppError (err_message error) 400)
     | Success data =>
         ret {| status := 201;
                body_success := true;
                body_error := None;
                body_data := Some data |}
     end).

Definition getTrackingPlanById (id : Id) : M HttpResponse :=
  asyncHandler
    (result <- TrackingPlanService.getTrackingPlanById id ;;
     match result with
     | Failure error => throw (new_AppError (err_message error) 404)
     | Success data =>
         ret {| status := 200;
                body_success := true;
                body_error := None;
                body_data := Some data |}
     end).

Definition updateTrackingPlan (id : Id) (body : UpdateTrackingPlanDto)
    : M HttpResponse :=
  asyncHandler
    (result <- TrackingPlanService.updateTrackingPlan id body ;;
     match result with
     | Failure error =>
         let statusCode :=
           if includes (err_message error) "not found" then 404 else 400 in
         throw (new_AppError (err_message error) statusCode)
     | Success data =>
         ret {| status := 200;
                body_success := true;
                body_error := None;
                body_data := Some data |}
     end).

End TrackingPlanController.

(* ===================================================================== *)
(** ** Vocabulary of the statements *)
(* ===================================================================== *)

(** The non-deleted row that the identity lookup of an event finds. *)
Definition stored_event (s : Store) (name : string) (type : EventType)
    : option Event.t :=
  find (fun e =>
    (Event.name e =? name) && EventType_eqb (Event.type e) type
    && negb (Event.is_deleted e)) (events s).

(** The non-deleted row that the identity lookup of a property finds. *)
Definition stored_property (s : Store) (name : string) (type : PropertyType)
    : option Property.t :=
  find (fun p =>
    (Property.name p =? name) && PropertyType_eqb (Property.type p) type
    && negb (Property.is_deleted p)) (properties s).

(** The message contains the text. *)
Definition mentions (msg part : string) : Prop :=
  exists before after, msg = before ++ part ++ after.

(** No call of the kind fails, whenever it is made. *)
Definition reliable (w : World) (op : Op) : Prop :=
  forall n, fault w n op = None.

(** *** A small world to run the services in *)

Definition empty_store : Store := mkStore [] [] [] [] [] 1.

(** A stand-in for the regular-expression compiler: it refuses a pattern
    with an opening parenthesis that is never closed. *)
Fixpoint balanced (depth : nat) (s : string) : bool :=
  match s with
  | EmptyString => (depth =? 0)%nat
  | String c rest =>
      if (c =? "(")%char then balanced (S depth) rest
      else if (c =? ")")%char
      then match depth with
           | O => false
           | S d => balanced d rest
           end
      else balanced depth rest
  end.

Definition sample_regexp_compiles (v : JsVal) : bool :=
  match v with
  | JStr s => balanced 0 s
  | _ => true
  end.

(** A world in which no call fails. *)
Definition quiet (s : Store) : World :=
  {| db := s;
     tx := None;
     fault := fun _ _ => None;
     clock := 0;
     now := 100;
     regexp_compiles := sample_regexp_compiles;
     ilike := fun pattern value => includes value pattern;
     scan_rank := fun _ id => id |}.

(** A world in which exactly the [n]-th call fails, if it is an [op]. *)
Definition failing_at (n : nat) (op : Op) (msg : string) (s : Store) : World :=
  {| db := s;
     tx := None;
     fault := fun k o =>
       if (k =? n)%nat
       then match o, op with
            | OpConnect, OpConnect | OpStartTransaction, OpStartTransaction
            | OpCommit, OpCommit | OpRollback, OpRollback
            | OpRelease, OpRelease | OpQuery, OpQuery => Some msg
            | _, _ => None
            end
       else None;
     clock := 0;
     now := 100;
     regexp_compiles := sample_regexp_compiles;
     ilike := fun pattern value => includes value pattern;
     scan_rank := fun _ id => id |}.

Definition login_A : Event.t :=
  Event.mk 1 "Login" TRACK "A" 50 50 false None.

Definition store_with_login : Store :=
  mkStore [] [login_A] [] [] [] 2.

Definition plan_with_login_B : CreateTrackingPlanDto :=
  {| ctp_name := "Onboarding";
     ctp_description := "Sign-up funnel";
     ctp_events :=
       [ {| tpe_name := "Login";
            tpe_type := TRACK;
            tpe_description := "B";
            tpe_properties := [];
            tpe_additionalProperties := false |} ];
     ctp_create_time := None |}.

Definition product_id_ref (required : bool) : EventPropertyDto :=
  {| epd_name := "product_id";
     epd_type := STRING;
     epd_required := required;
     epd_description := "Product identifier";
     epd_validation_rules := None |}.

Definition ecommerce_plan : CreateTrackingPlanDto :=
  {| ctp_name := "E-commerce Flow";
     ctp_description := "Shopping cart and checkout tracking";
     ctp_events :=
       [ {| tpe_name := "add_to_cart";
            tpe_type := TRACK;
            tpe_description := "Item added to cart";
            tpe_properties := [product_id_ref true];
            tpe_additionalProperties := false |};
         {| tpe_name := "checkout_started";
            tpe_type := TRACK;
            tpe_description := "User began checkout";
            tpe_properties := [product_id_ref false];
            tpe_additionalProperties := true |} ];
     ctp_create_time := None |}.

Definition property_row (id : Id) (name : string) (rules : JsVal) : Property.t :=
  Property.mk id name STRING "Subscription tier" rules 50 50 false None.

Definition property_candidate (name : string) (type : PropertyType)
    (rules : option JsVal) : CreatePropertyDto :=
  {| cp_name := name;
     cp_type := type;
     cp_description := "Subscription tier";
     cp_validation_rules := rules;
     cp_create_time := None |}.

Definition store_with_property (rules : JsVal) : Store :=
  mkStore [] [] [property_row 1 "tier" rules] [] [] 2.

Definition min_then_max : JsVal := JObj [("min", JNum 1); ("max", JNum 2)].
Definition max_then_min : JsVal := JObj [("max", JNum 2); ("min", JNum 1)].

(** The value is there and truthy, and it is not a number. *)
Definition truthy_not_number (v : option JsVal) : Prop :=
  truthy v = true /\ typeof v <> "number".

Definition empty_min : JsVal := JObj [("min", JStr "")].

(** The non-deleted plan that [findById] finds. *)
Definition stored_plan (s : Store) (id : Id) : option TrackingPlan.t :=
  find (fun p => (TrackingPlan.id p =? id)%nat && negb (TrackingPlan.is_deleted p))
    (tracking_plans s).

(** The plan row after its soft delete at the date [d]: the flag, the date
    of deletion, and the update stamp of the row. *)
Definition soft_deleted (d : Date) (p : TrackingPlan.t) : TrackingPlan.t :=
  TrackingPlan.mk (TrackingPlan.id p) (TrackingPlan.name p)
    (TrackingPlan.description p) (TrackingPlan.create_time p) d true (Some d).

(** The two properties have the same identity: name and type.  This is the
    key of the unique index of the table. *)
Definition same_identity (a b : Property.t) : bool :=
  (Property.name a =? Property.name b)
  && PropertyType_eqb (Property.type a) (Property.type b).

(** Each of the added rows has an identity that no row before it has,
    neither in the old table nor among the rows added earlier. *)
Fixpoint fresh_keys (old added : list Property.t) : Prop :=
  match added with
  | [] => True
  | x :: rest =>
      existsb (same_identity x) old = false /\ fresh_keys (old ++ [x])%list rest
  end.

(** What the steps of the two loops of the orchestrator do to the world:
    nothing outside the program changes, an open transaction stays open, the
    link tables only get new, non-deleted rows at their end, and so does the
    table of properties, for the runner and for the pool alike, each new
    property with a fresh identity. *)
Record grows (w w' : World) : Prop := {
  grows_fault : fault w' = fault w;
  grows_now : now w' = now w;
  grows_tx : tx w <> None -> tx w' <> None;
  grows_links :
    exists added,
      tracking_plan_events (db w') = (tracking_plan_events (db w) ++ added)%list
      /\ Forall (fun l => TrackingPlanEvent.is_deleted l = false) added;
  grows_property_links :
    exists added, event_properties (db w') = (event_properties (db w) ++ added)%list;
  grows_properties :
    exists added,
      properties (db w') = (properties (db w) ++ added)%list
      /\ properties (view Pool w') = (properties (view Pool w) ++ added)%list
      /\ fresh_keys (properties (view Pool w)) added
}.

(** Every run of the computation relates the world before to the world
    after. *)
Definition preserves {A} (R : World -> World -> Prop) (m : M A) : Prop :=
  forall w r w', m w = (r, w') -> R w w'.

(** The world in which the [try] block of [createTrackingPlan] and of
    [updateTrackingPlan] starts, when the connection and the start of the
    transaction went through: a fresh runner, two calls made, and the
    transaction opened on the committed state. *)
Definition opened (w : World) : World :=
  set_tx (Some (view Pool w)) (tick (tick (set_tx None (set_db (view Pool w) w)))).

(** The [finally] block after the result [r] is known. *)
Definition released {A} (r : Outcome A) (w : World) : Outcome A * World :=
  match fault w (clock w) OpRelease with
  | Some msg => (Throw (storage_failure msg), tick w)
  | None => (r, tick w)
  end.

(** The [catch] block of the two transactional methods, followed by the
    [finally] block. *)
Definition rolled_back {A} (code_ : string) (e : Error) (w : World)
    : Outcome (ServiceResponse A) * World :=
  match tx w with
  | None => released (Throw transaction_not_started) w
  | Some committed =>
      match fault w (clock w) OpRollback with
      | Some msg => released (Throw (storage_failure msg)) (tick w)
      | None => released (Ok (failure code_ e)) (set_tx None (set_db committed (tick w)))
      end
  end.

Definition signup_then_login_B : CreateTrackingPlanDto :=
  {| ctp_name := "Onboarding";
     ctp_description := "Sign-up funnel";
     ctp_events :=
       [ {| tpe_name := "Signup";
            tpe_type := TRACK;
            tpe_description := "Account created";
            tpe_properties :=
              [ {| epd_name := "email";
                   epd_type := STRING;
                   epd_required := true;
                   epd_description := "User email address";
                   epd_validation_rules := None |} ];
            tpe_additionalProperties := false |};
         {| tpe_name := "Login";
            tpe_type := TRACK;
            tpe_description := "B";
            tpe_properties := [];
            tpe_additionalProperties := false |} ];
     ctp_create_time := None |}.

(** A store whose only plan, "Onboarding", is soft-deleted. *)
Definition store_with_deleted_plan : Store :=
  mkStore [TrackingPlan.mk 1 "Onboarding" "Retired funnel" 50 60 true (Some 60)]
    [] [] [] [] 2.

(** The answer is classified as a conflict: status 409. *)
Definition classified_as_conflict (r : HttpResponse) : Prop := status r = 409.



Definition catalog_store : Store :=
  mkStore
    [TrackingPlan.mk 1 "Checkout" "Purchase funnel" 50 50 false None;
     TrackingPlan.mk 6 "Browse" "Catalog browsing" 50 50 false None]
    [Event.mk 2 "purchase" TRACK "Order placed" 50 50 false None]
    [Property.mk 3 "amount" NUMBER "Order total" JNull 50 50 false None]
    [TrackingPlanEvent.mk 4 1 2 false 50 false None]
    [EventProperty.mk 5 4 3 true 50 false None]
    7.

Definition refund_events : list TrackingPlanEventDto :=
  [ {| tpe_name := "refund";
       tpe_type := TRACK;
       tpe_description := "Order refunded";
       tpe_properties :=
         [ {| epd_name := "amount";
              epd_type := NUMBER;
              epd_required := false;
              epd_description := "Order total";
              epd_validation_rules := None |} ];
       tpe_additionalProperties := false |} ].

Definition relink_checkout : UpdateTrackingPlanDto :=
  {| utp_name := None; utp_description := None; utp_events := Some refund_events |}.



(** The four calls of the query runner that stand outside the [try] block,
    or in its [catch] and [finally] blocks, never fail. *)
Definition runner_answers (w : World) : Prop :=
  reliable w OpConnect /\ reliable w OpStartTransaction
  /\ reliable w OpRollback /\ reliable w OpRelease.




(** Some row of the table of events, deleted or not, has the name and the
    type: the key of the unique index is taken. *)
Definition event_key_taken (s : Store) (name : string) (type : EventType) : bool :=
  existsb (fun e => (name =? Event.name e) && EventType_eqb type (Event.type e))
    (events s).

(** Every row of the table of events that the pool sees has an id below the
    next id the store hands out. *)
Definition event_ids_issued (w : World) : Prop :=
  Forall (fun e => Event.id e < next_id (db w)) (events (view Pool w)).

Definition login_candidate (description : string) : CreateEventDto :=
  {| ce_name := "Login"; ce_type := TRACK; ce_description := description;
     ce_create_time := None |}.

(** A store whose only event, "Login" of type "track", is soft-deleted. *)
Definition store_with_deleted_login : Store :=
  mkStore [] [Event.mk 1 "Login" TRACK "A" 50 60 true (Some 60)] [] [] [] 2.

(** The items of page [p] when the pages have [size] items. *)
Definition page_items {A} (xs : list A) (size p : Z) : list A :=
  fst (paginate xs {| page := Some p; limit := Some size |}).

(** The number of pages that [paginate] reports for pages of [size] items. *)
Definition page_count {A} (xs : list A) (size : Z) : option Z :=
  pg_pages (snd (paginate xs {| page := None; limit := Some size |})).

(** The items of the pages 1 to [n], one page after the other. *)
Fixpoint pages_upto {A} (xs : list A) (size : Z) (n : nat) : list A :=
  match n with
  | O => []
  | S k => pages_upto xs size k ++ page_items xs size (Z.of_nat (S k))
  end.

(** The non-deleted plan that [findByName] finds. *)
Definition plan_named (s : Store) (name : string) : option TrackingPlan.t :=
  find (fun p => (TrackingPlan.name p =? name) && negb (TrackingPlan.is_deleted p))
    (tracking_plans s).

(** Some row of the table of plans, deleted or not, has the name. *)
Definition plan_name_taken (s : Store) (name : string) : bool :=
  existsb (fun p => name =? TrackingPlan.name p) (tracking_plans s).

(** The reference of the response repeats the property definition of the
    request; the rules up to their serialisation. *)
Definition echoes_property (d : EventPropertyDto) (ref : PropertyRef) : Prop :=
  pr_name ref = epd_name d
  /\ pr_type ref = epd_type d
  /\ pr_description ref = epd_description d
  /\ pr_required ref = epd_required d
  /\ JSON_stringify (or_null (pr_validation_rules ref))
     = JSON_stringify (or_null (epd_validation_rules d)).

(** The event of the response repeats the event of the request, and its
    properties one by one. *)
Definition echoes_event (e : TrackingPlanEventDto) (er : EventRef) : Prop :=
  er_name er = tpe_name e
  /\ er_type er = tpe_type e
  /\ er_description er = tpe_description e
  /\ er_additionalProperties er = tpe_additionalProperties e
  /\ Forall2 echoes_property (tpe_properties e) (er_properties er).

(** The non-deleted links of a plan to its events, in the order of the
    table. *)
Definition live_links (s : Store) (plan_id : Id) : list TrackingPlanEvent.t :=
  filter (fun l =>
    (TrackingPlanEvent.tracking_plan_id l =? plan_id)%nat
    && negb (TrackingPlanEvent.is_deleted l)) (tracking_plan_events s).

(** The non-deleted links of a plan-event link to its properties. *)
Definition live_property_links (s : Store) (link_id : Id) : list EventProperty.t :=
  filter (fun ep =>
    (EventProperty.tracking_plan_event_id ep =? link_id)%nat
    && negb (EventProperty.is_deleted ep)) (event_properties s).

Definition lists_property_link (ep : EventProperty.t) (ref : PropertyRef) : Prop :=
  pr_id ref = EventProperty.property_id ep
  /\ pr_required ref = EventProperty.required ep.

(** The event of a response stands for the link: its event, its flag, and
    one property for each non-deleted property link, in some order. *)
Definition lists_link (s : Store) (l : TrackingPlanEvent.t) (er : EventRef) : Prop :=
  er_id er = TrackingPlanEvent.event_id l
  /\ er_additionalProperties er = TrackingPlanEvent.additional_properties l
  /\ exists property_links,
       Permutation property_links (live_property_links s (TrackingPlanEvent.id l))
       /\ Forall2 lists_property_link property_links (er_properties er).

(** A world in which the scans return the rows of a join last row first. *)
Definition backwards (s : Store) : World :=
  {| db := s;
     tx := None;
     fault := fun _ _ => None;
     clock := 0;
     now := 100;
     regexp_compiles := sample_regexp_compiles;
     ilike := fun pattern value => includes value pattern;
     scan_rank := fun _ id => 1000 - id |}.

(** A plan with two events, the first with two properties. *)
Definition two_event_store : Store :=
  mkStore
    [TrackingPlan.mk 1 "Checkout" "Purchase funnel" 50 50 false None]
    [Event.mk 2 "purchase" TRACK "Order placed" 50 50 false None;
     Event.mk 3 "refund" TRACK "Order refunded" 50 50 false None]
    [Property.mk 4 "amount" NUMBER "Order total" JNull 50 50 false None;
     Property.mk 5 "currency" STRING "Currency code" JNull 50 50 false None]
    [TrackingPlanEvent.mk 6 1 2 false 50 false None;
     TrackingPlanEvent.mk 7 1 3 true 50 false None]
    [EventProperty.mk 8 6 4 true 50 false None;
     EventProperty.mk 9 6 5 false 50 false None]
    10.

(** A catalog with a soft-deleted event and property beside the live ones. *)
Definition archive_store : Store :=
  mkStore []
    [Event.mk 1 "Login" TRACK "Old sign-in" 50 60 true (Some 60);
     Event.mk 2 "Login" PAGE "Sign-in page" 50 50 false None;
     Event.mk 3 "Logout" TRACK "Sign-out" 50 50 false None]
    [Property.mk 4 "tier" STRING "Old tier" JNull 50 60 true (Some 60);
     Property.mk 5 "plan" STRING "Subscription plan" JNull 50 50 false None]
    [] [] 6.

Definition first_page : PaginationOptions := {| page := None; limit := None |}.

(** A non-deleted row of the table of events, and of properties. *)
Definition live_event (s : Store) (e : Event.t) : Prop :=
  In e (events s) /\ Event.is_deleted e = false.

Definition live_property (s : Store) (p : Property.t) : Prop :=
  In p (properties s) /\ Property.is_deleted p = false.

(** Every table of [s'] is the table of [s] followed by more rows. *)
Definition extends (s s' : Store) : Prop :=
  (exists added, tracking_plans s' = (tracking_plans s ++ added)%list)
  /\ (exists added, events s' = (events s ++ added)%list)
  /\ (exists added, properties s' = (properties s ++ added)%list)
  /\ (exists added, tracking_plan_events s' = (tracking_plan_events s ++ added)%list)
  /\ (exists added, event_properties s' = (event_properties s ++ added)%list).

(** The committed image of an open transaction only gets rows too; a
    transaction that has ended stays ended. *)
Definition image_extends (o o' : option Store) : Prop :=
  match o, o' with
  | Some c, Some c' => extends c c'
  | _, None => True
  | None, Some _ => False
  end.

Record appends (w w' : World) : Prop := {
  appends_db : extends (db w) (db w');
  appends_tx : image_extends (tx w) (tx w')
}.

Definition any_event : EventRepository.EventFilter :=
  {| EventRepository.name := None; EventRepository.type := None;
     EventRepository.description := None |}.

Definition any_property : PropertyRepository.PropertyFilter :=
  {| PropertyRepository.name := None; PropertyRepository.type := None;
     PropertyRepository.description := None |}.

(** A quiet world whose ILIKE matches every value. *)
Definition matching (s : Store) : World :=
  {| db := s;
     tx := None;
     fault := fun _ _ => None;
     clock := 0;
     now := 100;
     regexp_compiles := sample_regexp_compiles;
     ilike := fun _ _ => true;
     scan_rank := fun _ id => id |}.

(** The non-deleted event that [findById] finds. *)
Definition event_with_id (s : Store) (id : Id) : option Event.t :=
  find (fun e => (Event.id e =? id)%nat && negb (Event.is_deleted e)) (events s).

Definition rename_event (name : string) : UpdateEventDto :=
  {| ue_name := Some name; ue_type := None; ue_description := None |}.

Definition invalid_min : JsVal := JObj [("min", JStr "invalid")].

(** The non-deleted plans that pass the filter, in the order of the table. *)
Definition matching_plans (w : World) (flt : TrackingPlanRepository.TrackingPlanFilter)
    : list TrackingPlan.t :=
  filter (fun p =>
    negb (TrackingPlan.is_deleted p)
    && ilike_filter w (TrackingPlanRepository.name flt) (TrackingPlan.name p)
    && ilike_filter w (TrackingPlanRepository.description flt)
         (TrackingPlan.description p))
    (tracking_plans (view Pool w)).

Definition any_plan : TrackingPlanRepository.TrackingPlanFilter :=
  {| TrackingPlanRepository.name := None;
     TrackingPlanRepository.description := None |}.

(** A plan whose two events both reference the property "tier" with the
    given rule set. *)
Definition tier_ref (rules : JsVal) : EventPropertyDto :=
  {| epd_name := "tier";
     epd_type := STRING;
     epd_required := true;
     epd_description := "Subscription tier";
     epd_validation_rules := Some rules |}.

Definition shared_tier_plan (rules : JsVal) : CreateTrackingPlanDto :=
  {| ctp_name := "Subscriptions";
     ctp_description := "Upgrade funnel";
     ctp_events :=
       [ {| tpe_name := "plan_viewed";
            tpe_type := TRACK;
            tpe_description := "Pricing page opened";
            tpe_properties := [tier_ref rules];
            tpe_additionalProperties := false |};
         {| tpe_name := "plan_upgraded";
            tpe_type := TRACK;
            tpe_description := "Subscription upgraded";
            tpe_properties := [tier_ref rules];
            tpe_additionalProperties := false |} ];
     ctp_create_time := None |}.

(** What the other connections see of the two link tables stays as it is
    while the transaction of the runner is open; a transaction that has ended
    stays ended. *)
Definition image_links_kept (w w' : World) : Prop :=
  match tx w, tx w' with
  | Some c, Some c' =>
      tracking_plan_events c' = tracking_plan_events c
      /\ event_properties c' = event_properties c
  | _, None => True
  | None, Some _ => False
  end.







(* ===================================================================== *)
(** ** Calls that leave the program *)
(* ===================================================================== *)

Lemma external_runs {A} (op : Op) (run : M A) (w : World) :
  fault w (clock w) op = None -> external op run w = run (tick w).
Proof. intros H. unfold external. now rewrite H. Qed.

Lemma external_fails {A} (op : Op) (run : M A) (w : World) (msg : string) :
  fault w (clock w) op = Some msg ->
  external op run w = (Throw (storage_failure msg), tick w).
Proof. intros H. unfold external. now rewrite H. Qed.

Lemma view_tick (c : Conn) (w : World) : view c (tick w) = view c w.
Proof. now destruct c. Qed.

Lemma view_write_pool (f : Store -> Store) (w : World) :
  view Pool (write Pool f w) = f (view Pool w).
Proof. unfold view, write. cbn. now destruct (tx w). Qed.

Lemma findOne_runs {T} `{Entity T} (c : Conn) (p : T -> bool) (w : World) :
  fault w (clock w) OpQuery = None ->
  Repository.findOne c p w = (Ok (find p (table (view c w))), tick w).
Proof.
  intros Hq. unfold Repository.findOne.
  rewrite external_runs by assumption. now rewrite view_tick.
Qed.

Lemma event_lookup_runs (name : string) (type : EventType) (w : World) :
  fault w (clock w) OpQuery = None ->
  EventRepository.findByNameAndType name type w
  = (Ok (stored_event (view Pool w) name type), tick w).
Proof. intros Hq. unfold EventRepository.findByNameAndType. now rewrite findOne_runs. Qed.

Lemma property_lookup_runs (name : string) (type : PropertyType) (w : World) :
  fault w (clock w) OpQuery = None ->
  PropertyRepository.findByNameAndType name type w
  = (Ok (stored_property (view Pool w) name type), tick w).
Proof.
  intros Hq. unfold PropertyRepository.findByNameAndType. now rewrite findOne_runs.
Qed.

Lemma mentions_intro (before part after : string) :
  mentions (before ++ part ++ after) part.
Proof. now exists before, after. Qed.

Lemma append_assoc (a b c : string) : (a ++ b) ++ c = a ++ b ++ c.
Proof. induction a as [|x a IH]; simpl; [reflexivity | now rewrite IH]. Qed.

(* ===================================================================== *)
(** ** The identity resolver of events *)
(* ===================================================================== *)

(** C5.  When the lookup finds a stored, non-deleted event with the name and
    type of the candidate: if the descriptions are the same string, the
    stored row is returned and the database is as before; if they differ, a
    ConflictError is thrown whose message contains the name, the type and
    "different description", and again the database is as before. *)
Theorem findOrCreateEvent_existing :
  forall (data : CreateEventDto) (w : World) (existing : Event.t),
    fault w (clock w) OpQuery = None ->
    stored_event (view Pool w) (ce_name data) (ce_type data) = Some existing ->
    exists w',
      db w' = db w /\ tx w' = tx w /\
      (Event.description existing = ce_description data ->
         EventService.findOrCreateEvent data w = (Ok existing, w')) /\
      (Event.description existing <> ce_description data ->
         exists msg,
           EventService.findOrCreateEvent data w = (Throw (new_ConflictError msg), w')
           /\ mentions msg (ce_name data)
           /\ mentions msg (EventType_value (ce_type data))
           /\ mentions msg "different description").
Proof.
  intros data w existing Hq Hfound.
  exists (tick w). split; [reflexivity|]. split; [reflexivity|].
  unfold EventService.findOrCreateEvent, bind.
  rewrite event_lookup_runs, Hfound by assumption.
  split; intros Hd.
  - rewrite Hd, String.eqb_refl. reflexivity.
  - apply String.eqb_neq in Hd. rewrite Hd. cbn [negb].
    eexists. split; [reflexivity|].
    split; [|split].
    + apply mentions_intro.
    + exists ("Event '" ++ ce_name data ++ "' of type '"),
        "' already exists with different description".
      now rewrite !append_assoc.
    + exists ("Event '" ++ ce_name data ++ "' of type '"
              ++ EventType_value (ce_type data) ++ "' already exists with "), "".
      now rewrite !append_assoc.
Qed.

Lemma findOrCreateEvent_existing_witness :
  (exists w',
      EventService.findOrCreateEvent
        {| ce_name := "Login"; ce_type := TRACK; ce_description := "A";
           ce_create_time := None |} (quiet store_with_login) = (Ok login_A, w')
      /\ db w' = store_with_login)
  /\ (exists w' msg,
        EventService.findOrCreateEvent
          {| ce_name := "Login"; ce_type := TRACK; ce_description := "B";
             ce_create_time := None |} (quiet store_with_login)
        = (Throw (new_ConflictError msg), w')
        /\ mentions msg "Login" /\ mentions msg "track"
        /\ mentions msg "different description"
        /\ db w' = store_with_login).
Proof.
  split.
  - destruct (findOrCreateEvent_existing
                {| ce_name := "Login"; ce_type := TRACK; ce_description := "A";
                   ce_create_time := None |} (quiet store_with_login) login_A)
      as [w' [Hdb [_ [Hsame _]]]]; [reflexivity | reflexivity |].
    exists w'. split; [apply Hsame; reflexivity | exact Hdb].
  - destruct (findOrCreateEvent_existing
                {| ce_name := "Login"; ce_type := TRACK; ce_description := "B";
                   ce_create_time := None |} (quiet store_with_login) login_A)
      as [w' [Hdb [_ [_ Hdiff]]]]; [reflexivity | reflexivity |].
    destruct Hdiff as [msg [Hrun [Hn [Ht Hd]]]]; [discriminate|].
    exists w', msg. repeat split; assumption.
Defined.

(* ===================================================================== *)
(** ** The conflict comparator of properties *)
(* ===================================================================== *)

Lemma findOrCreateProperty_found (data : CreatePropertyDto) (w : World)
    (existing : Property.t) :
  fault w (clock w) OpQuery = None ->
  stored_property (view Pool w) (cp_name data) (cp_type data) = Some existing ->
  Property.description existing = cp_description data ->
  PropertyService.findOrCreateProperty data w =
    if JSON_stringify (or_null (Some (Property.validation_rules existing)))
       =? JSON_stringify (or_null (cp_validation_rules data))
    then (Ok existing, tick w)
    else (Throw (new_ConflictError
                   ("Property '" ++ cp_name data ++ "' of type '"
                    ++ PropertyType_value (cp_type data)
                    ++ "' already exists with different validation rules")),
          tick w).
Proof.
  intros Hq Hfound Hd.
  unfold PropertyService.findOrCreateProperty, bind.
  rewrite property_lookup_runs, Hfound by assumption.
  rewrite Hd, String.eqb_refl. cbn [negb].
  now destruct (_ =? _).
Qed.

(** C3, as the code has it.  A candidate that gives no validation rules
    reuses the stored, non-deleted property of the same name and type and the
    same description whose stored rule set is null: the stored row is
    returned, nothing is thrown, and the database is as before. *)
Theorem findOrCreateProperty_absent_rules_reuse_null :
  forall (data : CreatePropertyDto) (w : World) (existing : Property.t),
    fault w (clock w) OpQuery = None ->
    stored_property (view Pool w) (cp_name data) (cp_type data) = Some existing ->
    Property.description existing = cp_description data ->
    cp_validation_rules data = None ->
    Property.validation_rules existing = JNull ->
    exists w',
      PropertyService.findOrCreateProperty data w = (Ok existing, w')
      /\ db w' = db w /\ tx w' = tx w.
Proof.
  intros data w existing Hq Hfound Hd Hnone Hnull.
  exists (tick w).
  rewrite (findOrCreateProperty_found data w existing) by assumption.
  rewrite Hnone, Hnull. cbn. repeat split.
Qed.

Lemma findOrCreateProperty_absent_rules_reuse_null_witness :
  exists w',
    PropertyService.findOrCreateProperty (property_candidate "tier" STRING None)
      (quiet (store_with_property JNull))
    = (Ok (property_row 1 "tier" JNull), w')
    /\ db w' = db (quiet (store_with_property JNull))
    /\ tx w' = tx (quiet (store_with_property JNull)).
Proof.
  apply (findOrCreateProperty_absent_rules_reuse_null
           (property_candidate "tier" STRING None)
           (quiet (store_with_property JNull))
           (property_row 1 "tier" JNull)); reflexivity.
Defined.

(** C3 fails for a stored rule set that is empty: the stored property has
    the rule set [{}], the candidate has the same name, type and description
    and gives no rules, and the resolver throws the conflict on the
    validation rules. *)
Lemma findOrCreateProperty_absent_rules_conflict_with_empty :
  stored_property (view Pool (quiet (store_with_property (JObj []))))
    "tier" STRING = Some (property_row 1 "tier" (JObj []))
  /\ Property.description (property_row 1 "tier" (JObj []))
     = cp_description (property_candidate "tier" STRING None)
  /\ cp_validation_rules (property_candidate "tier" STRING None) = None
  /\ fst (PropertyService.findOrCreateProperty
            (property_candidate "tier" STRING None)
            (quiet (store_with_property (JObj []))))
     = Throw (new_ConflictError
                "Property 'tier' of type 'string' already exists with different validation rules").
Proof. repeat split. Qed.

(** C4, at an input where the code departs from it.  A property "tier" is
    created with the rule set [{min: 1, max: 2}].  The [jsonb] column returns
    it as [{max: 2, min: 1}].  The very same candidate, submitted again, is
    then compared with the stored row by serialisation and the resolver
    throws the conflict on the validation rules; the candidate that lists the
    same keys and values as [{max: 2, min: 1}] is reused.  So the order of the
    keys decides, and a rule set does not even equal itself once stored. *)
Theorem findOrCreateProperty_identical_rules_conflict :
  exists p w1,
    PropertyService.findOrCreateProperty
      (property_candidate "tier" STRING (Some min_then_max)) (quiet empty_store)
    = (Ok p, w1)
    /\ Property.validation_rules p = min_then_max
    /\ map Property.validation_rules (properties (db w1)) = [max_then_min]
    /\ fst (PropertyService.findOrCreateProperty
              (property_candidate "tier" STRING (Some min_then_max)) w1)
       = Throw (new_ConflictError
                  "Property 'tier' of type 'string' already exists with different validation rules")
    /\ (exists q,
           fst (PropertyService.findOrCreateProperty
                  (property_candidate "tier" STRING (Some max_then_min)) w1)
           = Ok q
           /\ Property.id q = Property.id p)
    /\ forall k, get min_then_max k = get max_then_min k.
Proof.
  eexists. eexists. split; [vm_compute; reflexivity|].
  split; [reflexivity|]. split; [reflexivity|]. split; [reflexivity|].
  split; [eexists; split; [vm_compute; reflexivity | reflexivity]|].
  intros k. unfold get, min_then_max, max_then_min, assoc.
  destruct ("min" =? k) eqn:Hmin, ("max" =? k) eqn:Hmax; try reflexivity.
  apply String.eqb_eq in Hmin. apply String.eqb_eq in Hmax. congruence.
Qed.

(* ===================================================================== *)
(** ** Validation of a rule set *)
(* ===================================================================== *)

Lemma not_a_number_true (v : option JsVal) :
  truthy_not_number v -> PropertyService.not_a "number" v = true.
Proof.
  intros [Ht Hn]. unfold PropertyService.not_a. rewrite Ht.
  apply String.eqb_neq in Hn. now rewrite Hn.
Qed.

Lemma falsy_has_no_property (rules : JsVal) (k : string) :
  truthy (Some rules) = false -> get rules k = None.
Proof. destruct rules; cbn; intros H; try reflexivity; discriminate. Qed.

Ltac split_conditions :=
  repeat match goal with
         | |- context [if ?b then _ else _] => destruct b eqn:?
         end.

Lemma validatePropertyRules_rejects (rules : JsVal) (type : PropertyType) (w : World) :
  (forall v, truthy (Some v) = false -> regexp_compiles w v = true) ->
  ((type = STRING \/ type = NUMBER)
   /\ (truthy_not_number (get rules "min") \/ truthy_not_number (get rules "max"))
   \/ exists regex, get rules "regex" = Some regex /\ regexp_compiles w regex = false) ->
  exists msg,
    PropertyService.validatePropertyRules rules type w
    = (Throw (new_ValidationError msg), w).
Proof.
  intros Hfalsy Hbad.
  unfold PropertyService.validatePropertyRules, PropertyService.reject_if, bind, throw, ret.
  destruct Hbad as [[Htype Hnum] | [regex [Hget Hno]]].
  - assert (Hor : PropertyService.not_a "number" (get rules "min") = true
                  \/ PropertyService.not_a "number" (get rules "max") = true)
      by (destruct Hnum; [left | right]; now apply not_a_number_true).
    destruct Htype; subst type;
      destruct (PropertyService.not_a "number" (get rules "min")) eqn:Hmin;
      try (eexists; reflexivity);
      destruct (PropertyService.not_a "number" (get rules "max")) eqn:Hmax;
      try (eexists; reflexivity);
      destruct Hor; discriminate.
  - rewrite Hget.
    assert (Htruthy : truthy (Some regex) = true).
    { destruct (truthy (Some regex)) eqn:Ht; [reflexivity|].
      rewrite (Hfalsy regex Ht) in Hno. discriminate. }
    destruct type; split_conditions; try (eexists; reflexivity);
      cbv beta iota; rewrite ?Htruthy, ?Hno; try (eexists; reflexivity);
      congruence.
Qed.

(** C7, as the code has it.  When a new property is being created with a
    rule set: for type "string" or "number", a min or max that is truthy and
    not a number makes the resolver throw a ValidationError, and for any type
    so does a regex that does not compile; in both cases nothing is inserted.
    (Every falsy value compiles as a pattern, which is what the hypothesis on
    the compiler says.) *)
Theorem findOrCreateProperty_rejects_invalid_rules :
  forall (data : CreatePropertyDto) (w : World) (rules : JsVal),
    fault w (clock w) OpQuery = None ->
    stored_property (view Pool w) (cp_name data) (cp_type data) = None ->
    cp_validation_rules data = Some rules ->
    (forall v, truthy (Some v) = false -> regexp_compiles w v = true) ->
    ((cp_type data = STRING \/ cp_type data = NUMBER)
     /\ (truthy_not_number (get rules "min") \/ truthy_not_number (get rules "max"))
     \/ exists regex, get rules "regex" = Some regex /\ regexp_compiles w regex = false) ->
    exists msg w',
      PropertyService.findOrCreateProperty data w
      = (Throw (new_ValidationError msg), w')
      /\ db w' = db w /\ tx w' = tx w.
Proof.
  intros data w rules Hq Hnew Hrules Hfalsy Hbad.
  assert (Hfalsy' : forall v, truthy (Some v) = false -> regexp_compiles (tick w) v = true)
    by exact Hfalsy.
  assert (Hbad' :
    (cp_type data = STRING \/ cp_type data = NUMBER)
     /\ (truthy_not_number (get rules "min") \/ truthy_not_number (get rules "max"))
     \/ exists regex, get rules "regex" = Some regex
                      /\ regexp_compiles (tick w) regex = false)
    by exact Hbad.
  destruct (validatePropertyRules_rejects rules (cp_type data) (tick w) Hfalsy' Hbad')
    as [msg Hthrow].
  exists msg, (tick w).
  unfold PropertyService.findOrCreateProperty, bind.
  rewrite property_lookup_runs, Hnew by assumption.
  unfold PropertyService.validate_if_given. rewrite Hrules.
  destruct (truthy (Some rules)) eqn:Ht.
  - rewrite Hthrow. repeat split.
  - exfalso.
    destruct Hbad as [[_ [[Hm _] | [Hm _]]] | [regex [Hget _]]].
    + rewrite (falsy_has_no_property rules "min" Ht) in Hm. discriminate.
    + rewrite (falsy_has_no_property rules "max" Ht) in Hm. discriminate.
    + rewrite (falsy_has_no_property rules "regex" Ht) in Hget. discriminate.
Qed.

Lemma findOrCreateProperty_rejects_invalid_rules_witness :
  exists msg w',
    PropertyService.findOrCreateProperty
      (property_candidate "tier" STRING (Some (JObj [("min", JStr "invalid")])))
      (quiet empty_store)
    = (Throw (new_ValidationError msg), w')
    /\ db w' = db (quiet empty_store) /\ tx w' = tx (quiet empty_store).
Proof.
  apply (findOrCreateProperty_rejects_invalid_rules
           (property_candidate "tier" STRING (Some (JObj [("min", JStr "invalid")])))
           (quiet empty_store) (JObj [("min", JStr "invalid")])).
  - reflexivity.
  - reflexivity.
  - reflexivity.
  - intros v Hv. destruct v as [| b | n | s | xs | fields]; try reflexivity.
    cbn in Hv. apply negb_false_iff in Hv. apply String.eqb_eq in Hv.
    now subst s.
  - left. split; [now left|]. left. split; [reflexivity | discriminate].
Defined.

(** C7 fails for a min that is given, falsy and not a number: a new property
    of type "string" with the rule set [{min: ""}] passes the validation and
    is inserted. *)
Lemma findOrCreateProperty_accepts_empty_string_min :
  get empty_min "min" = Some (JStr "")
  /\ typeof (get empty_min "min") <> "number"
  /\ stored_property (view Pool (quiet empty_store)) "tier" STRING = None
  /\ fst (PropertyService.findOrCreateProperty
            (property_candidate "tier" STRING (Some empty_min)) (quiet empty_store))
     = Ok (Property.mk 1 "tier" STRING "Subscription tier" empty_min 100 100 false None)
  /\ properties
       (db (snd (PropertyService.findOrCreateProperty
                   (property_candidate "tier" STRING (Some empty_min))
                   (quiet empty_store))))
     = [Property.mk 1 "tier" STRING "Subscription tier" empty_min 100 100 false None].
Proof. repeat split. discriminate. Qed.

(* ===================================================================== *)
(** ** Deleting a tracking plan *)
(* ===================================================================== *)

Lemma plan_lookup_runs (id : Id) (w : World) :
  fault w (clock w) OpQuery = None ->
  BaseRepository.findById id w = (Ok (stored_plan (view Pool w) id), tick w).
Proof. intros Hq. unfold BaseRepository.findById. now rewrite findOne_runs. Qed.

Lemma plan_lookup_fails (id : Id) (w : World) (msg : string) :
  fault w (clock w) OpQuery = Some msg ->
  BaseRepository.findById (T := TrackingPlan.t) id w
  = (Throw (storage_failure msg), tick w).
Proof.
  intros Hq. unfold BaseRepository.findById, Repository.findOne.
  now rewrite (external_fails _ _ _ msg).
Qed.

(** C10.  [deleteTrackingPlan] on an existing plan leaves the tables of
    events, properties, plan-event links and event-property links as they
    were.  When it succeeds, the table of plans differs only in the rows with
    the given id, which are flagged deleted at the current time; when it
    fails, the table of plans is unchanged too. *)
Theorem deleteTrackingPlan_frame :
  forall (id : Id) (w : World) (plan : TrackingPlan.t),
    stored_plan (view Pool w) id = Some plan ->
    let result := fst (TrackingPlanService.deleteTrackingPlan id w) in
    let w' := snd (TrackingPlanService.deleteTrackingPlan id w) in
    events (db w') = events (db w)
    /\ properties (db w') = properties (db w)
    /\ tracking_plan_events (db w') = tracking_plan_events (db w)
    /\ event_properties (db w') = event_properties (db w)
    /\ ((result = Ok (Success tt)
         /\ tracking_plans (db w')
            = map (fun p => if (TrackingPlan.id p =? id)%nat
                            then soft_deleted (now w) p else p)
                (tracking_plans (db w)))
        \/ ((exists error, result = Ok (Failure error))
            /\ tracking_plans (db w') = tracking_plans (db w))).
Proof.
  intros id w plan Hplan result w'. subst result w'.
  unfold TrackingPlanService.deleteTrackingPlan, tryCatch, bind.
  destruct (fault w (clock w) OpQuery) as [msg|] eqn:Hq1.
  { rewrite (plan_lookup_fails id w msg Hq1). cbn [fst snd].
    repeat split; right; split; [eexists|]; reflexivity. }
  rewrite plan_lookup_runs, Hplan by assumption.
  unfold BaseRepository.softDelete, Repository.update, external, new_Date,
    bind, ret, failure.
  cbn [fault clock tick now].
  destruct (fault w (S (clock w)) OpQuery) as [msg|] eqn:Hq2; cbn [fst snd].
  { repeat split; right; split; [eexists|]; reflexivity. }
  destruct (update_clashes _ _ _); cbn [fst snd].
  { repeat split; right; split; [eexists|]; reflexivity. }
  repeat split. left. split; [reflexivity|].
  cbn. apply map_ext. intros p. destruct (TrackingPlan.id p =? id)%nat; reflexivity.
Qed.

(* ===================================================================== *)
(** ** Relations that the computations preserve *)
(* ===================================================================== *)

Section Preservation.

Variable R : World -> World -> Prop.
Hypothesis R_refl : forall w, R w w.
Hypothesis R_trans : forall a b c, R a b -> R b c -> R a c.

Lemma preserves_ret {A} (a : A) : preserves R (ret a).
Proof. intros w r w' H. inversion H. apply R_refl. Qed.

Lemma preserves_throw {A} (e : Error) : preserves R (throw (A := A) e).
Proof. intros w r w' H. inversion H. apply R_refl. Qed.

Lemma preserves_bind {A B} (m : M A) (k : A -> M B) :
  preserves R m -> (forall a, preserves R (k a)) -> preserves R (bind m k).
Proof.
  intros Hm Hk w r w' H. unfold bind in H.
  destruct (m w) as [[a|e] w1] eqn:Em.
  - eapply R_trans; [eapply Hm; eassumption | eapply Hk; eassumption].
  - inversion H; subst. eapply Hm; eassumption.
Qed.

Lemma preserves_forEach {A B} (f : A -> M B) (xs : list A) :
  (forall x, preserves R (f x)) -> preserves R (forEach f xs).
Proof.
  intros Hf. induction xs as [|x rest IH]; cbn [forEach].
  - apply preserves_ret.
  - apply preserves_bind; [apply Hf|]. intros y.
    apply preserves_bind; [apply IH|]. intros ys. apply preserves_ret.
Qed.

Lemma preserves_external {A} (op : Op) (run : M A) :
  (forall w, R w (tick w)) -> preserves R run -> preserves R (external op run).
Proof.
  intros Htick Hrun w r w' H. unfold external in H.
  destruct (fault w (clock w) op).
  - inversion H; subst. apply Htick.
  - eapply R_trans; [apply Htick | eapply Hrun; eassumption].
Qed.

End Preservation.

Lemma fresh_keys_app (old a b : list Property.t) :
  fresh_keys old (a ++ b)%list <-> fresh_keys old a /\ fresh_keys (old ++ a)%list b.
Proof.
  revert old. induction a as [|x a IH]; intros old; cbn [fresh_keys app].
  - rewrite app_nil_r. tauto.
  - rewrite IH, <- app_assoc. cbn [app]. tauto.
Qed.

Lemma grows_refl (w : World) : grows w w.
Proof.
  constructor; try reflexivity; try tauto.
  - exists []. rewrite app_nil_r. now split.
  - exists []. now rewrite app_nil_r.
  - exists []. rewrite !app_nil_r. cbn. tauto.
Qed.

Lemma grows_trans (a b c : World) : grows a b -> grows b c -> grows a c.
Proof.
  intros [f1 n1 t1 [l1 [L1 D1]] [e1 E1] [p1 [P1 [V1 K1]]]]
         [f2 n2 t2 [l2 [L2 D2]] [e2 E2] [p2 [P2 [V2 K2]]]].
  constructor.
  - congruence.
  - congruence.
  - tauto.
  - exists (l1 ++ l2)%list. rewrite L2, L1, app_assoc. split; [reflexivity|].
    apply Forall_app. now split.
  - exists (e1 ++ e2)%list. now rewrite E2, E1, app_assoc.
  - exists (p1 ++ p2)%list. rewrite P2, P1, V2, V1, !app_assoc.
    repeat split. apply fresh_keys_app. split; [assumption|]. now rewrite <- V1.
Qed.

Lemma grows_tick (w : World) : grows w (tick w).
Proof.
  constructor; try reflexivity; try tauto.
  - exists []. rewrite app_nil_r. now split.
  - exists []. now rewrite app_nil_r.
  - exists []. rewrite view_tick, !app_nil_r. cbn. tauto.
Qed.

(** *** The repository calls of the loops *)

Lemma save_cases {T} `{Entity T} (c : Conn) (entity : Id -> Date -> T)
    (w : World) (r : Outcome T) (w' : World) :
  Repository.save c entity w = (r, w') ->
  let row := entity (next_id (db w)) (now w) in
  ((exists e, r = Throw e) /\ w' = tick w)
  \/ (r = Ok row /\ w' = write c (insert_row row) (tick w)
      /\ existsb (unique_clash row) (table (view c w)) = false).
Proof.
  intros Hs. cbv zeta. unfold Repository.save, external in Hs.
  destruct (fault w (clock w) OpQuery).
  - inversion Hs. left. split; [eexists|]; reflexivity.
  - rewrite view_tick in Hs. cbn [db tick now] in Hs.
    destruct (existsb (unique_clash (entity (next_id (db w)) (now w)))
                (table (view c w))) eqn:Hclash.
    + inversion Hs. left. split; [eexists|]; reflexivity.
    + inversion Hs. right. repeat split.
Qed.

Lemma preserves_findOne {T} `{Entity T} (c : Conn) (p : T -> bool) :
  preserves grows (Repository.findOne c p).
Proof.
  unfold Repository.findOne.
  apply preserves_external; [apply grows_trans | apply grows_tick |].
  intros w r w' Hr. inversion Hr. apply grows_refl.
Qed.

Lemma grows_insert_plan (row : TrackingPlan.t) (w : World) :
  grows w (write Pool (insert_row row) w).
Proof.
  constructor; try reflexivity.
  - cbn. destruct (tx w); cbn; congruence.
  - exists []. rewrite app_nil_r. now split.
  - exists []. now rewrite app_nil_r.
  - exists []. rewrite !app_nil_r. unfold view. cbn.
    destruct (tx w); cbn; tauto.
Qed.

Lemma grows_insert_event (row : Event.t) (w : World) :
  grows w (write Pool (insert_row row) w).
Proof.
  constructor; try reflexivity.
  - cbn. destruct (tx w); cbn; congruence.
  - exists []. rewrite app_nil_r. now split.
  - exists []. now rewrite app_nil_r.
  - exists []. rewrite !app_nil_r. unfold view. cbn.
    destruct (tx w); cbn; tauto.
Qed.

Lemma grows_insert_property (row : Property.t) (w : World) :
  existsb (unique_clash row) (table (view Pool w)) = false ->
  grows w (write Pool (insert_row row) w).
Proof.
  intros Hfresh.
  constructor; try reflexivity.
  - cbn. destruct (tx w); cbn; congruence.
  - exists []. rewrite app_nil_r. now split.
  - exists []. now rewrite app_nil_r.
  - exists [as_stored row]. unfold view in *. cbn in *.
    destruct (tx w); cbn; repeat split; assumption.
Qed.

Lemma grows_insert_link (row : TrackingPlanEvent.t) (w : World) :
  TrackingPlanEvent.is_deleted row = false ->
  grows w (write Runner (insert_row row) w).
Proof.
  intros Hlive.
  constructor; try reflexivity.
  - cbn. tauto.
  - exists [row]. split; [reflexivity|]. now constructor.
  - exists []. now rewrite app_nil_r.
  - exists []. rewrite !app_nil_r. unfold view. cbn.
    destruct (tx w); cbn; tauto.
Qed.

Lemma grows_insert_property_link (row : EventProperty.t) (w : World) :
  grows w (write Runner (insert_row row) w).
Proof.
  constructor; try reflexivity.
  - cbn. tauto.
  - exists []. rewrite app_nil_r. now split.
  - exists [row]. reflexivity.
  - exists []. rewrite !app_nil_r. unfold view. cbn.
    destruct (tx w); cbn; tauto.
Qed.

Lemma preserves_save_plan (entity : Id -> Date -> TrackingPlan.t) :
  preserves grows (Repository.save Pool entity).
Proof.
  intros w r w' Hs. apply save_cases in Hs.
  destruct Hs as [[_ ->] | [_ [-> _]]]; [apply grows_tick|].
  eapply grows_trans; [apply grows_tick | apply grows_insert_plan].
Qed.

Lemma preserves_save_event (entity : Id -> Date -> Event.t) :
  preserves grows (Repository.save Pool entity).
Proof.
  intros w r w' Hs. apply save_cases in Hs.
  destruct Hs as [[_ ->] | [_ [-> _]]]; [apply grows_tick|].
  eapply grows_trans; [apply grows_tick | apply grows_insert_event].
Qed.

Lemma preserves_save_property (entity : Id -> Date -> Property.t) :
  preserves grows (Repository.save Pool entity).
Proof.
  intros w r w' Hs. apply save_cases in Hs.
  destruct Hs as [[_ ->] | [_ [-> Hfresh]]]; [apply grows_tick|].
  eapply grows_trans; [apply grows_tick | apply grows_insert_property].
  now rewrite view_tick.
Qed.

Lemma preserves_save_link (plan event : Id) (additional : bool) :
  preserves grows
    (Repository.save Runner
       (TrackingPlanService.new_tracking_plan_event plan event additional)).
Proof.
  intros w r w' Hs. apply save_cases in Hs.
  destruct Hs as [[_ ->] | [_ [-> _]]]; [apply grows_tick|].
  eapply grows_trans; [apply grows_tick | now apply grows_insert_link].
Qed.

Lemma preserves_save_property_link (entity : Id -> Date -> EventProperty.t) :
  preserves grows (Repository.save Runner entity).
Proof.
  intros w r w' Hs. apply save_cases in Hs.
  destruct Hs as [[_ ->] | [_ [-> _]]]; [apply grows_tick|].
  eapply grows_trans; [apply grows_tick | apply grows_insert_property_link].
Qed.

Lemma preserves_or_now (d : option Date) : preserves grows (or_now d).
Proof.
  destruct d; intros w r w' Hr; inversion Hr; apply grows_refl.
Qed.

Lemma preserves_validate (rules : option JsVal) (type : PropertyType) :
  preserves grows (PropertyService.validate_if_given rules type).
Proof.
  intros w r w' Hr.
  assert (Hw : w' = w); [|subst; apply grows_refl].
  unfold PropertyService.validate_if_given in Hr.
  destruct rules as [rules|]; [|now inversion Hr].
  destruct (truthy (Some rules)); [|now inversion Hr].
  unfold PropertyService.validatePropertyRules, PropertyService.reject_if,
    bind, throw, ret in Hr.
  destruct type;
    repeat match type of Hr with
           | context [if ?b then _ else _] => destruct b
           | context [match ?o with Some _ => _ | None => _ end] => destruct o
           end;
    now inversion Hr.
Qed.

Lemma preserves_findOrCreateEvent (data : CreateEventDto) :
  preserves grows (EventService.findOrCreateEvent data).
Proof.
  unfold EventService.findOrCreateEvent.
  apply preserves_bind; [apply grows_trans | apply preserves_findOne |].
  intros [existing|].
  - destruct (negb _); [apply preserves_throw | apply preserves_ret]; apply grows_refl.
  - apply preserves_bind; [apply grows_trans | apply preserves_or_now |].
    intros d. apply preserves_save_event.
Qed.

Lemma preserves_findOrCreateProperty (data : CreatePropertyDto) :
  preserves grows (PropertyService.findOrCreateProperty data).
Proof.
  unfold PropertyService.findOrCreateProperty.
  apply preserves_bind; [apply grows_trans | apply preserves_findOne |].
  intros [existing|].
  - destruct (negb _); [apply preserves_throw; apply grows_refl|].
    destruct (negb _); [apply preserves_throw | apply preserves_ret]; apply grows_refl.
  - apply preserves_bind; [apply grows_trans | apply preserves_validate |].
    intros _.
    apply preserves_bind; [apply grows_trans | apply preserves_or_now |].
    intros d. apply preserves_save_property.
Qed.

Lemma preserves_create_property_link (create_time : option Date)
    (link : TrackingPlanEvent.t) (propertyData : EventPropertyDto) :
  preserves grows
    (TrackingPlanService.create_property_link create_time link propertyData).
Proof.
  unfold TrackingPlanService.create_property_link.
  apply preserves_bind; [apply grows_trans | apply preserves_findOrCreateProperty |].
  intros property.
  apply preserves_bind; [apply grows_trans | apply preserves_save_property_link |].
  intros _. apply preserves_ret, grows_refl.
Qed.

Lemma preserves_create_event_link (create_time : option Date)
    (plan : TrackingPlan.t) (eventData : TrackingPlanEventDto) :
  preserves grows (TrackingPlanService.create_event_link create_time plan eventData).
Proof.
  unfold TrackingPlanService.create_event_link.
  apply preserves_bind; [apply grows_trans | apply preserves_findOrCreateEvent |].
  intros event.
  apply preserves_bind; [apply grows_trans | apply preserves_save_link |].
  intros link.
  apply preserves_bind; [apply grows_trans | |].
  - apply preserves_forEach; [apply grows_refl | apply grows_trans |].
    intros x. apply preserves_create_property_link.
  - intros refs. apply preserves_ret, grows_refl.
Qed.

(* ===================================================================== *)
(** ** What the resolver of properties returns *)
(* ===================================================================== *)

Lemma bind_Ok {A B} (m : M A) (k : A -> M B) (w : World) (b : B) (w' : World) :
  bind m k w = (Ok b, w') ->
  exists a w1, m w = (Ok a, w1) /\ k a w1 = (Ok b, w').
Proof.
  unfold bind. destruct (m w) as [[a|e] w1]; intros H; [|discriminate].
  now exists a, w1.
Qed.

Lemma ret_Ok {A} (a b : A) (w w' : World) : ret a w = (Ok b, w') -> a = b /\ w = w'.
Proof. intros H. inversion H. now split. Qed.


Lemma find_app_none {A} (f : A -> bool) (l l' : list A) :
  find f l = None -> find f (l ++ l')%list = find f l'.
Proof.
  induction l as [|y l IH]; cbn; [trivial|].
  destruct (f y); [discriminate | exact IH].
Qed.

Lemma validate_if_given_pure (rules : option JsVal) (type : PropertyType)
    (w : World) (r : Outcome unit) (w' : World) :
  PropertyService.validate_if_given rules type w = (r, w') -> w' = w.
Proof.
  intros Hr. unfold PropertyService.validate_if_given in Hr.
  destruct rules as [rules|]; [|now inversion Hr].
  destruct (truthy (Some rules)); [|now inversion Hr].
  unfold PropertyService.validatePropertyRules, PropertyService.reject_if,
    bind, throw, ret in Hr.
  destruct type;
    repeat match type of Hr with
           | context [if ?b then _ else _] => destruct b
           | context [match ?o with Some _ => _ | None => _ end] => destruct o
           end;
    now inversion Hr.
Qed.

Lemma or_now_pure (d : option Date) (w : World) (r : Outcome Date) (w' : World) :
  or_now d w = (r, w') -> w' = w /\ exists t, r = Ok t.
Proof. destruct d; intros H; inversion H; split; eauto. Qed.

Lemma PropertyType_eqb_refl (t : PropertyType) : PropertyType_eqb t t = true.
Proof. now destruct t. Qed.

(** After the resolver has returned a property, the identity lookup of the
    candidate finds the row of that property: the entity itself when it was
    found, the stored form of the entity when it was created. *)
Lemma findOrCreateProperty_resolves (data : CreatePropertyDto) (w : World)
    (p : Property.t) (w' : World) :
  PropertyService.findOrCreateProperty data w = (Ok p, w') ->
  exists q,
    stored_property (view Pool w') (cp_name data) (cp_type data) = Some q
    /\ Property.id q = Property.id p
    /\ (q = p \/ q = as_stored p)
    /\ Property.name p = cp_name data
    /\ Property.type p = cp_type data.
Proof.
  unfold PropertyService.findOrCreateProperty. intros H.
  apply bind_Ok in H. destruct H as [found [w1 [Hfind Hrest]]].
  destruct (fault w (clock w) OpQuery) eqn:Hq.
  { unfold PropertyRepository.findByNameAndType, Repository.findOne, external in Hfind.
    rewrite Hq in Hfind. discriminate. }
  rewrite property_lookup_runs in Hfind by assumption.
  assert (Hw1 : w1 = tick w) by congruence.
  assert (Hfound : found = stored_property (view Pool w) (cp_name data) (cp_type data))
    by congruence.
  clear Hfind. subst w1 found.
  destruct (stored_property (view Pool w) (cp_name data) (cp_type data))
    as [existing|] eqn:Hstored.
  - destruct (negb (Property.description existing =? cp_description data));
      [cbv beta iota delta [throw] in Hrest; discriminate|].
    destruct (negb _); [cbv beta iota delta [throw] in Hrest; discriminate|].
    apply ret_Ok in Hrest. destruct Hrest as [-> <-].
    exists p. rewrite view_tick. split; [exact Hstored|].
    split; [reflexivity|]. split; [now left|].
    unfold stored_property in Hstored. apply find_some in Hstored.
    destruct Hstored as [_ Hp]. apply andb_true_iff in Hp. destruct Hp as [Hp _].
    apply andb_true_iff in Hp. destruct Hp as [Hn Ht].
    apply String.eqb_eq in Hn. split; [exact Hn|].
    destruct (Property.type p), (cp_type data); cbn in Ht; congruence.
  - apply bind_Ok in Hrest. destruct Hrest as [u [w2 [Hval Hrest]]].
    apply validate_if_given_pure in Hval. subst w2.
    apply bind_Ok in Hrest. destruct Hrest as [t [w3 [Hnow Hrest]]].
    apply or_now_pure in Hnow. destruct Hnow as [-> _].
    apply save_cases in Hrest.
    destruct Hrest as [[[e He] _] | [Hp [-> _]]]; [discriminate|].
    assert (Hrow : p = PropertyService.new_property data t
                         (next_id (db (tick w))) (now (tick w))) by congruence.
    clear Hp. exists (as_stored p). rewrite view_write_pool, view_tick.
    unfold stored_property in *. cbn [insert_row bump properties set_table table
                                       Property_Entity].
    rewrite (find_app_none _ _ _ Hstored). subst p. cbn.
    rewrite String.eqb_refl, PropertyType_eqb_refl. cbn.
    repeat split. now right.
Qed.

(** The row that the resolver returns for a candidate passes the conflict
    comparator against that candidate. *)
Lemma findOrCreateProperty_compatible (data : CreatePropertyDto) (w : World)
    (p : Property.t) (w' : World) :
  PropertyService.findOrCreateProperty data w = (Ok p, w') ->
  Property.description p = cp_description data
  /\ JSON_stringify (or_null (Some (Property.validation_rules p)))
     = JSON_stringify (or_null (cp_validation_rules data)).
Proof.
  unfold PropertyService.findOrCreateProperty. intros H.
  apply bind_Ok in H. destruct H as [found [w1 [_ Hrest]]].
  destruct found as [existing|].
  - destruct (Property.description existing =? cp_description data) eqn:Hd;
      cbn [negb] in Hrest; [|cbv beta iota delta [throw] in Hrest; discriminate].
    destruct (JSON_stringify (or_null (Some (Property.validation_rules existing)))
              =? JSON_stringify (or_null (cp_validation_rules data))) eqn:Hr;
      cbn [negb] in Hrest; [|cbv beta iota delta [throw] in Hrest; discriminate].
    apply ret_Ok in Hrest. destruct Hrest as [-> _].
    apply String.eqb_eq in Hd, Hr. now split.
  - apply bind_Ok in Hrest. destruct Hrest as [u [w2 [_ Hrest]]].
    apply bind_Ok in Hrest. destruct Hrest as [t [w3 [_ Hrest]]].
    apply save_cases in Hrest.
    destruct Hrest as [[[e He] _] | [Hp _]]; [discriminate|].
    assert (Hrow : p = PropertyService.new_property data t
                         (next_id (db w3)) (now w3)) by congruence.
    subst p. cbn. split; [reflexivity|].
    now destruct (cp_validation_rules data).
Qed.



(* ===================================================================== *)
(** ** The transaction around the orchestrator *)
(* ===================================================================== *)

Lemma bind_cases {A B} (m : M A) (k : A -> M B) (w : World) (r : Outcome B)
    (w' : World) :
  bind m k w = (r, w') ->
  (exists e, m w = (Throw e, w') /\ r = Throw e)
  \/ (exists a w1, m w = (Ok a, w1) /\ k a w1 = (r, w')).
Proof.
  unfold bind. destruct (m w) as [[a|e] w1]; intros H.
  - right. now exists a, w1.
  - left. exists e. inversion H. now split.
Qed.

Lemma guarded_run {A} (body : M (ServiceResponse A)) (code_ : string)
    (w : World) (r : Outcome (ServiceResponse A)) (wt : World) :
  body w = (r, wt) ->
  tryCatchFinally body
    (fun error => QueryRunner.rollbackTransaction ;; ret (failure code_ error))
    QueryRunner.release w
  = match r with
    | Ok v => released (Ok v) wt
    | Throw e => rolled_back code_ e wt
    end.
Proof.
  intros Hbody.
  unfold tryCatchFinally, tryCatch. rewrite Hbody.
  destruct r as [v|e].
  - unfold released, QueryRunner.release, external, ret.
    now destruct (fault wt (clock wt) OpRelease).
  - unfold rolled_back, bind, QueryRunner.rollbackTransaction.
    destruct (tx wt) as [c|].
    + unfold external.
      destruct (fault wt (clock wt) OpRollback).
      * unfold released, QueryRunner.release, external, ret.
        now destruct (fault (tick wt) (clock (tick wt)) OpRelease).
      * unfold released, QueryRunner.release, external, ret.
        now destruct (fault _ _ OpRelease).
    + unfold released, QueryRunner.release, external, ret.
      now destruct (fault wt (clock wt) OpRelease).
Qed.

Lemma createTrackingPlan_run (data : CreateTrackingPlanDto) (w : World) :
  TrackingPlanService.createTrackingPlan data w =
  match fault w (clock w) OpConnect with
  | Some msg =>
      (Throw (storage_failure msg), tick (set_tx None (set_db (view Pool w) w)))
  | None =>
      match fault w (S (clock w)) OpStartTransaction with
      | Some msg =>
          (Throw (storage_failure msg),
           tick (tick (set_tx None (set_db (view Pool w) w))))
      | None =>
          tryCatchFinally (TrackingPlanService.createTrackingPlan_try data)
            (fun error =>
               QueryRunner.rollbackTransaction ;;
               ret (failure "CREATE_TRACKING_PLAN_ERROR" error))
            QueryRunner.release (opened w)
      end
  end.
Proof.
  unfold TrackingPlanService.createTrackingPlan, bind,
    QueryRunner.createQueryRunner, QueryRunner.connect,
    QueryRunner.startTransaction, external, ret.
  change (fault (set_tx None (set_db (view Pool w) w))) with (fault w).
  change (clock (set_tx None (set_db (view Pool w) w))) with (clock w).
  destruct (fault w (clock w) OpConnect); [reflexivity|].
  change (fault (tick (set_tx None (set_db (view Pool w) w)))) with (fault w).
  change (clock (tick (set_tx None (set_db (view Pool w) w)))) with (S (clock w)).
  destruct (fault w (S (clock w)) OpStartTransaction); reflexivity.
Qed.

Lemma preserves_findByName (name : string) :
  preserves grows (TrackingPlanRepository.findByName name).
Proof. apply preserves_findOne. Qed.

Lemma preserves_create_plan (entity : Id -> Date -> TrackingPlan.t) :
  preserves grows (BaseRepository.create entity).
Proof. apply preserves_save_plan. Qed.

(** The [try] block of [createTrackingPlan] either throws, with only growth
    behind it, or it has run both loops and committed. *)
Lemma createTrackingPlan_try_cases (data : CreateTrackingPlanDto) (w : World)
    (r : Outcome (ServiceResponse TrackingPlanResponseDto)) (wt : World) :
  TrackingPlanService.createTrackingPlan_try data w = (r, wt) ->
  (exists e, r = Throw e /\ grows w wt)
  \/ (exists plan refs wl wm,
        r = Ok (Success (TrackingPlanService.response plan refs))
        /\ forEach (TrackingPlanService.create_event_link (ctp_create_time data) plan)
             (ctp_events data) wl = (Ok refs, wm)
        /\ grows w wm
        /\ tx wm <> None
        /\ wt = set_tx None (tick wm)).
Proof.
  unfold TrackingPlanService.createTrackingPlan_try. intros H.
  apply bind_cases in H.
  destruct H as [[e [Hm ->]] | [existing [w1 [Hm H]]]].
  { left. exists e. split; [reflexivity|]. eapply preserves_findByName; eassumption. }
  assert (G1 : grows w w1) by (eapply preserves_findByName; eassumption).
  destruct existing as [plan0|].
  { left. inversion H; subst. eexists. split; [reflexivity | exact G1]. }
  apply bind_cases in H.
  destruct H as [[e [Hm2 ->]] | [t [w2 [Hm2 H]]]].
  { left. exists e. split; [reflexivity|].
    apply or_now_pure in Hm2. destruct Hm2 as [-> _]. exact G1. }
  apply or_now_pure in Hm2. destruct Hm2 as [-> _].
  apply bind_cases in H.
  destruct H as [[e [Hm3 ->]] | [plan [w3 [Hm3 H]]]].
  { left. exists e. split; [reflexivity|].
    eapply grows_trans; [exact G1 | eapply preserves_create_plan; eassumption]. }
  assert (G3 : grows w w3)
    by (eapply grows_trans; [exact G1 | eapply preserves_create_plan; eassumption]).
  apply bind_cases in H.
  destruct H as [[e [Hm4 ->]] | [refs [w4 [Hm4 H]]]].
  { left. exists e. split; [reflexivity|].
    eapply grows_trans; [exact G3|].
    eapply (preserves_forEach grows grows_refl grows_trans); [|eassumption].
    intros x. apply preserves_create_event_link. }
  assert (G4 : grows w w4).
  { eapply grows_trans; [exact G3|].
    eapply (preserves_forEach grows grows_refl grows_trans); [|eassumption].
    intros x. apply preserves_create_event_link. }
  unfold bind, QueryRunner.commitTransaction in H.
  destruct (tx w4) as [c|] eqn:Htx.
  - unfold external in H.
    destruct (fault w4 (clock w4) OpCommit).
    + left. inversion H; subst. eexists. split; [reflexivity|].
      eapply grows_trans; [exact G4 | apply grows_tick].
    + right. cbv beta iota delta [ret] in H.
      assert (Hr : r = Ok (Success (TrackingPlanService.response plan refs)))
        by congruence.
      assert (Hw : wt = set_tx None (tick w4)) by congruence.
      exists plan, refs, w3, w4.
      split; [exact Hr|]. split; [exact Hm4|]. split; [exact G4|].
      split; [congruence | exact Hw].
  - left. inversion H; subst. eexists. split; [reflexivity | exact G4].
Qed.

Lemma released_world {A} (r : Outcome A) (w : World) : snd (released r w) = tick w.
Proof. unfold released. now destruct (fault w (clock w) OpRelease). Qed.

Lemma released_result {A} (r : Outcome A) (w : World) (v : A) :
  fst (released r w) = Ok v -> r = Ok v.
Proof. unfold released. destruct (fault w (clock w) OpRelease); cbn; congruence. Qed.

Lemma rolled_back_never_succeeds {A} (code_ : string) (e : Error) (w : World) (v : A) :
  fst (rolled_back code_ e w) <> Ok (Success v).
Proof.
  unfold rolled_back. intros H.
  destruct (tx w); [destruct (fault w (clock w) OpRollback)|];
    apply released_result in H; discriminate.
Qed.

(** *** The same property twice in one submission *)

(** C2, at an input where the code departs from it.  The store is empty.
    The request has two events that both reference the property "tier" of
    type "string", with the same description and the same rule set
    [{min: 1, max: 2}].  The first reference creates the row; the second one
    finds it, reads its rules in the order of the [jsonb] column,
    [{max: 2, min: 1}], and the comparison of the serialisations throws the
    conflict on the validation rules: the create fails and returns no
    response.  The same request with the rule set written [{max: 2, min: 1}]
    succeeds, creates one row, and both references carry its id. *)
Theorem createTrackingPlan_same_property_twice_conflicts :
  let run := TrackingPlanService.createTrackingPlan (shared_tier_plan min_then_max)
               (quiet empty_store) in
  fst run
  = Ok (Failure
          {| code := "CREATE_TRACKING_PLAN_ERROR";
             err_message :=
               "Property 'tier' of type 'string' already exists with different validation rules" |})
  /\ map (fun p => (Property.id p, Property.name p, Property.validation_rules p))
       (properties (db (snd run)))
     = [(4, "tier", max_then_min)]
  /\ exists resp,
       fst (TrackingPlanService.createTrackingPlan (shared_tier_plan max_then_min)
              (quiet empty_store)) = Ok (Success resp)
       /\ map (fun er => map pr_id (er_properties er)) (r_events resp) = [[4]; [4]]
       /\ map Property.id
            (properties
               (db (snd (TrackingPlanService.createTrackingPlan
                           (shared_tier_plan max_then_min) (quiet empty_store)))))
          = [4].
Proof.
  split; [vm_compute; reflexivity|]. split; [vm_compute; reflexivity|].
  eexists. split; [vm_compute; reflexivity|]. split; vm_compute; reflexivity.
Qed.

(* ===================================================================== *)
(** ** A create that fails *)
(* ===================================================================== *)

(** C1, at an input where the code departs from it.  The store holds the
    event "Login" of type "track" with description "A".  The request asks for
    a new event "Signup" with a new property "email", and then for "Login"
    with description "B".  The create fails with the conflict on the
    description, the two link rows written for "Signup" are rolled back, but
    the plan row, the event row of "Signup" and the property row of "email"
    are still there after the failure. *)
Theorem createTrackingPlan_failure_keeps_rows :
  let run := TrackingPlanService.createTrackingPlan signup_then_login_B
               (quiet store_with_login) in
  fst run
  = Ok (Failure
          {| code := "CREATE_TRACKING_PLAN_ERROR";
             err_message :=
               "Event 'Login' of type 'track' already exists with different description" |})
  /\ tracking_plans (db (snd run))
     = [TrackingPlan.mk 2 "Onboarding" "Sign-up funnel" 100 100 false None]
  /\ events (db (snd run))
     = [login_A; Event.mk 3 "Signup" TRACK "Account created" 100 100 false None]
  /\ properties (db (snd run))
     = [Property.mk 5 "email" STRING "User email address" JNull 100 100 false None]
  /\ tracking_plan_events (db (snd run)) = []
  /\ event_properties (db (snd run)) = []
  /\ tx (snd run) = None.
Proof. vm_compute. repeat split. Qed.

(* ===================================================================== *)
(** ** How a failure of the create reaches the caller *)
(* ===================================================================== *)

Lemma released_reliable {A} (r : Outcome A) (w : World) :
  fault w (clock w) OpRelease = None -> released r w = (r, tick w).
Proof. intros H. unfold released. now rewrite H. Qed.


(** *** What the pool sees of the link tables during a create *)

Lemma image_links_refl (w : World) : image_links_kept w w.
Proof. unfold image_links_kept. destruct (tx w); [now split | exact I]. Qed.

Lemma image_links_trans (a b c : World) :
  image_links_kept a b -> image_links_kept b c -> image_links_kept a c.
Proof.
  unfold image_links_kept.
  destruct (tx a), (tx b), (tx c); try tauto. intuition congruence.
Qed.

Lemma image_links_tick (w : World) : image_links_kept w (tick w).
Proof. exact (image_links_refl w). Qed.

Lemma image_links_pure {A} (m : M A) :
  (forall w r w', m w = (r, w') -> w' = w) -> preserves image_links_kept m.
Proof. intros Hm w r w' Hr. apply Hm in Hr. subst. apply image_links_refl. Qed.

Lemma image_links_findOne {T} `{Entity T} (c : Conn) (p : T -> bool) :
  preserves image_links_kept (Repository.findOne c p).
Proof.
  unfold Repository.findOne.
  apply preserves_external; [apply image_links_trans | apply image_links_tick |].
  apply image_links_pure. intros w r w' Hr. now inversion Hr.
Qed.

Lemma image_links_save_pool {T} `{Entity T} (entity : Id -> Date -> T) :
  (forall (row : T) (s : Store),
      tracking_plan_events (insert_row row s) = tracking_plan_events s
      /\ event_properties (insert_row row s) = event_properties s) ->
  preserves image_links_kept (Repository.save Pool entity).
Proof.
  intros Hins w r w' Hs. apply save_cases in Hs.
  destruct Hs as [[_ ->] | [_ [-> _]]]; [apply image_links_tick|].
  unfold image_links_kept. cbn. destruct (tx w); cbn; [apply Hins | exact I].
Qed.

Lemma image_links_save_runner {T} `{Entity T} (entity : Id -> Date -> T) :
  preserves image_links_kept (Repository.save Runner entity).
Proof.
  intros w r w' Hs. apply save_cases in Hs.
  destruct Hs as [[_ ->] | [_ [-> _]]]; [apply image_links_tick|].
  unfold image_links_kept. cbn. destruct (tx w); [now split | exact I].
Qed.

Lemma image_links_commit : preserves image_links_kept QueryRunner.commitTransaction.
Proof.
  intros w r w' Hr. unfold QueryRunner.commitTransaction in Hr.
  destruct (tx w) as [c|] eqn:Htx; [|inversion Hr; apply image_links_refl].
  unfold external in Hr.
  destruct (fault w (clock w) OpCommit); inversion Hr; [apply image_links_tick|].
  unfold image_links_kept. cbn. now destruct (tx w).
Qed.

Lemma image_links_findOrCreateEvent (data : CreateEventDto) :
  preserves image_links_kept (EventService.findOrCreateEvent data).
Proof.
  unfold EventService.findOrCreateEvent.
  apply preserves_bind; [apply image_links_trans | apply image_links_findOne |].
  intros [existing|].
  - destruct (negb _); [apply preserves_throw | apply preserves_ret];
      apply image_links_refl.
  - apply preserves_bind; [apply image_links_trans | |].
    + apply image_links_pure. intros w r w' Hr. now apply or_now_pure in Hr.
    + intros d. apply image_links_save_pool. intros row s. now split.
Qed.

Lemma image_links_findOrCreateProperty (data : CreatePropertyDto) :
  preserves image_links_kept (PropertyService.findOrCreateProperty data).
Proof.
  unfold PropertyService.findOrCreateProperty.
  apply preserves_bind; [apply image_links_trans | apply image_links_findOne |].
  intros [existing|].
  - destruct (negb _); [apply preserves_throw; apply image_links_refl|].
    destruct (negb _); [apply preserves_throw | apply preserves_ret];
      apply image_links_refl.
  - apply preserves_bind; [apply image_links_trans | |].
    { apply image_links_pure. intros w r w'. apply validate_if_given_pure. }
    intros _.
    apply preserves_bind; [apply image_links_trans | |].
    { apply image_links_pure. intros w r w' Hr. now apply or_now_pure in Hr. }
    intros d. apply image_links_save_pool. intros row s. now split.
Qed.

Lemma image_links_createTrackingPlan_try (data : CreateTrackingPlanDto) :
  preserves image_links_kept (TrackingPlanService.createTrackingPlan_try data).
Proof.
  unfold TrackingPlanService.createTrackingPlan_try.
  apply preserves_bind; [apply image_links_trans | apply image_links_findOne |].
  intros [existing|]; [apply preserves_throw, image_links_refl|].
  apply preserves_bind; [apply image_links_trans | |].
  { apply image_links_pure. intros w r w' Hr. now apply or_now_pure in Hr. }
  intros t.
  apply preserves_bind; [apply image_links_trans | |].
  { apply image_links_save_pool. intros row s. now split. }
  intros plan.
  apply preserves_bind; [apply image_links_trans | |].
  { apply preserves_forEach; [apply image_links_refl | apply image_links_trans |].
    intros x. unfold TrackingPlanService.create_event_link.
    apply preserves_bind;
      [apply image_links_trans | apply image_links_findOrCreateEvent |].
    intros event.
    apply preserves_bind;
      [apply image_links_trans | apply image_links_save_runner |].
    intros link.
    apply preserves_bind; [apply image_links_trans | |].
    - apply preserves_forEach; [apply image_links_refl | apply image_links_trans |].
      intros y. unfold TrackingPlanService.create_property_link.
      apply preserves_bind;
        [apply image_links_trans | apply image_links_findOrCreateProperty |].
      intros property.
      apply preserves_bind;
        [apply image_links_trans | apply image_links_save_runner |].
      intros _. apply preserves_ret, image_links_refl.
    - intros refs. apply preserves_ret, image_links_refl. }
  intros refs.
  apply preserves_bind; [apply image_links_trans | apply image_links_commit |].
  intros _. apply preserves_ret, image_links_refl.
Qed.

(** C8, as the code has it.  When the [try] block of a create fails, by a
    duplicate-key violation of an insert or by any other error, and the
    transaction calls answer, the create rolls back: the transaction is
    ended, the database is what the other connections saw when the error was
    thrown, and the two link tables are as they were before the call.  The
    service returns the failure result with the one code
    CREATE_TRACKING_PLAN_ERROR and the message of the error, and the
    controller answers with status 400 and code AppError. *)
Theorem createTrackingPlan_failure_surfaces_as_400 :
  forall (data : CreateTrackingPlanDto) (w : World) (e : Error) (wt : World),
    fault w (clock w) OpConnect = None ->
    fault w (S (clock w)) OpStartTransaction = None ->
    reliable w OpRollback ->
    reliable w OpRelease ->
    TrackingPlanService.createTrackingPlan_try data (opened w) = (Throw e, wt) ->
    fst (TrackingPlanService.createTrackingPlan data w)
    = Ok (failure "CREATE_TRACKING_PLAN_ERROR" e)
    /\ tx (snd (TrackingPlanService.createTrackingPlan data w)) = None
    /\ db (snd (TrackingPlanService.createTrackingPlan data w)) = view Pool wt
    /\ tracking_plan_events (db (snd (TrackingPlanService.createTrackingPlan data w)))
       = tracking_plan_events (view Pool w)
    /\ event_properties (db (snd (TrackingPlanService.createTrackingPlan data w)))
       = event_properties (view Pool w)
    /\ fst (TrackingPlanController.createTrackingPlan data w)
       = Ok (error_response 400 "AppError" (message e)).
Proof.
  intros data w e wt Hc Hs Hrb Hrl Htry.
  assert (Hrun : exists committed,
             tx wt = Some committed
             /\ tracking_plan_events committed = tracking_plan_events (view Pool w)
             /\ event_properties committed = event_properties (view Pool w)
             /\ TrackingPlanService.createTrackingPlan data w
                = (Ok (failure "CREATE_TRACKING_PLAN_ERROR" e),
                   tick (set_tx None (set_db committed (tick wt))))).
  { rewrite createTrackingPlan_run, Hc, Hs.
    rewrite (guarded_run _ _ _ _ _ Htry).
    pose proof (image_links_createTrackingPlan_try _ _ _ _ Htry) as Himage.
    apply createTrackingPlan_try_cases in Htry.
    destruct Htry as [[e' [He G]] | [plan [refs [wl [wm [He _]]]]]]; [|discriminate].
    destruct G as [Gf _ Gtx _ _ _].
    assert (Hopen : tx wt <> None) by (apply Gtx; discriminate).
    unfold image_links_kept in Himage.
    change (tx (opened w)) with (Some (view Pool w)) in Himage.
    unfold rolled_back.
    destruct (tx wt) as [committed|]; [|congruence].
    destruct Himage as [Hl Hp].
    exists committed. split; [reflexivity|]. split; [exact Hl|]. split; [exact Hp|].
    rewrite Gf. change (fault (opened w)) with (fault w). rewrite Hrb.
    apply released_reliable. cbn [fault clock set_tx set_db tick].
    rewrite Gf. apply Hrl. }
  destruct Hrun as [committed [Htx [Hl [Hp Hrun]]]].
  unfold TrackingPlanController.createTrackingPlan, asyncHandler, tryCatch, bind.
  rewrite Hrun. cbn [fst snd tx db tick set_tx set_db].
  unfold view. rewrite Htx.
  repeat split; assumption.
Qed.

Lemma createTrackingPlan_failure_surfaces_as_400_witness :
  fst (TrackingPlanService.createTrackingPlan plan_with_login_B
         (quiet store_with_deleted_plan))
  = Ok (failure "CREATE_TRACKING_PLAN_ERROR" duplicate_key_error)
  /\ tx (snd (TrackingPlanService.createTrackingPlan plan_with_login_B
                (quiet store_with_deleted_plan))) = None
  /\ db (snd (TrackingPlanService.createTrackingPlan plan_with_login_B
                (quiet store_with_deleted_plan)))
     = view Pool (tick (tick (opened (quiet store_with_deleted_plan))))
  /\ tracking_plan_events
       (db (snd (TrackingPlanService.createTrackingPlan plan_with_login_B
                   (quiet store_with_deleted_plan))))
     = tracking_plan_events (view Pool (quiet store_with_deleted_plan))
  /\ event_properties
       (db (snd (TrackingPlanService.createTrackingPlan plan_with_login_B
                   (quiet store_with_deleted_plan))))
     = event_properties (view Pool (quiet store_with_deleted_plan))
  /\ fst (TrackingPlanController.createTrackingPlan plan_with_login_B
            (quiet store_with_deleted_plan))
     = Ok (error_response 400 "AppError" (message duplicate_key_error)).
Proof.
  apply (createTrackingPlan_failure_surfaces_as_400 plan_with_login_B
           (quiet store_with_deleted_plan) duplicate_key_error
           (tick (tick (opened (quiet store_with_deleted_plan)))));
    try reflexivity; intros n; reflexivity.
Defined.

(** C8 fails as stated.  A soft-deleted plan holds the name "Onboarding"; the
    insert of a new plan of that name violates the unique index.  The
    service's result carries the same code as for a storage failure of any
    other kind, and the controller's answer has status 400: it is not
    classified as a conflict. *)
Lemma createTrackingPlan_duplicate_key_not_a_conflict :
  fst (TrackingPlanService.createTrackingPlan plan_with_login_B
         (quiet store_with_deleted_plan))
  = Ok (Failure {| code := "CREATE_TRACKING_PLAN_ERROR";
                   err_message := "duplicate key value violates unique constraint" |})
  /\ fst (TrackingPlanService.createTrackingPlan plan_with_login_B
            (failing_at 2 OpQuery "Connection terminated unexpectedly" empty_store))
     = Ok (Failure {| code := "CREATE_TRACKING_PLAN_ERROR";
                      err_message := "Connection terminated unexpectedly" |})
  /\ (forall r,
        fst (TrackingPlanController.createTrackingPlan plan_with_login_B
               (quiet store_with_deleted_plan)) = Ok r ->
        ~ classified_as_conflict r).
Proof.
  split; [vm_compute; reflexivity|].
  split; [vm_compute; reflexivity|].
  intros r Hr. vm_compute in Hr. inversion Hr. unfold classified_as_conflict.
  cbn. discriminate.
Qed.

(* ===================================================================== *)
(** ** Exceptions at the interface of the services *)
(* ===================================================================== *)

(** A method whose whole body is [try { ... } catch (error) { return
    failure }] returns a result whatever happens inside. *)
Lemma tryCatch_returns {A} (body : M (ServiceResponse A)) (code_ : string) (w : World) :
  exists r w', tryCatch body (fun error => ret (failure code_ error)) w = (Ok r, w').
Proof.
  unfold tryCatch. destruct (body w) as [[a|e] w1].
  - now exists a, w1.
  - now exists (failure code_ e), w1.
Qed.



















Lemma updateTrackingPlan_run (id : Id) (data : UpdateTrackingPlanDto) (w : World) :
  TrackingPlanService.updateTrackingPlan id data w =
  match fault w (clock w) OpConnect with
  | Some msg =>
      (Throw (storage_failure msg), tick (set_tx None (set_db (view Pool w) w)))
  | None =>
      match fault w (S (clock w)) OpStartTransaction with
      | Some msg =>
          (Throw (storage_failure msg),
           tick (tick (set_tx None (set_db (view Pool w) w))))
      | None =>
          tryCatchFinally (TrackingPlanService.updateTrackingPlan_try id data)
            (fun error =>
               QueryRunner.rollbackTransaction ;;
               ret (failure "UPDATE_TRACKING_PLAN_ERROR" error))
            QueryRunner.release (opened w)
      end
  end.
Proof.
  unfold TrackingPlanService.updateTrackingPlan, bind,
    QueryRunner.createQueryRunner, QueryRunner.connect,
    QueryRunner.startTransaction, external, ret.
  change (fault (set_tx None (set_db (view Pool w) w))) with (fault w).
  change (clock (set_tx None (set_db (view Pool w) w))) with (clock w).
  destruct (fault w (clock w) OpConnect); [reflexivity|].
  change (fault (tick (set_tx None (set_db (view Pool w) w)))) with (fault w).
  change (clock (tick (set_tx None (set_db (view Pool w) w)))) with (S (clock w)).
  destruct (fault w (S (clock w)) OpStartTransaction); reflexivity.
Qed.




(* ===================================================================== *)
(** ** Updating a tracking plan *)
(* ===================================================================== *)









Lemma findOne_fails {T} `{Entity T} (c : Conn) (p : T -> bool) (w : World)
    (msg : string) :
  fault w (clock w) OpQuery = Some msg ->
  Repository.findOne c p w = (Throw (storage_failure msg), tick w).
Proof. intros Hq. unfold Repository.findOne. now apply external_fails. Qed.


(** *** What the resolver of events returns *)

Lemma EventType_eqb_eq (a b : EventType) : EventType_eqb a b = true <-> a = b.
Proof. destruct a, b; cbn; split; intros H; congruence. Qed.

Lemma EventType_eqb_refl (t : EventType) : EventType_eqb t t = true.
Proof. now destruct t. Qed.

Lemma stored_event_sound (s : Store) (name : string) (type : EventType) (e : Event.t) :
  stored_event s name type = Some e ->
  In e (events s) /\ Event.name e = name /\ Event.type e = type
  /\ Event.is_deleted e = false.
Proof.
  unfold stored_event. intros H. apply find_some in H. destruct H as [Hin Hp].
  apply andb_true_iff in Hp. destruct Hp as [Hp Hlive].
  apply andb_true_iff in Hp. destruct Hp as [Hn Ht].
  apply String.eqb_eq in Hn. apply EventType_eqb_eq in Ht.
  apply negb_true_iff in Hlive. now repeat split.
Qed.

(** What a successful run of the resolver is: the lookup answered, and either
    it found the row that is returned and nothing was written, or it found
    nothing and the returned row was inserted at the end of the table. *)
Lemma findOrCreateEvent_Ok (data : CreateEventDto) (w : World) (e : Event.t)
    (w' : World) :
  EventService.findOrCreateEvent data w = (Ok e, w') ->
  (stored_event (view Pool w) (ce_name data) (ce_type data) = Some e
   /\ Event.description e = ce_description data
   /\ w' = tick w)
  \/ (stored_event (view Pool w) (ce_name data) (ce_type data) = None
      /\ (exists t, e = EventService.new_event data t (next_id (db w)) (now w)
                    /\ (ce_create_time data = Some t
                        \/ ce_create_time data = None /\ t = now w))
      /\ event_key_taken (view Pool w) (ce_name data) (ce_type data) = false
      /\ w' = write Pool (insert_row e) (tick (tick w))).
Proof.
  unfold EventService.findOrCreateEvent. intros H.
  apply bind_Ok in H. destruct H as [found [w1 [Hfind Hrest]]].
  destruct (fault w (clock w) OpQuery) eqn:Hq.
  { unfold EventRepository.findByNameAndType, Repository.findOne, external in Hfind.
    rewrite Hq in Hfind. discriminate. }
  rewrite event_lookup_runs in Hfind by assumption.
  assert (Hw1 : w1 = tick w) by congruence.
  assert (Hfound : found = stored_event (view Pool w) (ce_name data) (ce_type data))
    by congruence.
  clear Hfind. subst w1 found.
  destruct (stored_event (view Pool w) (ce_name data) (ce_type data))
    as [existing|] eqn:Hstored.
  - left.
    destruct (Event.description existing =? ce_description data) eqn:Hd;
      cbn [negb] in Hrest; [|cbv beta iota delta [throw] in Hrest; discriminate].
    apply ret_Ok in Hrest. destruct Hrest as [-> <-].
    apply String.eqb_eq in Hd. now repeat split.
  - right. split; [reflexivity|].
    apply bind_Ok in Hrest. destruct Hrest as [t [w2 [Hnow Hrest]]].
    assert (Ht : w2 = tick w
                 /\ (ce_create_time data = Some t
                     \/ ce_create_time data = None /\ t = now w)).
    { unfold or_now in Hnow. destruct (ce_create_time data) as [t0|].
      - apply ret_Ok in Hnow. destruct Hnow as [-> <-]. split; [reflexivity|now left].
      - unfold new_Date in Hnow. split; [congruence|]. right. split; [reflexivity|].
        cbn in Hnow. congruence. }
    destruct Ht as [-> Ht].
    apply save_cases in Hrest.
    destruct Hrest as [[[err He] _] | [Hrow [-> Hfresh]]]; [discriminate|].
    assert (He : e = EventService.new_event data t (next_id (db w)) (now w))
      by (cbn [db tick now] in Hrow; congruence).
    rewrite view_tick in Hfresh. cbn [db tick now] in Hfresh.
    split; [exists t; now split|].
    split; [|now rewrite He].
    unfold event_key_taken. exact Hfresh.
Qed.

Lemma findOrCreateEvent_resolves (data : CreateEventDto) (w : World) (e : Event.t)
    (w' : World) :
  EventService.findOrCreateEvent data w = (Ok e, w') ->
  stored_event (view Pool w') (ce_name data) (ce_type data) = Some e
  /\ Event.description e = ce_description data.
Proof.
  intros H. apply findOrCreateEvent_Ok in H.
  destruct H as [[Hs [Hd ->]] | [Hs [[t [-> _]] [_ ->]]]].
  - rewrite view_tick. now split.
  - split; [|reflexivity].
    rewrite view_write_pool, !view_tick.
    unfold stored_event in *.
    cbn [insert_row bump events set_table table Event_Entity].
    rewrite (find_app_none _ _ _ Hs). cbn.
    now rewrite String.eqb_refl, EventType_eqb_refl.
Qed.

(** *** The links that an update writes *)

Lemma update_Ok {T} `{Entity T} (c : Conn) (crit : T -> bool) (patch : T -> T)
    (w : World) (n : nat) (w' : World) :
  Repository.update c crit patch w = (Ok n, w') ->
  w' = write c (apply_update crit patch (now w)) (tick w).
Proof.
  unfold Repository.update, external.
  destruct (fault w (clock w) OpQuery); [discriminate|].
  destruct (update_clashes _ _ _); [discriminate|].
  intros Hu. cbn [now tick] in Hu. congruence.
Qed.

Lemma extends_refl (s : Store) : extends s s.
Proof.
  unfold extends.
  split; [|split; [|split; [|split]]]; exists []; now rewrite app_nil_r.
Qed.

Lemma extends_trans (a b c : Store) : extends a b -> extends b c -> extends a c.
Proof.
  intros [[p1 H1] [[e1 H2] [[q1 H3] [[l1 H4] [k1 H5]]]]]
         [[p2 G1] [[e2 G2] [[q2 G3] [[l2 G4] [k2 G5]]]]].
  unfold extends.
  split; [|split; [|split; [|split]]].
  - exists (p1 ++ p2)%list. now rewrite G1, H1, app_assoc.
  - exists (e1 ++ e2)%list. now rewrite G2, H2, app_assoc.
  - exists (q1 ++ q2)%list. now rewrite G3, H3, app_assoc.
  - exists (l1 ++ l2)%list. now rewrite G4, H4, app_assoc.
  - exists (k1 ++ k2)%list. now rewrite G5, H5, app_assoc.
Qed.

Ltac extends_by_insert row :=
  unfold extends, insert_row; cbn;
  split; [|split; [|split; [|split]]];
  first [ now exists [as_stored row] | exists []; now rewrite app_nil_r ].

Lemma extends_insert_plan (row : TrackingPlan.t) (s : Store) :
  extends s (insert_row row s).
Proof. extends_by_insert row. Qed.

Lemma extends_insert_event (row : Event.t) (s : Store) :
  extends s (insert_row row s).
Proof. extends_by_insert row. Qed.

Lemma extends_insert_property (row : Property.t) (s : Store) :
  extends s (insert_row row s).
Proof. extends_by_insert row. Qed.

Lemma extends_insert_link (row : TrackingPlanEvent.t) (s : Store) :
  extends s (insert_row row s).
Proof. extends_by_insert row. Qed.

Lemma extends_insert_property_link (row : EventProperty.t) (s : Store) :
  extends s (insert_row row s).
Proof. extends_by_insert row. Qed.




























Lemma deleteTrackingPlan_frame_witness :
  events (db (snd (TrackingPlanService.deleteTrackingPlan 1 (quiet catalog_store))))
  = events catalog_store
  /\ properties (db (snd (TrackingPlanService.deleteTrackingPlan 1 (quiet catalog_store))))
     = properties catalog_store
  /\ tracking_plan_events
       (db (snd (TrackingPlanService.deleteTrackingPlan 1 (quiet catalog_store))))
     = tracking_plan_events catalog_store
  /\ event_properties
       (db (snd (TrackingPlanService.deleteTrackingPlan 1 (quiet catalog_store))))
     = event_properties catalog_store
  /\ ((fst (TrackingPlanService.deleteTrackingPlan 1 (quiet catalog_store))
       = Ok (Success tt)
       /\ tracking_plans
            (db (snd (TrackingPlanService.deleteTrackingPlan 1 (quiet catalog_store))))
          = map (fun p => if (TrackingPlan.id p =? 1)%nat
                          then soft_deleted 100 p else p)
              (tracking_plans catalog_store))
      \/ ((exists error,
              fst (TrackingPlanService.deleteTrackingPlan 1 (quiet catalog_store))
              = Ok (Failure error))
          /\ tracking_plans
               (db (snd (TrackingPlanService.deleteTrackingPlan 1
                           (quiet catalog_store))))
             = tracking_plans catalog_store)).
Proof.
  apply (deleteTrackingPlan_frame 1 (quiet catalog_store)
           (TrackingPlan.mk 1 "Checkout" "Purchase funnel" 50 50 false None)).
  reflexivity.
Defined.

(* ===================================================================== *)
(** ** More on the identity resolver of events *)
(* ===================================================================== *)

(** X1.  The event that the resolver returns has the name, the type and the
    description of the candidate and is not deleted, and from then on the
    identity lookup of the candidate finds it. *)
Theorem findOrCreateEvent_returns_the_candidate :
  forall (data : CreateEventDto) (w w' : World) (e : Event.t),
    EventService.findOrCreateEvent data w = (Ok e, w') ->
    Event.name e = ce_name data
    /\ Event.type e = ce_type data
    /\ Event.description e = ce_description data
    /\ Event.is_deleted e = false
    /\ stored_event (view Pool w') (ce_name data) (ce_type data) = Some e.
Proof.
  intros data w w' e H. apply findOrCreateEvent_resolves in H.
  destruct H as [Hs Hd].
  destruct (stored_event_sound _ _ _ _ Hs) as [_ [Hn [Ht Hl]]].
  now repeat split.
Qed.

Lemma findOrCreateEvent_returns_the_candidate_witness :
  exists w' e,
    EventService.findOrCreateEvent (login_candidate "A") (quiet empty_store) = (Ok e, w')
    /\ Event.name e = "Login" /\ Event.type e = TRACK /\ Event.description e = "A"
    /\ Event.is_deleted e = false
    /\ stored_event (view Pool w') "Login" TRACK = Some e.
Proof.
  eexists. eexists. split; [vm_compute; reflexivity|].
  eapply (findOrCreateEvent_returns_the_candidate (login_candidate "A")
            (quiet empty_store)).
  vm_compute. reflexivity.
Defined.

(** X2.  Resolving the same candidate again, when the lookup answers, returns
    the same row and writes nothing: no second row is created for the
    identity. *)
Theorem findOrCreateEvent_twice :
  forall (data : CreateEventDto) (w w1 : World) (e : Event.t),
    EventService.findOrCreateEvent data w = (Ok e, w1) ->
    fault w1 (clock w1) OpQuery = None ->
    EventService.findOrCreateEvent data w1 = (Ok e, tick w1).
Proof.
  intros data w w1 e H Hq. apply findOrCreateEvent_resolves in H.
  destruct H as [Hs Hd].
  unfold EventService.findOrCreateEvent, bind.
  rewrite event_lookup_runs, Hs by assumption.
  now rewrite Hd, String.eqb_refl.
Qed.

Lemma findOrCreateEvent_twice_witness :
  exists w1 e,
    EventService.findOrCreateEvent (login_candidate "A") (quiet empty_store) = (Ok e, w1)
    /\ EventService.findOrCreateEvent (login_candidate "A") w1 = (Ok e, tick w1).
Proof.
  eexists. eexists. split; [vm_compute; reflexivity|].
  eapply (findOrCreateEvent_twice (login_candidate "A") (quiet empty_store));
    [vm_compute; reflexivity | reflexivity].
Defined.

Lemma new_event_clash (data : CreateEventDto) (t : Date) (i : Id) (d : Date)
    (s : Store) :
  existsb (unique_clash (EventService.new_event data t i d)) (table s)
  = event_key_taken s (ce_name data) (ce_type data).
Proof. reflexivity. Qed.

(** X3.  An identity whose only rows are soft-deleted cannot be created
    again: the lookup, which skips deleted rows, finds nothing, the insert
    violates the unique index on name and type, and the resolver throws the
    duplicate-key failure without a write. *)
Theorem findOrCreateEvent_deleted_identity :
  forall (data : CreateEventDto) (w : World),
    fault w (clock w) OpQuery = None ->
    fault w (S (clock w)) OpQuery = None ->
    stored_event (view Pool w) (ce_name data) (ce_type data) = None ->
    event_key_taken (view Pool w) (ce_name data) (ce_type data) = true ->
    EventService.findOrCreateEvent data w = (Throw duplicate_key_error, tick (tick w)).
Proof.
  intros data w Hq1 Hq2 Hs Hk.
  unfold EventService.findOrCreateEvent, bind.
  rewrite event_lookup_runs, Hs by assumption.
  destruct (ce_create_time data) as [t|] eqn:Ht; cbn [or_now ret new_Date];
    unfold BaseRepository.create, Repository.save, external;
    cbn [fault clock tick]; rewrite Hq2, !view_tick;
    rewrite new_event_clash, Hk; reflexivity.
Qed.

Lemma findOrCreateEvent_deleted_identity_witness :
  EventService.findOrCreateEvent (login_candidate "A") (quiet store_with_deleted_login)
  = (Throw duplicate_key_error, tick (tick (quiet store_with_deleted_login))).
Proof.
  apply (findOrCreateEvent_deleted_identity (login_candidate "A")
           (quiet store_with_deleted_login)); reflexivity.
Defined.

(* ===================================================================== *)
(** ** Creating, reading and deleting an event *)
(* ===================================================================== *)

Lemma tryCatch_Success {A} (body : M (ServiceResponse A)) (code_ : string)
    (w : World) (v : A) (w' : World) :
  tryCatch body (fun error => ret (failure code_ error)) w = (Ok (Success v), w') ->
  body w = (Ok (Success v), w').
Proof.
  unfold tryCatch. destruct (body w) as [[r|e] w1]; intros H.
  - exact H.
  - unfold ret, failure in H. discriminate.
Qed.

Lemma find_map_none {A} (p : A -> bool) (f : A -> A) (l : list A) :
  (forall x, p (f x) = false) -> find p (map f l) = None.
Proof.
  intros Hp. induction l as [|x l IH]; cbn; [reflexivity|].
  now rewrite Hp.
Qed.

Lemma find_none_of_Forall {A} (p : A -> bool) (l : list A) :
  Forall (fun x => p x = false) l -> find p l = None.
Proof.
  induction 1 as [|x l Hx _ IH]; cbn; [reflexivity|]. now rewrite Hx.
Qed.

Lemma findById_event_runs (id : Id) (w : World) :
  fault w (clock w) OpQuery = None ->
  BaseRepository.findById id w
  = (Ok (find (fun e => (Event.id e =? id)%nat && negb (Event.is_deleted e))
           (events (view Pool w))), tick w).
Proof. intros Hq. unfold BaseRepository.findById. now rewrite findOne_runs. Qed.

(** X4.  [createEvent] for a name and type that a non-deleted event already
    has returns the failure with the message "Event 'name:type' already
    exists" and writes nothing. *)
Theorem createEvent_existing_identity :
  forall (data : CreateEventDto) (w : World) (existing : Event.t),
    fault w (clock w) OpQuery = None ->
    stored_event (view Pool w) (ce_name data) (ce_type data) = Some existing ->
    EventService.createEvent data w
    = (Ok (Failure
             {| code := "CREATE_EVENT_ERROR";
                err_message :=
                  "Event '" ++ ce_name data ++ ":" ++ EventType_value (ce_type data)
                  ++ "' already exists" |}),
       tick w).
Proof.
  intros data w existing Hq Hs.
  unfold EventService.createEvent, tryCatch, bind.
  rewrite event_lookup_runs, Hs by assumption.
  unfold throw, ret, failure, new_UniqueConstraintError. cbn [message].
  rewrite !append_assoc. reflexivity.
Qed.

Lemma createEvent_existing_identity_witness :
  EventService.createEvent (login_candidate "B") (quiet store_with_login)
  = (Ok (Failure {| code := "CREATE_EVENT_ERROR";
                    err_message := "Event 'Login:track' already exists" |}),
     tick (quiet store_with_login)).
Proof.
  apply (createEvent_existing_identity (login_candidate "B")
           (quiet store_with_login) login_A); reflexivity.
Defined.

Lemma createEvent_Success (data : CreateEventDto) (w : World) (e : Event.t)
    (w' : World) :
  EventService.createEvent data w = (Ok (Success e), w') ->
  stored_event (view Pool w) (ce_name data) (ce_type data) = None
  /\ (exists t, e = EventService.new_event data t (next_id (db w)) (now w))
  /\ event_key_taken (view Pool w) (ce_name data) (ce_type data) = false
  /\ w' = write Pool (insert_row e) (tick (tick w)).
Proof.
  unfold EventService.createEvent. intros H. apply tryCatch_Success in H.
  apply bind_Ok in H. destruct H as [found [w1 [Hfind Hrest]]].
  destruct (fault w (clock w) OpQuery) eqn:Hq.
  { unfold EventRepository.findByNameAndType, Repository.findOne, external in Hfind.
    rewrite Hq in Hfind. discriminate. }
  rewrite event_lookup_runs in Hfind by assumption.
  assert (Hw1 : w1 = tick w) by congruence.
  assert (Hfound : found = stored_event (view Pool w) (ce_name data) (ce_type data))
    by congruence.
  clear Hfind. subst w1 found.
  destruct (stored_event (view Pool w) (ce_name data) (ce_type data))
    as [existing|] eqn:Hstored;
    [cbv beta iota delta [throw] in Hrest; discriminate|].
  split; [reflexivity|].
  apply bind_Ok in Hrest. destruct Hrest as [t [w2 [Hnow Hrest]]].
  apply or_now_pure in Hnow. destruct Hnow as [-> _].
  apply bind_Ok in Hrest. destruct Hrest as [row [w3 [Hsave Hret]]].
  apply ret_Ok in Hret. destruct Hret as [Hrow <-].
  apply save_cases in Hsave.
  destruct Hsave as [[[err He] _] | [Hr [-> Hfresh]]]; [discriminate|].
  assert (He : e = EventService.new_event data t (next_id (db w)) (now w))
    by (cbn [db tick now] in Hr; congruence).
  rewrite view_tick in Hfresh. cbn [db tick now] in Hfresh.
  rewrite new_event_clash in Hfresh.
  split; [now exists t|]. split; [exact Hfresh|].
  now rewrite He.
Qed.

(** X5.  When [createEvent] succeeds, the row it returns has been added at
    the end of the table of events and carries the data of the request; and
    when all ids in the table were issued by the store, [getEventById] with
    the id of the row returns that row. *)
Theorem createEvent_then_getEventById :
  forall (data : CreateEventDto) (w w' : World) (e : Event.t),
    EventService.createEvent data w = (Ok (Success e), w') ->
    event_ids_issued w ->
    fault w' (clock w') OpQuery = None ->
    events (db w') = (events (db w) ++ [e])%list
    /\ Event.name e = ce_name data
    /\ Event.type e = ce_type data
    /\ Event.description e = ce_description data
    /\ EventService.getEventById (Event.id e) w' = (Ok (Success e), tick w').
Proof.
  intros data w w' e H Hids Hq.
  apply createEvent_Success in H. destruct H as [_ [[t He] [_ Hw']]].
  split; [subst w'; reflexivity|].
  split; [now subst e|]. split; [now subst e|]. split; [now subst e|].
  unfold EventService.getEventById, tryCatch, bind.
  rewrite findById_event_runs by assumption.
  assert (Hview : events (view Pool w') = (events (view Pool w) ++ [e])%list).
  { subst w'. rewrite view_write_pool, !view_tick. reflexivity. }
  rewrite Hview.
  rewrite find_app_none.
  - cbn. rewrite Nat.eqb_refl. subst e. reflexivity.
  - apply find_none_of_Forall. unfold event_ids_issued in Hids.
    revert Hids. apply Forall_impl. intros x Hx.
    assert (Hid : Event.id e = next_id (db w)) by now subst e.
    rewrite Hid. apply andb_false_intro1. apply Nat.eqb_neq. lia.
Qed.

Lemma createEvent_then_getEventById_witness :
  exists w' e,
    EventService.createEvent (login_candidate "A") (quiet empty_store)
    = (Ok (Success e), w')
    /\ events (db w') = [e]
    /\ Event.name e = "Login" /\ Event.type e = TRACK /\ Event.description e = "A"
    /\ EventService.getEventById (Event.id e) w' = (Ok (Success e), tick w').
Proof.
  eexists. eexists. split; [vm_compute; reflexivity|].
  eapply (createEvent_then_getEventById (login_candidate "A") (quiet empty_store));
    [vm_compute; reflexivity | constructor | reflexivity].
Defined.

Lemma deleteEvent_Success (id : Id) (w w' : World) :
  EventService.deleteEvent id w = (Ok (Success tt), w') ->
  exists d w1,
    w' = write Pool
           (apply_update (fun e : Event.t => (Event.id e =? id)%nat) (mark_deleted d)
              (now w1)) (tick w1).
Proof.
  unfold EventService.deleteEvent. intros H. apply tryCatch_Success in H.
  apply bind_Ok in H. destruct H as [found [w1 [_ Hrest]]].
  destruct found as [e|]; [|cbv beta iota delta [throw] in Hrest; discriminate].
  apply bind_Ok in Hrest. destruct Hrest as [b [w2 [Hdel Hret]]].
  apply ret_Ok in Hret. destruct Hret as [_ <-].
  unfold BaseRepository.softDelete in Hdel.
  apply bind_Ok in Hdel. destruct Hdel as [d [w3 [Hd Hdel]]].
  assert (Hw3 : w3 = w1) by (unfold new_Date in Hd; congruence). subst w3.
  apply bind_Ok in Hdel. destruct Hdel as [n [w4 [Hupd Hret]]].
  apply ret_Ok in Hret. destruct Hret as [_ <-].
  apply update_Ok in Hupd. now exists d, w1.
Qed.

(** X6.  After [deleteEvent] has succeeded for an id, [getEventById] with
    that id, when its lookup answers, returns the failure "Event not found":
    every row with the id is soft-deleted and the lookup skips it. *)
Theorem deleteEvent_then_getEventById :
  forall (id : Id) (w w' : World),
    EventService.deleteEvent id w = (Ok (Success tt), w') ->
    fault w' (clock w') OpQuery = None ->
    EventService.getEventById id w'
    = (Ok (Failure {| code := "GET_EVENT_ERROR"; err_message := "Event not found" |}),
       tick w').
Proof.
  intros id w w' H Hq.
  apply deleteEvent_Success in H. destruct H as [d [w1 ->]].
  unfold EventService.getEventById, tryCatch, bind.
  rewrite findById_event_runs by assumption.
  rewrite view_write_pool.
  cbn [apply_update events set_table table Event_Entity].
  rewrite find_map_none; [reflexivity|].
  intros x. destruct (Event.id x =? id)%nat eqn:Hid.
  - cbn. now rewrite andb_false_r.
  - now rewrite Hid.
Qed.

Lemma deleteEvent_then_getEventById_witness :
  exists w',
    EventService.deleteEvent 1 (quiet store_with_login) = (Ok (Success tt), w')
    /\ EventService.getEventById 1 w'
       = (Ok (Failure {| code := "GET_EVENT_ERROR"; err_message := "Event not found" |}),
          tick w').
Proof.
  eexists. split; [vm_compute; reflexivity|].
  eapply (deleteEvent_then_getEventById 1 (quiet store_with_login));
    [vm_compute; reflexivity | reflexivity].
Defined.

(* ===================================================================== *)
(** ** Pagination of the list methods *)
(* ===================================================================== *)

Lemma slice_length {A} (xs : list A) (a n : Z) :
  (0 <= n)%Z ->
  length (slice xs a (a + n)) <= Z.to_nat n.
Proof.
  intros Hn. unfold slice. cbv zeta beta. rewrite length_firstn.
  destruct (a <? 0)%Z eqn:Ha, (a + n <? 0)%Z eqn:He;
    try apply Z.ltb_lt in Ha; try apply Z.ltb_ge in Ha;
    try apply Z.ltb_lt in He; try apply Z.ltb_ge in He; lia.
Qed.

Lemma slice_incl {A} (xs : list A) (a b : Z) (x : A) :
  In x (slice xs a b) -> In x xs.
Proof.
  unfold slice. cbv zeta beta. intros H.
  set (i := Z.to_nat _) in H. set (k := Z.to_nat _) in H.
  rewrite <- (firstn_skipn k xs). apply in_or_app. right.
  rewrite <- (firstn_skipn i (skipn k xs)). apply in_or_app. now left.
Qed.

Lemma slice_regular {A} (xs : list A) (a n : Z) :
  (0 <= a)%Z -> (0 <= n)%Z ->
  slice xs a (a + n) = firstn (Z.to_nat n) (skipn (Z.to_nat a) xs).
Proof.
  intros Ha Hn. unfold slice. cbv zeta beta.
  destruct (a <? 0)%Z eqn:Ea; [apply Z.ltb_lt in Ea; lia|].
  destruct (a + n <? 0)%Z eqn:Ee; [apply Z.ltb_lt in Ee; lia|].
  destruct (Z_le_gt_dec a (Z.of_nat (length xs))) as [Hle|Hgt].
  - rewrite (Z.min_l a) by lia.
    destruct (Z_le_gt_dec (a + n) (Z.of_nat (length xs))) as [Hle2|Hgt2].
    + rewrite Z.min_l by lia. f_equal. lia.
    + rewrite Z.min_r by lia.
      rewrite (firstn_all2 (n := Z.to_nat n)) by (rewrite length_skipn; lia).
      apply firstn_all2. rewrite length_skipn. lia.
  - rewrite !Z.min_r by lia.
    rewrite !skipn_all2 by lia. now rewrite !firstn_nil.
Qed.

(** X7.  Whatever page is asked for, zero and negative numbers included,
    and for every limit that is not negative, the page that [paginate]
    returns has at most [limit] items, all of them items of the list, and
    the reported total is the length of the whole list. *)
Theorem paginate_page_size :
  forall (A : Type) (xs : list A) (pagination : PaginationOptions),
    (0 <= pg_limit (snd (paginate xs pagination)))%Z ->
    length (fst (paginate xs pagination))
    <= Z.to_nat (pg_limit (snd (paginate xs pagination)))
    /\ (forall x, In x (fst (paginate xs pagination)) -> In x xs)
    /\ pg_total (snd (paginate xs pagination)) = Z.of_nat (length xs).
Proof.
  intros A xs pagination. unfold paginate. cbn [fst snd pg_limit pg_total].
  intros Hlimit.
  split; [now apply slice_length|]. split; [|reflexivity].
  intros x. apply slice_incl.
Qed.

Lemma paginate_page_size_witness :
  length (fst (paginate [10; 20; 30; 40; 50] {| page := Some 0%Z; limit := Some 2%Z |}))
  <= 2
  /\ (forall x,
         In x (fst (paginate [10; 20; 30; 40; 50]
                      {| page := Some 0%Z; limit := Some 2%Z |})) ->
         In x [10; 20; 30; 40; 50])
  /\ pg_total (snd (paginate [10; 20; 30; 40; 50]
                      {| page := Some 0%Z; limit := Some 2%Z |})) = 5%Z.
Proof.
  apply (paginate_page_size nat [10; 20; 30; 40; 50]
           {| page := Some 0%Z; limit := Some 2%Z |}).
  cbn. lia.
Defined.

Lemma page_items_regular {A} (xs : list A) (size p : Z) :
  (1 <= size)%Z -> (1 <= p)%Z ->
  page_items xs size p
  = firstn (Z.to_nat size) (skipn (Z.to_nat ((p - 1) * size)) xs).
Proof.
  intros Hsize Hp. unfold page_items, paginate. cbn [fst page limit].
  apply slice_regular; nia.
Qed.

Lemma page_count_regular {A} (xs : list A) (size : Z) :
  (1 <= size)%Z ->
  exists n,
    page_count xs size = Some n
    /\ (size * (n - 1) < Z.of_nat (length xs) <= size * n)%Z.
Proof.
  intros Hsize. exists (- (- Z.of_nat (length xs) / size))%Z. split.
  - unfold page_count, paginate, ceil_div. cbn [snd pg_pages limit].
    destruct (size =? 0)%Z eqn:E; [apply Z.eqb_eq in E; lia | reflexivity].
  - pose proof (Z.div_mod (- Z.of_nat (length xs)) size ltac:(lia)) as Hdm.
    pose proof (Z.mod_pos_bound (- Z.of_nat (length xs)) size ltac:(lia)) as Hm.
    nia.
Qed.

(** X8.  For a page number of at least 1 and a limit of at least 1, the page
    holds the [limit] items that follow the first [(page - 1) * limit] items
    of the list; the number of pages [n] that is reported is the least with
    [total <= limit * n]; and a page after the last one is empty. *)
Theorem paginate_regular_page :
  forall (A : Type) (xs : list A) (size p : Z),
    (1 <= size)%Z ->
    (1 <= p)%Z ->
    page_items xs size p
    = firstn (Z.to_nat size) (skipn (Z.to_nat ((p - 1) * size)) xs)
    /\ exists n,
         page_count xs size = Some n
         /\ (size * (n - 1) < Z.of_nat (length xs) <= size * n)%Z
         /\ ((n < p)%Z -> page_items xs size p = []).
Proof.
  intros A xs size p Hsize Hp.
  split; [now apply page_items_regular|].
  destruct (page_count_regular xs size Hsize) as [n [Hn Hbounds]].
  exists n. split; [exact Hn|]. split; [exact Hbounds|].
  intros Hlast. rewrite page_items_regular by assumption.
  rewrite skipn_all2; [apply firstn_nil|]. nia.
Qed.

Lemma paginate_regular_page_witness :
  page_items [10; 20; 30; 40; 50] 2 3 = firstn 2 (skipn 4 [10; 20; 30; 40; 50])
  /\ exists n,
       page_count [10; 20; 30; 40; 50] 2 = Some n
       /\ (2 * (n - 1) < 5 <= 2 * n)%Z
       /\ ((n < 3)%Z -> page_items [10; 20; 30; 40; 50] 2 3 = []).
Proof.
  apply (paginate_regular_page nat [10; 20; 30; 40; 50] 2 3); lia.
Defined.

Lemma firstn_add {A} (a b : nat) (l : list A) :
  firstn (a + b) l = (firstn a l ++ firstn b (skipn a l))%list.
Proof.
  revert l. induction a as [|a IH]; intros l; [reflexivity|].
  destruct l as [|x l]; cbn [Nat.add firstn skipn app].
  - now rewrite firstn_nil.
  - now rewrite IH.
Qed.

Lemma pages_upto_firstn {A} (xs : list A) (size : Z) (k : nat) :
  (1 <= size)%Z ->
  pages_upto xs size k = firstn (k * Z.to_nat size) xs.
Proof.
  intros Hsize. induction k as [|k IH]; [reflexivity|].
  cbn [pages_upto]. rewrite IH.
  rewrite page_items_regular by lia.
  replace (Z.to_nat ((Z.of_nat (S k) - 1) * size)) with (k * Z.to_nat size) by nia.
  replace (S k * Z.to_nat size) with (k * Z.to_nat size + Z.to_nat size) by lia.
  now rewrite firstn_add.
Qed.

(** X9.  For a limit of at least 1, reading the pages from 1 to the reported
    number of pages, one after the other, gives back the whole list, each
    item once and in order. *)
Theorem paginate_pages_cover_the_list :
  forall (A : Type) (xs : list A) (size n : Z),
    (1 <= size)%Z ->
    page_count xs size = Some n ->
    pages_upto xs size (Z.to_nat n) = xs.
Proof.
  intros A xs size n Hsize Hn.
  destruct (page_count_regular xs size Hsize) as [n' [Hn' Hbounds]].
  assert (n' = n) by congruence. subst n'.
  rewrite pages_upto_firstn by assumption.
  apply firstn_all2. nia.
Qed.

Lemma paginate_pages_cover_the_list_witness :
  pages_upto [10; 20; 30; 40; 50] 2 (Z.to_nat 3) = [10; 20; 30; 40; 50].
Proof.
  apply (paginate_pages_cover_the_list nat [10; 20; 30; 40; 50] 2 3);
    [lia | reflexivity].
Defined.

(* ===================================================================== *)
(** ** Requests that the orchestrator refuses before it writes *)
(* ===================================================================== *)

(** When the [try] block of a transactional method throws without having
    written, the database is afterwards what the pool had committed, the
    method does not succeed, and it returns the failure result when the
    rollback and the release answer. *)
Lemma guarded_refusal {A} (body : M (ServiceResponse A)) (code_ : string)
    (w : World) (e : Error) (wt : World) :
  body (opened w) = (Throw e, wt) ->
  db wt = db (opened w) ->
  tx wt = tx (opened w) ->
  fault wt = fault (opened w) ->
  let run :=
    tryCatchFinally body
      (fun error => QueryRunner.rollbackTransaction ;; ret (failure code_ error))
      QueryRunner.release (opened w) in
  db (snd run) = view Pool w
  /\ (forall v, fst run <> Ok (Success v))
  /\ (reliable w OpRollback -> reliable w OpRelease ->
      fst run = Ok (failure code_ e)).
Proof.
  intros Hbody Hdb Htx Hf run. subst run.
  rewrite (guarded_run _ _ _ _ _ Hbody).
  unfold rolled_back. rewrite Htx, Hf.
  change (tx (opened w)) with (Some (view Pool w)).
  change (fault (opened w)) with (fault w).
  cbv beta iota.
  destruct (fault w (clock wt) OpRollback) as [msg|] eqn:Hrb.
  - rewrite released_world. cbn [db tick]. rewrite Hdb.
    split; [reflexivity|]. split.
    + intros v Hok. apply released_result in Hok. discriminate.
    + intros Hrb' _. rewrite Hrb' in Hrb. discriminate.
  - rewrite released_world. split; [reflexivity|]. split.
    + intros v Hok. apply released_result in Hok. discriminate.
    + intros _ Hrl.
      rewrite released_reliable
        by (cbn [fault clock set_tx set_db tick]; rewrite Hf; apply Hrl).
      reflexivity.
Qed.

(** The same, from the call of the method itself. *)
Lemma refusal_of_run {A} (run : Outcome (ServiceResponse A) * World)
    (body : M (ServiceResponse A)) (code_ : string) (w : World) (e : Error)
    (wt : World) :
  run = match fault w (clock w) OpConnect with
        | Some msg =>
            (Throw (storage_failure msg), tick (set_tx None (set_db (view Pool w) w)))
        | None =>
            match fault w (S (clock w)) OpStartTransaction with
            | Some msg =>
                (Throw (storage_failure msg),
                 tick (tick (set_tx None (set_db (view Pool w) w))))
            | None =>
                tryCatchFinally body
                  (fun error =>
                     QueryRunner.rollbackTransaction ;; ret (failure code_ error))
                  QueryRunner.release (opened w)
            end
        end ->
  body (opened w) = (Throw e, wt) ->
  db wt = db (opened w) ->
  tx wt = tx (opened w) ->
  fault wt = fault (opened w) ->
  db (snd run) = view Pool w
  /\ (forall v, fst run <> Ok (Success v))
  /\ (runner_answers w -> fst run = Ok (failure code_ e)).
Proof.
  intros Hrun Hbody Hdb Htx Hf. subst run.
  destruct (fault w (clock w) OpConnect) as [msg|] eqn:Hc.
  { repeat split; try discriminate.
    intros (Hc' & _). rewrite Hc' in Hc. discriminate. }
  destruct (fault w (S (clock w)) OpStartTransaction) as [msg|] eqn:Hs.
  { repeat split; try discriminate.
    intros (_ & Hs' & _). rewrite Hs' in Hs. discriminate. }
  destruct (guarded_refusal body code_ w e wt Hbody Hdb Htx Hf) as [H1 [H2 H3]].
  split; [exact H1|]. split; [exact H2|].
  intros (_ & _ & Hrb & Hrl). now apply H3.
Qed.

Lemma plan_name_lookup_runs (name : string) (w : World) :
  fault w (clock w) OpQuery = None ->
  TrackingPlanRepository.findByName name w
  = (Ok (plan_named (view Pool w) name), tick w).
Proof. intros Hq. unfold TrackingPlanRepository.findByName. now rewrite findOne_runs. Qed.

Lemma createTrackingPlan_try_name_live (data : CreateTrackingPlanDto) (w : World)
    (existing : TrackingPlan.t) :
  plan_named (view Pool w) (ctp_name data) = Some existing ->
  exists e wt,
    TrackingPlanService.createTrackingPlan_try data w = (Throw e, wt)
    /\ db wt = db w /\ tx wt = tx w /\ fault wt = fault w
    /\ (reliable w OpQuery ->
        e = new_UniqueConstraintError "TrackingPlan" (ctp_name data)).
Proof.
  intros Hplan. unfold TrackingPlanService.createTrackingPlan_try, bind.
  destruct (fault w (clock w) OpQuery) as [msg|] eqn:Hq.
  { unfold TrackingPlanRepository.findByName.
    rewrite (findOne_fails _ _ _ msg Hq).
    exists (storage_failure msg), (tick w). repeat split.
    intros Hr. rewrite Hr in Hq. discriminate. }
  rewrite plan_name_lookup_runs, Hplan by assumption.
  exists (new_UniqueConstraintError "TrackingPlan" (ctp_name data)), (tick w).
  repeat split.
Qed.

(** X10.  A create-tracking-plan request whose name a non-deleted plan
    already has never succeeds and leaves the database as the pool had it;
    when the calls to the database answer, the result is the failure with
    the message "TrackingPlan 'name' already exists". *)
Theorem createTrackingPlan_name_taken :
  forall (data : CreateTrackingPlanDto) (w : World) (existing : TrackingPlan.t),
    plan_named (view Pool w) (ctp_name data) = Some existing ->
    let run := TrackingPlanService.createTrackingPlan data w in
    db (snd run) = view Pool w
    /\ (forall resp, fst run <> Ok (Success resp))
    /\ (runner_answers w -> reliable w OpQuery ->
        fst run
        = Ok (Failure
                {| code := "CREATE_TRACKING_PLAN_ERROR";
                   err_message := "TrackingPlan '" ++ ctp_name data ++ "' already exists" |})).
Proof.
  intros data w existing Hplan run.
  destruct (createTrackingPlan_try_name_live data (opened w) existing Hplan)
    as [e [wt [Htry [Hdb [Htx [Hf He]]]]]].
  destruct (refusal_of_run run _ "CREATE_TRACKING_PLAN_ERROR" w e wt
              (createTrackingPlan_run data w) Htry Hdb Htx Hf) as [H1 [H2 H3]].
  split; [exact H1|]. split; [exact H2|].
  intros Hr Hq. rewrite (H3 Hr), (He Hq). reflexivity.
Qed.

Lemma createTrackingPlan_name_taken_witness :
  db (snd (TrackingPlanService.createTrackingPlan
             {| ctp_name := "Checkout"; ctp_description := "Again";
                ctp_events := refund_events; ctp_create_time := None |}
             (quiet catalog_store)))
  = catalog_store
  /\ (forall resp,
         fst (TrackingPlanService.createTrackingPlan
                {| ctp_name := "Checkout"; ctp_description := "Again";
                   ctp_events := refund_events; ctp_create_time := None |}
                (quiet catalog_store)) <> Ok (Success resp))
  /\ fst (TrackingPlanService.createTrackingPlan
            {| ctp_name := "Checkout"; ctp_description := "Again";
               ctp_events := refund_events; ctp_create_time := None |}
            (quiet catalog_store))
     = Ok (Failure {| code := "CREATE_TRACKING_PLAN_ERROR";
                      err_message := "TrackingPlan 'Checkout' already exists" |}).
Proof.
  destruct (createTrackingPlan_name_taken
              {| ctp_name := "Checkout"; ctp_description := "Again";
                 ctp_events := refund_events; ctp_create_time := None |}
              (quiet catalog_store)
              (TrackingPlan.mk 1 "Checkout" "Purchase funnel" 50 50 false None)
              eq_refl) as [H1 [H2 H3]].
  split; [exact H1|]. split; [exact H2|].
  apply H3; [repeat split; intros n; reflexivity | intros n; reflexivity].
Defined.

Lemma createTrackingPlan_try_name_deleted (data : CreateTrackingPlanDto) (w : World) :
  plan_named (view Pool w) (ctp_name data) = None ->
  plan_name_taken (view Pool w) (ctp_name data) = true ->
  exists e wt,
    TrackingPlanService.createTrackingPlan_try data w = (Throw e, wt)
    /\ db wt = db w /\ tx wt = tx w /\ fault wt = fault w
    /\ (reliable w OpQuery -> e = duplicate_key_error).
Proof.
  intros Hplan Htaken. unfold TrackingPlanService.createTrackingPlan_try, bind.
  destruct (fault w (clock w) OpQuery) as [msg|] eqn:Hq.
  { unfold TrackingPlanRepository.findByName.
    rewrite (findOne_fails _ _ _ msg Hq).
    exists (storage_failure msg), (tick w). repeat split.
    intros Hr. rewrite Hr in Hq. discriminate. }
  rewrite plan_name_lookup_runs, Hplan by assumption.
  assert (Hsave : forall t,
    exists e wt,
      BaseRepository.create (TrackingPlanService.new_tracking_plan data t) (tick w)
      = (Throw e, wt)
      /\ db wt = db w /\ tx wt = tx w /\ fault wt = fault w
      /\ (reliable w OpQuery -> e = duplicate_key_error)).
  { intros t. unfold BaseRepository.create, Repository.save, external.
    cbn [fault clock tick].
    destruct (fault w (S (clock w)) OpQuery) as [msg|] eqn:Hq2.
    - exists (storage_failure msg), (tick (tick w)). repeat split.
      intros Hr. rewrite Hr in Hq2. discriminate.
    - rewrite !view_tick.
      change (existsb _ (table (view Pool w)))
        with (plan_name_taken (view Pool w) (ctp_name data)).
      rewrite Htaken.
      exists duplicate_key_error, (tick (tick w)). repeat split. }
  destruct (ctp_create_time data) as [t|]; cbn [or_now ret new_Date].
  - destruct (Hsave t) as [e [wt [Hs H]]]. exists e, wt. now rewrite Hs.
  - destruct (Hsave (now (tick w))) as [e [wt [Hs H]]]. exists e, wt. now rewrite Hs.
Qed.

(** X11.  The name of a soft-deleted plan cannot be used again: the check
    for an existing plan skips the deleted row, the insert violates the
    unique index on the name, and the create never succeeds and leaves the
    database as the pool had it; when the calls to the database answer, the
    result is the failure with the duplicate-key message of the driver. *)
Theorem createTrackingPlan_name_of_deleted_plan :
  forall (data : CreateTrackingPlanDto) (w : World),
    plan_named (view Pool w) (ctp_name data) = None ->
    plan_name_taken (view Pool w) (ctp_name data) = true ->
    let run := TrackingPlanService.createTrackingPlan data w in
    db (snd run) = view Pool w
    /\ (forall resp, fst run <> Ok (Success resp))
    /\ (runner_answers w -> reliable w OpQuery ->
        fst run = Ok (Failure {| code := "CREATE_TRACKING_PLAN_ERROR";
                                 err_message := duplicate_key_message |})).
Proof.
  intros data w Hplan Htaken run.
  destruct (createTrackingPlan_try_name_deleted data (opened w) Hplan Htaken)
    as [e [wt [Htry [Hdb [Htx [Hf He]]]]]].
  destruct (refusal_of_run run _ "CREATE_TRACKING_PLAN_ERROR" w e wt
              (createTrackingPlan_run data w) Htry Hdb Htx Hf) as [H1 [H2 H3]].
  split; [exact H1|]. split; [exact H2|].
  intros Hr Hq. rewrite (H3 Hr), (He Hq). reflexivity.
Qed.

Lemma createTrackingPlan_name_of_deleted_plan_witness :
  db (snd (TrackingPlanService.createTrackingPlan plan_with_login_B
             (quiet store_with_deleted_plan)))
  = store_with_deleted_plan
  /\ (forall resp,
         fst (TrackingPlanService.createTrackingPlan plan_with_login_B
                (quiet store_with_deleted_plan)) <> Ok (Success resp))
  /\ fst (TrackingPlanService.createTrackingPlan plan_with_login_B
            (quiet store_with_deleted_plan))
     = Ok (Failure {| code := "CREATE_TRACKING_PLAN_ERROR";
                      err_message := duplicate_key_message |}).
Proof.
  destruct (createTrackingPlan_name_of_deleted_plan plan_with_login_B
              (quiet store_with_deleted_plan) eq_refl eq_refl) as [H1 [H2 H3]].
  split; [exact H1|]. split; [exact H2|].
  apply H3; [repeat split; intros n; reflexivity | intros n; reflexivity].
Defined.

Lemma updateTrackingPlan_try_missing (id : Id) (data : UpdateTrackingPlanDto)
    (w : World) :
  stored_plan (view Pool w) id = None ->
  exists e wt,
    TrackingPlanService.updateTrackingPlan_try id data w = (Throw e, wt)
    /\ db wt = db w /\ tx wt = tx w /\ fault wt = fault w
    /\ (reliable w OpQuery -> e = new_NotFoundError "TrackingPlan").
Proof.
  intros Hplan.
  unfold TrackingPlanService.updateTrackingPlan_try,
    TrackingPlanService.updateTrackingPlan_write, bind.
  destruct (fault w (clock w) OpQuery) as [msg|] eqn:Hq.
  { rewrite (plan_lookup_fails id w msg Hq).
    exists (storage_failure msg), (tick w). repeat split.
    intros Hr. rewrite Hr in Hq. discriminate. }
  rewrite plan_lookup_runs, Hplan by assumption.
  exists (new_NotFoundError "TrackingPlan"), (tick w). repeat split.
Qed.

(** X12.  An update of a plan that does not exist, or is soft-deleted, never
    succeeds and writes nothing, whatever the request holds; when the calls
    to the database answer, the result is the failure "TrackingPlan not
    found". *)
Theorem updateTrackingPlan_missing_plan :
  forall (id : Id) (data : UpdateTrackingPlanDto) (w : World),
    stored_plan (view Pool w) id = None ->
    let run := TrackingPlanService.updateTrackingPlan id data w in
    db (snd run) = view Pool w
    /\ (forall resp, fst run <> Ok (Success resp))
    /\ (runner_answers w -> reliable w OpQuery ->
        fst run = Ok (Failure {| code := "UPDATE_TRACKING_PLAN_ERROR";
                                 err_message := "TrackingPlan not found" |})).
Proof.
  intros id data w Hplan run.
  destruct (updateTrackingPlan_try_missing id data (opened w) Hplan)
    as [e [wt [Htry [Hdb [Htx [Hf He]]]]]].
  destruct (refusal_of_run run _ "UPDATE_TRACKING_PLAN_ERROR" w e wt
              (updateTrackingPlan_run id data w) Htry Hdb Htx Hf) as [H1 [H2 H3]].
  split; [exact H1|]. split; [exact H2|].
  intros Hr Hq. rewrite (H3 Hr), (He Hq). reflexivity.
Qed.

Lemma updateTrackingPlan_missing_plan_witness :
  db (snd (TrackingPlanService.updateTrackingPlan 42 relink_checkout
             (quiet catalog_store)))
  = catalog_store
  /\ (forall resp,
         fst (TrackingPlanService.updateTrackingPlan 42 relink_checkout
                (quiet catalog_store)) <> Ok (Success resp))
  /\ fst (TrackingPlanService.updateTrackingPlan 42 relink_checkout
            (quiet catalog_store))
     = Ok (Failure {| code := "UPDATE_TRACKING_PLAN_ERROR";
                      err_message := "TrackingPlan not found" |}).
Proof.
  destruct (updateTrackingPlan_missing_plan 42 relink_checkout
              (quiet catalog_store) eq_refl) as [H1 [H2 H3]].
  split; [exact H1|]. split; [exact H2|].
  apply H3; [repeat split; intros n; reflexivity | intros n; reflexivity].
Defined.

(* ===================================================================== *)
(** ** What the responses of the orchestrator hold *)
(* ===================================================================== *)

Lemma forEach_Forall2 {A B} (f : A -> M B) (P : A -> B -> Prop) :
  (forall x w y w', f x w = (Ok y, w') -> P x y) ->
  forall xs w ys w', forEach f xs w = (Ok ys, w') -> Forall2 P xs ys.
Proof.
  intros Hf. induction xs as [|x rest IH]; intros w ys w' H; cbn [forEach] in H.
  - apply ret_Ok in H. destruct H as [<- _]. constructor.
  - apply bind_Ok in H. destruct H as [y [w1 [Hx H]]].
    apply bind_Ok in H. destruct H as [ys' [w2 [Hrest H]]].
    apply ret_Ok in H. destruct H as [<- _].
    constructor; [eapply Hf | eapply IH]; eassumption.
Qed.

Lemma forEach_same_world {A B} (f : A -> M B) :
  (forall x w r w', f x w = (r, w') -> w' = w) ->
  forall xs w r w', forEach f xs w = (r, w') -> w' = w.
Proof.
  intros Hf. induction xs as [|x rest IH]; intros w r w' H; cbn [forEach] in H.
  - now inversion H.
  - apply bind_cases in H. destruct H as [[e [Hx _]] | [y [w1 [Hx H]]]].
    { eapply Hf; eassumption. }
    apply Hf in Hx. subst w1.
    apply bind_cases in H. destruct H as [[e [Hr _]] | [ys [w2 [Hr H]]]].
    { eapply IH; eassumption. }
    apply IH in Hr. subst w2. now inversion H.
Qed.

Lemma forEach_map {A B C} (f : B -> M C) (g : A -> B) (xs : list A) :
  forEach f (map g xs) = forEach (fun x => f (g x)) xs.
Proof.
  induction xs as [|x rest IH]; cbn [forEach map]; [reflexivity|].
  now rewrite IH.
Qed.

Lemma filter_map_swap {A B} (p : B -> bool) (g : A -> B) (xs : list A) :
  filter p (map g xs) = map g (filter (fun x => p (g x)) xs).
Proof.
  induction xs as [|x rest IH]; cbn [filter map]; [reflexivity|].
  destruct (p (g x)); cbn [map]; now rewrite IH.
Qed.

Lemma filter_twice {A} (p q : A -> bool) (xs : list A) :
  filter q (filter p xs) = filter (fun x => p x && q x) xs.
Proof.
  induction xs as [|x rest IH]; cbn [filter]; [reflexivity|].
  destruct (p x); cbn [filter andb]; [destruct (q x)|]; now rewrite IH.
Qed.

Lemma or_null_or_undefined (rules : JsVal) :
  or_null (TrackingPlanService.or_undefined rules) = or_null (Some rules).
Proof.
  unfold TrackingPlanService.or_undefined, or_null.
  destruct (truthy (Some rules)) eqn:Ht; [now rewrite Ht | reflexivity].
Qed.

Lemma create_property_link_echoes (create_time : option Date)
    (link : TrackingPlanEvent.t) (d : EventPropertyDto) (w : World)
    (ref : PropertyRef) (w' : World) :
  TrackingPlanService.create_property_link create_time link d w = (Ok ref, w') ->
  echoes_property d ref.
Proof.
  unfold TrackingPlanService.create_property_link. intros H.
  apply bind_Ok in H. destruct H as [p [w1 [Hp H]]].
  apply bind_Ok in H. destruct H as [l [w2 [_ H]]].
  apply ret_Ok in H. destruct H as [<- _].
  destruct (findOrCreateProperty_compatible _ _ _ _ Hp) as [Hd Hr].
  apply findOrCreateProperty_resolves in Hp.
  destruct Hp as [q [_ [_ [_ [Hn Ht]]]]].
  cbn in Hn, Ht, Hd, Hr.
  unfold echoes_property, TrackingPlanService.property_ref.
  cbn [pr_name pr_type pr_description pr_required pr_validation_rules].
  rewrite or_null_or_undefined. repeat split; assumption.
Qed.

Lemma create_event_link_echoes (create_time : option Date) (plan : TrackingPlan.t)
    (e : TrackingPlanEventDto) (w : World) (er : EventRef) (w' : World) :
  TrackingPlanService.create_event_link create_time plan e w = (Ok er, w') ->
  echoes_event e er.
Proof.
  unfold TrackingPlanService.create_event_link. intros H.
  apply bind_Ok in H. destruct H as [ev [w1 [Hev H]]].
  apply bind_Ok in H. destruct H as [link [w2 [_ H]]].
  apply bind_Ok in H. destruct H as [refs [w3 [Hloop H]]].
  apply ret_Ok in H. destruct H as [<- _].
  apply findOrCreateEvent_resolves in Hev. destruct Hev as [Hev Hd].
  apply stored_event_sound in Hev. cbn in Hev, Hd. destruct Hev as [_ [Hn [Ht _]]].
  unfold echoes_event, TrackingPlanService.event_ref.
  cbn [er_name er_type er_description er_additionalProperties er_properties].
  repeat split; try assumption.
  revert Hloop. apply forEach_Forall2.
  intros x wa y wb. apply create_property_link_echoes.
Qed.

Lemma createTrackingPlan_try_Success (data : CreateTrackingPlanDto) (w : World)
    (resp : TrackingPlanResponseDto) (wt : World) :
  TrackingPlanService.createTrackingPlan_try data w = (Ok (Success resp), wt) ->
  exists t id today refs wl wm,
    resp = TrackingPlanService.response
             (TrackingPlanService.new_tracking_plan data t id today) refs
    /\ (forall t0, ctp_create_time data = Some t0 -> t = t0)
    /\ forEach (TrackingPlanService.create_event_link (ctp_create_time data)
                  (TrackingPlanService.new_tracking_plan data t id today))
         (ctp_events data) wl = (Ok refs, wm).
Proof.
  unfold TrackingPlanService.createTrackingPlan_try. intros H.
  apply bind_Ok in H. destruct H as [existing [w1 [_ H]]].
  destruct existing as [plan0|]; [cbv beta iota delta [throw] in H; discriminate|].
  apply bind_Ok in H. destruct H as [t [w2 [Ht H]]].
  apply bind_Ok in H. destruct H as [plan [w3 [Hsave H]]].
  apply bind_Ok in H. destruct H as [refs [w4 [Hloop H]]].
  apply bind_Ok in H. destruct H as [u [w5 [_ H]]].
  apply ret_Ok in H. destruct H as [Hresp _].
  apply save_cases in Hsave.
  destruct Hsave as [[[e He] _] | [Hrow _]]; [discriminate|].
  assert (Hplan : plan = TrackingPlanService.new_tracking_plan data t
                           (next_id (db w2)) (now w2)) by congruence.
  subst plan.
  exists t, (next_id (db w2)), (now w2), refs, w3, w4.
  split; [congruence|]. split; [|exact Hloop].
  intros t0 Ht0. rewrite Ht0 in Ht. apply ret_Ok in Ht. now destruct Ht.
Qed.

(** X13.  The response of a create-tracking-plan request that succeeds
    repeats the request: the name and the description of the plan, the
    creation time when one was given, and, event by event and in the order of
    the request, the name, the type, the description and the
    additional-properties flag of the event, and for each property its name,
    type, description, required flag and the serialisation of its rules. *)
Theorem createTrackingPlan_response_echoes_request :
  forall (data : CreateTrackingPlanDto) (w : World) (resp : TrackingPlanResponseDto),
    fst (TrackingPlanService.createTrackingPlan data w) = Ok (Success resp) ->
    r_name resp = ctp_name data
    /\ r_description resp = ctp_description data
    /\ r_is_deleted resp = false
    /\ (forall t, ctp_create_time data = Some t -> r_create_time resp = t)
    /\ Forall2 echoes_event (ctp_events data) (r_events resp).
Proof.
  intros data w resp Hok. rewrite createTrackingPlan_run in Hok.
  destruct (fault w (clock w) OpConnect); [discriminate|].
  destruct (fault w (S (clock w)) OpStartTransaction); [discriminate|].
  destruct (TrackingPlanService.createTrackingPlan_try data (opened w))
    as [r wt] eqn:Htry.
  rewrite (guarded_run _ _ _ _ _ Htry) in Hok.
  destruct r as [v|e]; [|now apply rolled_back_never_succeeds in Hok].
  apply released_result in Hok.
  assert (Hv : v = Success resp) by congruence. subst v.
  apply createTrackingPlan_try_Success in Htry.
  destruct Htry as [t [id [today [refs [wl [wm [-> [Ht Hloop]]]]]]]].
  cbn [TrackingPlanService.response TrackingPlanService.new_tracking_plan
       r_name r_description r_is_deleted r_create_time r_events
       TrackingPlan.name TrackingPlan.description TrackingPlan.is_deleted
       TrackingPlan.create_time].
  split; [reflexivity|]. split; [reflexivity|]. split; [reflexivity|].
  split; [exact Ht|].
  revert Hloop. apply forEach_Forall2.
  intros x wa y wb. apply create_event_link_echoes.
Qed.

Lemma createTrackingPlan_response_echoes_request_witness :
  exists resp,
    fst (TrackingPlanService.createTrackingPlan ecommerce_plan
           (quiet empty_store)) = Ok (Success resp)
    /\ r_name resp = ctp_name ecommerce_plan
    /\ r_description resp = ctp_description ecommerce_plan
    /\ r_is_deleted resp = false
    /\ (forall t, ctp_create_time ecommerce_plan = Some t -> r_create_time resp = t)
    /\ Forall2 echoes_event (ctp_events ecommerce_plan) (r_events resp).
Proof.
  eexists. split; [vm_compute; reflexivity|].
  apply (createTrackingPlan_response_echoes_request ecommerce_plan
           (quiet empty_store)).
  vm_compute. reflexivity.
Defined.

Lemma findWithEvents_Ok (id : Id) (w : World) (loaded : option LoadedTrackingPlan)
    (w' : World) :
  TrackingPlanRepository.findWithEvents id w = (Ok loaded, w') ->
  loaded = option_map (load_relations (scan_rank w (S (clock w))) (view Pool w))
             (stored_plan (view Pool w) id)
  /\ w' = tick w.
Proof.
  unfold TrackingPlanRepository.findWithEvents, external.
  destruct (fault w (clock w) OpQuery); [discriminate|].
  rewrite view_tick. unfold stored_plan. cbn [scan_rank clock tick].
  intros H. split; congruence.
Qed.

Lemma deref_Ok {A} (o : option A) (w : World) (a : A) (w' : World) :
  TrackingPlanService.deref o w = (Ok a, w') -> o = Some a /\ w' = w.
Proof.
  destruct o as [x|]; cbn; intros H; [|discriminate].
  apply ret_Ok in H. destruct H as [-> ->]. now split.
Qed.

Lemma deref_same_world {A} (o : option A) (w : World) (r : Outcome A) (w' : World) :
  TrackingPlanService.deref o w = (r, w') -> w' = w.
Proof. destruct o; cbn; intros H; now inversion H. Qed.

Lemma mapToResponseDto_same_world (loaded : LoadedTrackingPlan) (w : World)
    (r : Outcome TrackingPlanResponseDto) (w' : World) :
  TrackingPlanService.mapToResponseDto loaded w = (r, w') -> w' = w.
Proof.
  unfold TrackingPlanService.mapToResponseDto. intros H.
  apply bind_cases in H. destruct H as [[e [H _]] | [evs [w1 [H Hret]]]].
  2: { assert (w1 = w); [|subst w1; now inversion Hret]. revert H.
       apply forEach_same_world. clear. intros x w r w' H.
       apply bind_cases in H. destruct H as [[e [H _]] | [ev [w1 [H H2]]]];
         [now apply deref_same_world in H|].
       apply deref_same_world in H. subst w1.
       apply bind_cases in H2. destruct H2 as [[e [H _]] | [ps [w2 [H H2]]]].
       2: { assert (w2 = w); [|subst w2; now inversion H2]. revert H.
            apply forEach_same_world. clear. intros x w r w' H.
            apply bind_cases in H. destruct H as [[e [H _]] | [p [w1 [H H2]]]];
              [now apply deref_same_world in H|].
            apply deref_same_world in H. subst w1. now inversion H2. }
       revert H. apply forEach_same_world. clear. intros x w r w' H.
       apply bind_cases in H. destruct H as [[e [H _]] | [p [w1 [H H2]]]];
         [now apply deref_same_world in H|].
       apply deref_same_world in H. subst w1. now inversion H2. }
  revert H. apply forEach_same_world. clear. intros x w r w' H.
  apply bind_cases in H. destruct H as [[e [H _]] | [ev [w1 [H H2]]]];
    [now apply deref_same_world in H|].
  apply deref_same_world in H. subst w1.
  apply bind_cases in H2. destruct H2 as [[e [H _]] | [ps [w2 [H H2]]]].
  2: { assert (w2 = w); [|subst w2; now inversion H2]. revert H.
       apply forEach_same_world. clear. intros x w r w' H.
       apply bind_cases in H. destruct H as [[e [H _]] | [p [w1 [H H2]]]];
         [now apply deref_same_world in H|].
       apply deref_same_world in H. subst w1. now inversion H2. }
  revert H. apply forEach_same_world. clear. intros x w r w' H.
  apply bind_cases in H. destruct H as [[e [H _]] | [p [w1 [H H2]]]];
    [now apply deref_same_world in H|].
  apply deref_same_world in H. subst w1. now inversion H2.
Qed.

Lemma insert_by_Permutation {A} (rank : A -> nat) (x : A) (l : list A) :
  Permutation (insert_by rank x l) (x :: l).
Proof.
  induction l as [|y rest IH]; cbn [insert_by]; [reflexivity|].
  destruct (rank x <=? rank y)%nat; [reflexivity|].
  rewrite IH. apply perm_swap.
Qed.

Lemma arrange_Permutation {A} (rank : A -> nat) (l : list A) :
  Permutation (arrange rank l) l.
Proof.
  induction l as [|x rest IH]; cbn; [constructor|].
  rewrite insert_by_Permutation. now constructor.
Qed.

Lemma filter_Permutation {A} (f : A -> bool) (l l' : list A) :
  Permutation l l' -> Permutation (filter f l) (filter f l').
Proof.
  induction 1 as [|x l l' _ IH|x y l|l l' l'' _ IH1 _ IH2]; cbn [filter].
  - constructor.
  - destruct (f x); [now constructor | exact IH].
  - destruct (f x), (f y); try reflexivity. apply perm_swap.
  - now rewrite IH1.
Qed.

(** The rows that a loaded relation holds after the filter on the deletion
    flag: the live rows of the table, in the order of the scan. *)
Lemma live_rows_arranged {A} (rank : A -> nat) (p q : A -> bool) (l : list A) :
  Permutation (filter q (arrange rank (filter p l)))
    (filter (fun x => p x && q x) l).
Proof.
  rewrite <- filter_twice. apply filter_Permutation, arrange_Permutation.
Qed.

Lemma mapToResponseDto_row (rank : Id -> nat) (s : Store) (plan : TrackingPlan.t)
    (w : World) (resp : TrackingPlanResponseDto) (w' : World) :
  TrackingPlanService.mapToResponseDto (load_relations rank s plan) w = (Ok resp, w') ->
  resp = TrackingPlanService.response plan (r_events resp).
Proof.
  unfold TrackingPlanService.mapToResponseDto. intros H.
  apply bind_Ok in H. destruct H as [evs [w1 [_ H]]].
  apply ret_Ok in H. destruct H as [<- _]. reflexivity.
Qed.

Lemma mapToResponseDto_lists_links (rank : Id -> nat) (s : Store)
    (plan : TrackingPlan.t) (w : World) (resp : TrackingPlanResponseDto)
    (w' : World) :
  TrackingPlanService.mapToResponseDto (load_relations rank s plan) w = (Ok resp, w') ->
  exists links,
    Permutation links (live_links s (TrackingPlan.id plan))
    /\ Forall2 (lists_link s) links (r_events resp).
Proof.
  unfold TrackingPlanService.mapToResponseDto. intros H.
  apply bind_Ok in H. destruct H as [evs [w1 [Hloop H]]].
  apply ret_Ok in H. destruct H as [<- _].
  cbn [r_events TrackingPlanService.response].
  cbn [lp_trackingPlanEvents load_relations] in Hloop.
  rewrite filter_map_swap, forEach_map in Hloop. cbn [lpe_row] in Hloop.
  exists (filter (fun l => negb (TrackingPlanEvent.is_deleted l))
            (arrange (fun l => rank (TrackingPlanEvent.id l))
               (filter (fun l =>
                  (TrackingPlanEvent.tracking_plan_id l =? TrackingPlan.id plan)%nat)
                  (tracking_plan_events s)))).
  split; [unfold live_links; apply live_rows_arranged|].
  revert Hloop. apply forEach_Forall2. clear w w' evs w1.
  intros l w er w' H. cbn [lpe_event lpe_row lpe_eventProperties] in H.
  apply bind_Ok in H. destruct H as [ev [w1 [Hev H]]].
  apply deref_Ok in Hev. destruct Hev as [Hev _].
  apply find_some in Hev. destruct Hev as [_ Hid]. apply Nat.eqb_eq in Hid.
  apply bind_Ok in H. destruct H as [ps [w2 [Hloop H]]].
  apply ret_Ok in H. destruct H as [<- _].
  unfold lists_link, TrackingPlanService.event_ref.
  cbn [er_id er_additionalProperties er_properties].
  split; [exact Hid|]. split; [reflexivity|].
  rewrite filter_map_swap, forEach_map in Hloop. cbn [lep_row] in Hloop.
  exists (filter (fun ep => negb (EventProperty.is_deleted ep))
            (arrange (fun ep => rank (EventProperty.id ep))
               (filter (fun ep =>
                  (EventProperty.tracking_plan_event_id ep
                   =? TrackingPlanEvent.id l)%nat)
                  (event_properties s)))).
  split; [unfold live_property_links; apply live_rows_arranged|].
  revert Hloop. apply forEach_Forall2. clear.
  intros ep w ref w' H. cbn [lep_property lep_row] in H.
  apply bind_Ok in H. destruct H as [p [w1 [Hp H]]].
  apply deref_Ok in Hp. destruct Hp as [Hp _].
  apply find_some in Hp. destruct Hp as [_ Hid]. apply Nat.eqb_eq in Hid.
  apply ret_Ok in H. destruct H as [<- _].
  unfold lists_property_link, TrackingPlanService.property_ref.
  cbn [pr_id pr_required]. now split.
Qed.

(** X14.  When [getTrackingPlanById] succeeds, the plan is the non-deleted
    row with the id, and the events of the response stand, one for one, for
    the non-deleted links of the plan, in the order in which the database
    returned them: each with the id of the linked event, the flag of the
    link, and one property for each non-deleted property link, with the id of
    the linked property and the required flag of the link.  Soft-deleted
    links are left out.  The call makes one call to the database and writes
    nothing. *)
Theorem getTrackingPlanById_lists_live_links :
  forall (id : Id) (w : World) (resp : TrackingPlanResponseDto) (w' : World),
    TrackingPlanService.getTrackingPlanById id w = (Ok (Success resp), w') ->
    exists plan links,
      stored_plan (view Pool w) id = Some plan
      /\ resp = TrackingPlanService.response plan (r_events resp)
      /\ Permutation links (live_links (view Pool w) id)
      /\ Forall2 (lists_link (view Pool w)) links (r_events resp)
      /\ w' = tick w.
Proof.
  intros id w resp w' H.
  unfold TrackingPlanService.getTrackingPlanById in H.
  apply tryCatch_Success in H.
  apply bind_Ok in H. destruct H as [loaded [w1 [Hfind H]]].
  apply findWithEvents_Ok in Hfind. destruct Hfind as [-> ->].
  destruct (stored_plan (view Pool w) id) as [plan|] eqn:Hplan;
    cbn [option_map] in H; [|cbv beta iota delta [throw] in H; discriminate].
  apply bind_Ok in H. destruct H as [r [w2 [Hmap H]]].
  apply ret_Ok in H. destruct H as [Hr <-].
  assert (r = resp) by congruence. subst r.
  assert (Hid : TrackingPlan.id plan = id).
  { unfold stored_plan in Hplan. apply find_some in Hplan.
    destruct Hplan as [_ Hp]. apply andb_true_iff in Hp.
    destruct Hp as [Hp _]. now apply Nat.eqb_eq in Hp. }
  pose proof (mapToResponseDto_same_world _ _ _ _ Hmap) as Hw.
  pose proof (mapToResponseDto_row _ _ _ _ _ _ Hmap) as Hresp.
  apply mapToResponseDto_lists_links in Hmap. destruct Hmap as [links [Hperm Hlinks]].
  rewrite Hid in Hperm.
  exists plan, links. now repeat split.
Qed.

Lemma getTrackingPlanById_lists_live_links_witness :
  exists resp w',
    TrackingPlanService.getTrackingPlanById 1 (backwards two_event_store)
    = (Ok (Success resp), w')
    /\ map er_id (r_events resp) = [3; 2]
    /\ exists plan links,
         stored_plan (view Pool (backwards two_event_store)) 1 = Some plan
         /\ resp = TrackingPlanService.response plan (r_events resp)
         /\ Permutation links (live_links (view Pool (backwards two_event_store)) 1)
         /\ Forall2 (lists_link (view Pool (backwards two_event_store))) links
              (r_events resp)
         /\ w' = tick (backwards two_event_store).
Proof.
  eexists. eexists. split; [vm_compute; reflexivity|].
  split; [reflexivity|].
  apply (getTrackingPlanById_lists_live_links 1 (backwards two_event_store)).
  vm_compute. reflexivity.
Defined.

Lemma findWithEvents_runs (id : Id) (w : World) :
  fault w (clock w) OpQuery = None ->
  TrackingPlanRepository.findWithEvents id w
  = (Ok (option_map (load_relations (scan_rank w (S (clock w))) (view Pool w))
           (stored_plan (view Pool w) id)),
     tick w).
Proof.
  intros Hq. unfold TrackingPlanRepository.findWithEvents, external.
  rewrite Hq, view_tick. reflexivity.
Qed.

Lemma deleteTrackingPlan_Success (id : Id) (w w' : World) :
  TrackingPlanService.deleteTrackingPlan id w = (Ok (Success tt), w') ->
  exists d w1,
    w' = write Pool
           (apply_update (fun p : TrackingPlan.t => (TrackingPlan.id p =? id)%nat)
              (mark_deleted d) (now w1)) (tick w1).
Proof.
  unfold TrackingPlanService.deleteTrackingPlan. intros H.
  apply tryCatch_Success in H.
  apply bind_Ok in H. destruct H as [found [w1 [_ Hrest]]].
  destruct found as [p|]; [|cbv beta iota delta [throw] in Hrest; discriminate].
  apply bind_Ok in Hrest. destruct Hrest as [b [w2 [Hdel Hret]]].
  apply ret_Ok in Hret. destruct Hret as [_ <-].
  unfold BaseRepository.softDelete in Hdel.
  apply bind_Ok in Hdel. destruct Hdel as [d [w3 [Hd Hdel]]].
  assert (Hw3 : w3 = w1) by (unfold new_Date in Hd; congruence). subst w3.
  apply bind_Ok in Hdel. destruct Hdel as [n [w4 [Hupd Hret]]].
  apply ret_Ok in Hret. destruct Hret as [_ <-].
  apply update_Ok in Hupd. now exists d, w1.
Qed.

(** X15.  After [deleteTrackingPlan] has succeeded for an id, no non-deleted
    plan has that id, and [getTrackingPlanById] with the id, when its query
    answers, returns the failure "TrackingPlan not found". *)
Theorem deleteTrackingPlan_then_getTrackingPlanById :
  forall (id : Id) (w w' : World),
    TrackingPlanService.deleteTrackingPlan id w = (Ok (Success tt), w') ->
    fault w' (clock w') OpQuery = None ->
    stored_plan (view Pool w') id = None
    /\ TrackingPlanService.getTrackingPlanById id w'
       = (Ok (Failure {| code := "GET_TRACKING_PLAN_ERROR";
                         err_message := "TrackingPlan not found" |}),
          tick w').
Proof.
  intros id w w' H Hq.
  apply deleteTrackingPlan_Success in H. destruct H as [d [w1 Hw']].
  assert (Hnone : stored_plan (view Pool w') id = None).
  { subst w'. rewrite view_write_pool. unfold stored_plan.
    cbn [apply_update tracking_plans set_table table TrackingPlan_Entity].
    apply find_map_none.
    intros x. destruct (TrackingPlan.id x =? id)%nat eqn:Hid.
    - cbn. now rewrite andb_false_r.
    - now rewrite Hid. }
  split; [exact Hnone|].
  unfold TrackingPlanService.getTrackingPlanById, tryCatch, bind.
  rewrite findWithEvents_runs by assumption. rewrite Hnone. reflexivity.
Qed.

Lemma deleteTrackingPlan_then_getTrackingPlanById_witness :
  exists w',
    TrackingPlanService.deleteTrackingPlan 1 (quiet catalog_store)
    = (Ok (Success tt), w')
    /\ stored_plan (view Pool w') 1 = None
    /\ TrackingPlanService.getTrackingPlanById 1 w'
       = (Ok (Failure {| code := "GET_TRACKING_PLAN_ERROR";
                         err_message := "TrackingPlan not found" |}),
          tick w').
Proof.
  eexists. split; [vm_compute; reflexivity|].
  eapply (deleteTrackingPlan_then_getTrackingPlanById 1 (quiet catalog_store));
    [vm_compute; reflexivity | reflexivity].
Defined.

(* ===================================================================== *)
(** ** Status codes of the read and the update routes *)
(* ===================================================================== *)

Lemma getTrackingPlanById_returns (id : Id) (w : World) :
  exists r w', TrackingPlanService.getTrackingPlanById id w = (Ok r, w').
Proof. apply tryCatch_returns. Qed.

(** X16.  The route that reads one plan always answers, with 200 and the
    plan or with 404 and the message of the service's failure, whatever the
    failure was: when the query of the lookup fails, the answer is a 404 with
    the message of the driver. *)
Theorem getTrackingPlanById_answers_200_or_404 :
  forall (id : Id) (w : World),
    (exists resp w',
        TrackingPlanController.getTrackingPlanById id w = (Ok resp, w')
        /\ ((status resp = 200
             /\ exists data,
                  body_data resp = Some data
                  /\ fst (TrackingPlanService.getTrackingPlanById id w)
                     = Ok (Success data))
            \/ (exists error,
                   fst (TrackingPlanService.getTrackingPlanById id w)
                   = Ok (Failure error)
                   /\ resp = error_response 404 "AppError" (err_message error))))
    /\ forall msg,
         fault w (clock w) OpQuery = Some msg ->
         TrackingPlanController.getTrackingPlanById id w
         = (Ok (error_response 404 "AppError" msg), tick w).
Proof.
  intros id w. split.
  - destruct (getTrackingPlanById_returns id w) as [r [w' Hr]].
    unfold TrackingPlanController.getTrackingPlanById, asyncHandler, tryCatch, bind.
    rewrite Hr. destruct r as [data|error].
    + eexists. eexists. split; [reflexivity|]. left.
      split; [reflexivity|]. exists data. now split.
    + eexists. eexists. split; [reflexivity|]. right.
      exists error. now split.
  - intros msg Hq.
    unfold TrackingPlanController.getTrackingPlanById, asyncHandler,
      TrackingPlanService.getTrackingPlanById, tryCatch, bind,
      TrackingPlanRepository.findWithEvents, external.
    rewrite Hq. reflexivity.
Qed.

Lemma getTrackingPlanById_answers_200_or_404_witness :
  TrackingPlanController.getTrackingPlanById 1
    (failing_at 0 OpQuery "connection lost" catalog_store)
  = (Ok (error_response 404 "AppError" "connection lost"),
     tick (failing_at 0 OpQuery "connection lost" catalog_store)).
Proof.
  apply (getTrackingPlanById_answers_200_or_404 1
           (failing_at 0 OpQuery "connection lost" catalog_store)).
  reflexivity.
Defined.

(** X17.  The route that updates a plan answers 404 with the message
    "TrackingPlan not found" when no non-deleted plan has the id and the
    calls to the database answer. *)
Theorem updateTrackingPlan_route_missing_plan :
  forall (id : Id) (body : UpdateTrackingPlanDto) (w : World),
    stored_plan (view Pool w) id = None ->
    runner_answers w ->
    reliable w OpQuery ->
    fst (TrackingPlanController.updateTrackingPlan id body w)
    = Ok (error_response 404 "AppError" "TrackingPlan not found").
Proof.
  intros id body w Hplan Hr Hq.
  destruct (updateTrackingPlan_try_missing id body (opened w) Hplan)
    as [e [wt [Htry [Hdb [Htx [Hf He]]]]]].
  destruct (refusal_of_run (TrackingPlanService.updateTrackingPlan id body w) _
              "UPDATE_TRACKING_PLAN_ERROR" w e wt
              (updateTrackingPlan_run id body w) Htry Hdb Htx Hf) as [_ [_ H3]].
  specialize (H3 Hr). rewrite (He Hq) in H3.
  unfold TrackingPlanController.updateTrackingPlan, asyncHandler, tryCatch, bind.
  destruct (TrackingPlanService.updateTrackingPlan id body w) as [r w'].
  cbn [fst] in H3. subst r. reflexivity.
Qed.

Lemma updateTrackingPlan_route_missing_plan_witness :
  fst (TrackingPlanController.updateTrackingPlan 42 relink_checkout
         (quiet catalog_store))
  = Ok (error_response 404 "AppError" "TrackingPlan not found").
Proof.
  apply (updateTrackingPlan_route_missing_plan 42 relink_checkout
           (quiet catalog_store));
    [reflexivity | repeat split; intros n; reflexivity | intros n; reflexivity].
Defined.

(* ===================================================================== *)
(** ** The list and search methods *)
(* ===================================================================== *)

Lemma find_Ok {T} `{Entity T} (c : Conn) (p : T -> bool) (w : World)
    (l : list T) (w' : World) :
  Repository.find c p w = (Ok l, w') ->
  l = filter p (table (view c w)) /\ w' = tick w.
Proof.
  unfold Repository.find, external.
  destruct (fault w (clock w) OpQuery); [discriminate|].
  rewrite view_tick. intros Hl. split; congruence.
Qed.

Lemma Forall_slice {A} (P : A -> Prop) (xs : list A) (a b : Z) :
  Forall P xs -> Forall P (slice xs a b).
Proof.
  intros Hxs. apply Forall_forall. intros x Hx.
  apply slice_incl in Hx. revert x Hx. now apply Forall_forall.
Qed.

Lemma filter_Forall {A} (p : A -> bool) (P : A -> Prop) (xs : list A) :
  (forall x, In x xs -> p x = true -> P x) -> Forall P (filter p xs).
Proof.
  intros Hp. apply Forall_forall. intros x Hx.
  apply filter_In in Hx. destruct Hx. now apply Hp.
Qed.

(** X18.  The list and the search methods of events and of properties
    return only non-deleted rows of their table: whatever the filter, the
    search term and the page are, a soft-deleted row is never among the
    results. *)
Theorem list_methods_skip_deleted_rows :
  (forall flt pagination w result w',
      EventService.getAllEvents flt pagination w = (Ok (Success result), w') ->
      Forall (live_event (view Pool w)) (pd_data result))
  /\ (forall term w found w',
         EventService.searchEvents term w = (Ok (Success found), w') ->
         Forall (live_event (view Pool w)) found)
  /\ (forall flt pagination w result w',
         PropertyService.getAllProperties flt pagination w
         = (Ok (Success result), w') ->
         Forall (live_property (view Pool w)) (pd_data result))
  /\ (forall term w found w',
         PropertyService.searchProperties term w = (Ok (Success found), w') ->
         Forall (live_property (view Pool w)) found).
Proof.
  split; [|split; [|split]].
  - intros flt pagination w result w' H.
    unfold EventService.getAllEvents in H. apply tryCatch_Success in H.
    apply bind_Ok in H. destruct H as [l [w1 [Hfind H]]].
    unfold EventRepository.findByFilter in Hfind.
    apply find_Ok in Hfind. destruct Hfind as [-> _].
    unfold paginate in H. apply ret_Ok in H. destruct H as [H _].
    assert (Hpage : exists a b, pd_data result = slice
              (filter (fun e =>
                 negb (Event.is_deleted e)
                 && ilike_filter w (EventRepository.name flt) (Event.name e)
                 && match EventRepository.type flt with
                    | Some t => EventType_eqb (Event.type e) t
                    | None => true
                    end
                 && ilike_filter w (EventRepository.description flt)
                      (Event.description e)) (events (view Pool w))) a b)
      by (inversion H; eexists; eexists; reflexivity).
    destruct Hpage as [a [b Hpage]].
    rewrite Hpage. apply Forall_slice. apply filter_Forall.
    intros x Hin Hp. split; [exact Hin|].
    rewrite !andb_true_iff in Hp. destruct Hp as [[[Hd _] _] _].
    now apply negb_true_iff in Hd.
  - intros term w found w' H.
    unfold EventService.searchEvents in H. apply tryCatch_Success in H.
    apply bind_Ok in H. destruct H as [l [w1 [Hfind H]]].
    unfold EventRepository.searchByName in Hfind.
    apply find_Ok in Hfind. destruct Hfind as [-> _].
    apply ret_Ok in H. destruct H as [H _].
    assert (Hfound : found = filter (fun e =>
              ilike w (like_pattern term) (Event.name e)
              && negb (Event.is_deleted e)) (events (view Pool w)))
      by (inversion H; reflexivity).
    rewrite Hfound. apply filter_Forall.
    intros x Hin Hp. split; [exact Hin|].
    rewrite andb_true_iff in Hp. destruct Hp as [_ Hd].
    now apply negb_true_iff in Hd.
  - intros flt pagination w result w' H.
    unfold PropertyService.getAllProperties in H. apply tryCatch_Success in H.
    apply bind_Ok in H. destruct H as [l [w1 [Hfind H]]].
    unfold PropertyRepository.findByFilter in Hfind.
    apply find_Ok in Hfind. destruct Hfind as [-> _].
    unfold paginate in H. apply ret_Ok in H. destruct H as [H _].
    assert (Hpage : exists a b, pd_data result = slice
              (filter (fun p =>
                 negb (Property.is_deleted p)
                 && ilike_filter w (PropertyRepository.name flt) (Property.name p)
                 && match PropertyRepository.type flt with
                    | Some t => PropertyType_eqb (Property.type p) t
                    | None => true
                    end
                 && ilike_filter w (PropertyRepository.description flt)
                      (Property.description p)) (properties (view Pool w))) a b)
      by (inversion H; eexists; eexists; reflexivity).
    destruct Hpage as [a [b Hpage]].
    rewrite Hpage. apply Forall_slice. apply filter_Forall.
    intros x Hin Hp. split; [exact Hin|].
    rewrite !andb_true_iff in Hp. destruct Hp as [[[Hd _] _] _].
    now apply negb_true_iff in Hd.
  - intros term w found w' H.
    unfold PropertyService.searchProperties in H. apply tryCatch_Success in H.
    apply bind_Ok in H. destruct H as [l [w1 [Hfind H]]].
    unfold PropertyRepository.searchByName in Hfind.
    apply find_Ok in Hfind. destruct Hfind as [-> _].
    apply ret_Ok in H. destruct H as [H _].
    assert (Hfound : found = filter (fun p =>
              ilike w (like_pattern term) (Property.name p)
              && negb (Property.is_deleted p)) (properties (view Pool w)))
      by (inversion H; reflexivity).
    rewrite Hfound. apply filter_Forall.
    intros x Hin Hp. split; [exact Hin|].
    rewrite andb_true_iff in Hp. destruct Hp as [_ Hd].
    now apply negb_true_iff in Hd.
Qed.

Lemma list_methods_skip_deleted_rows_witness :
  (exists result w',
      EventService.getAllEvents
        any_event first_page (matching archive_store)
      = (Ok (Success result), w')
      /\ length (pd_data result) = 2
      /\ Forall (live_event (view Pool (matching archive_store))) (pd_data result))
  /\ (exists found w',
         EventService.searchEvents "Log" (matching archive_store)
         = (Ok (Success found), w')
         /\ length found = 2
         /\ Forall (live_event (view Pool (matching archive_store))) found)
  /\ (exists result w',
         PropertyService.getAllProperties
           any_property first_page (matching archive_store)
         = (Ok (Success result), w')
         /\ length (pd_data result) = 1
         /\ Forall (live_property (view Pool (matching archive_store))) (pd_data result))
  /\ (exists found w',
         PropertyService.searchProperties "tier" (matching archive_store)
         = (Ok (Success found), w')
         /\ length found = 1
         /\ Forall (live_property (view Pool (matching archive_store))) found).
Proof.
  destruct list_methods_skip_deleted_rows as [H1 [H2 [H3 H4]]].
  split; [|split; [|split]].
  - eexists. eexists. split; [vm_compute; reflexivity|]. split; [reflexivity|].
    eapply (H1 any_event first_page (matching archive_store)). vm_compute. reflexivity.
  - eexists. eexists. split; [vm_compute; reflexivity|]. split; [reflexivity|].
    eapply (H2 "Log" (matching archive_store)). vm_compute. reflexivity.
  - eexists. eexists. split; [vm_compute; reflexivity|]. split; [reflexivity|].
    eapply (H3 any_property first_page (matching archive_store)). vm_compute. reflexivity.
  - eexists. eexists. split; [vm_compute; reflexivity|]. split; [reflexivity|].
    eapply (H4 "tier" (matching archive_store)). vm_compute. reflexivity.
Defined.

(* ===================================================================== *)
(** ** The orchestrator only adds rows *)
(* ===================================================================== *)

Lemma image_extends_refl (o : option Store) : image_extends o o.
Proof. destruct o; cbn; [apply extends_refl | exact I]. Qed.

Lemma image_extends_trans (a b c : option Store) :
  image_extends a b -> image_extends b c -> image_extends a c.
Proof.
  destruct a as [a|], b as [b|], c as [c|]; cbn; try tauto.
  apply extends_trans.
Qed.

Lemma appends_refl (w : World) : appends w w.
Proof. split; [apply extends_refl | apply image_extends_refl]. Qed.

Lemma appends_trans (a b c : World) : appends a b -> appends b c -> appends a c.
Proof.
  intros [H1 H2] [G1 G2]. split.
  - eapply extends_trans; eassumption.
  - eapply image_extends_trans; eassumption.
Qed.

Lemma appends_tick (w : World) : appends w (tick w).
Proof. split; [apply extends_refl | apply image_extends_refl]. Qed.

Lemma appends_write (c : Conn) (f : Store -> Store) (w : World) :
  (forall s, extends s (f s)) -> appends w (write c f w).
Proof.
  intros Hf. destruct c; split; cbn; try apply Hf.
  - destruct (tx w); cbn; [apply Hf | exact I].
  - apply image_extends_refl.
Qed.

Lemma appends_save {T} `{Entity T} (c : Conn) (entity : Id -> Date -> T) :
  (forall (row : T) (s : Store), extends s (insert_row row s)) ->
  preserves appends (Repository.save c entity).
Proof.
  intros Hins w r w' Hs. apply save_cases in Hs.
  destruct Hs as [[_ ->] | [_ [-> _]]]; [apply appends_tick|].
  eapply appends_trans; [apply appends_tick | apply appends_write, Hins].
Qed.

Lemma appends_findOne {T} `{Entity T} (c : Conn) (p : T -> bool) :
  preserves appends (Repository.findOne c p).
Proof.
  unfold Repository.findOne.
  apply preserves_external; [apply appends_trans | apply appends_tick |].
  intros w r w' Hr. inversion Hr. apply appends_refl.
Qed.

Lemma appends_pure {A} (m : M A) :
  (forall w r w', m w = (r, w') -> w' = w) -> preserves appends m.
Proof. intros Hm w r w' Hr. apply Hm in Hr. subst. apply appends_refl. Qed.

Lemma appends_findOrCreateEvent (data : CreateEventDto) :
  preserves appends (EventService.findOrCreateEvent data).
Proof.
  unfold EventService.findOrCreateEvent.
  apply preserves_bind; [apply appends_trans | apply appends_findOne |].
  intros [existing|].
  - destruct (negb _); [apply preserves_throw | apply preserves_ret];
      apply appends_refl.
  - apply preserves_bind; [apply appends_trans | |].
    + apply appends_pure. intros w r w' Hr. now apply or_now_pure in Hr.
    + intros d. apply appends_save. apply extends_insert_event.
Qed.

Lemma appends_findOrCreateProperty (data : CreatePropertyDto) :
  preserves appends (PropertyService.findOrCreateProperty data).
Proof.
  unfold PropertyService.findOrCreateProperty.
  apply preserves_bind; [apply appends_trans | apply appends_findOne |].
  intros [existing|].
  - destruct (negb _); [apply preserves_throw; apply appends_refl|].
    destruct (negb _); [apply preserves_throw | apply preserves_ret];
      apply appends_refl.
  - apply preserves_bind; [apply appends_trans | |].
    { apply appends_pure. intros w r w'. apply validate_if_given_pure. }
    intros _.
    apply preserves_bind; [apply appends_trans | |].
    { apply appends_pure. intros w r w' Hr. now apply or_now_pure in Hr. }
    intros d. apply appends_save. apply extends_insert_property.
Qed.

Lemma appends_create_event_link (create_time : option Date)
    (plan : TrackingPlan.t) (eventData : TrackingPlanEventDto) :
  preserves appends (TrackingPlanService.create_event_link create_time plan eventData).
Proof.
  unfold TrackingPlanService.create_event_link.
  apply preserves_bind; [apply appends_trans | apply appends_findOrCreateEvent |].
  intros event.
  apply preserves_bind; [apply appends_trans | |].
  { apply appends_save. apply extends_insert_link. }
  intros link.
  apply preserves_bind; [apply appends_trans | |].
  - apply preserves_forEach; [apply appends_refl | apply appends_trans |].
    intros x. unfold TrackingPlanService.create_property_link.
    apply preserves_bind;
      [apply appends_trans | apply appends_findOrCreateProperty |].
    intros property.
    apply preserves_bind; [apply appends_trans | |].
    { apply appends_save. apply extends_insert_property_link. }
    intros _. apply preserves_ret, appends_refl.
  - intros refs. apply preserves_ret, appends_refl.
Qed.

Lemma appends_commit : preserves appends QueryRunner.commitTransaction.
Proof.
  intros w r w' Hr. unfold QueryRunner.commitTransaction in Hr.
  destruct (tx w) as [c|] eqn:Htx; [|inversion Hr; apply appends_refl].
  unfold external in Hr.
  destruct (fault w (clock w) OpCommit); inversion Hr; [apply appends_tick|].
  split; cbn; [apply extends_refl|].
  destruct (tx w); exact I.
Qed.

Lemma appends_createTrackingPlan_try (data : CreateTrackingPlanDto) :
  preserves appends (TrackingPlanService.createTrackingPlan_try data).
Proof.
  unfold TrackingPlanService.createTrackingPlan_try.
  apply preserves_bind; [apply appends_trans | apply appends_findOne |].
  intros [existing|]; [apply preserves_throw, appends_refl|].
  apply preserves_bind; [apply appends_trans | |].
  { apply appends_pure. intros w r w' Hr. now apply or_now_pure in Hr. }
  intros t.
  apply preserves_bind; [apply appends_trans | |].
  { apply appends_save. apply extends_insert_plan. }
  intros plan.
  apply preserves_bind; [apply appends_trans | |].
  { apply preserves_forEach; [apply appends_refl | apply appends_trans |].
    intros x. apply appends_create_event_link. }
  intros refs.
  apply preserves_bind; [apply appends_trans | apply appends_commit |].
  intros _. apply preserves_ret, appends_refl.
Qed.

(** X19.  However a create-tracking-plan request ends, with a response, a
    failure result or an exception, with or without a rollback, every table
    of the database is afterwards the table that the pool had committed
    before, followed by new rows: the method changes and removes no row that
    existed. *)
Theorem createTrackingPlan_only_adds_rows :
  forall (data : CreateTrackingPlanDto) (w : World),
    extends (view Pool w) (db (snd (TrackingPlanService.createTrackingPlan data w))).
Proof.
  intros data w. rewrite createTrackingPlan_run.
  destruct (fault w (clock w) OpConnect); [apply extends_refl|].
  destruct (fault w (S (clock w)) OpStartTransaction); [apply extends_refl|].
  destruct (TrackingPlanService.createTrackingPlan_try data (opened w))
    as [r wt] eqn:Htry.
  rewrite (guarded_run _ _ _ _ _ Htry).
  apply appends_createTrackingPlan_try in Htry. destruct Htry as [Hdb Htx].
  change (db (opened w)) with (view Pool w) in Hdb.
  change (tx (opened w)) with (Some (view Pool w)) in Htx.
  destruct r as [v|e].
  - rewrite released_world. exact Hdb.
  - unfold rolled_back. destruct (tx wt) as [c|]; cbn in Htx.
    + destruct (fault wt (clock wt) OpRollback); rewrite released_world; cbn;
        assumption.
    + rewrite released_world. exact Hdb.
Qed.

(* ===================================================================== *)
(** ** Updating an event, and creating a property with rules *)
(* ===================================================================== *)

Lemma findOne_Ok {T} `{Entity T} (c : Conn) (p : T -> bool) (w : World)
    (o : option T) (w' : World) :
  Repository.findOne c p w = (Ok o, w') ->
  o = find p (table (view c w)) /\ w' = tick w.
Proof.
  unfold Repository.findOne, external.
  destruct (fault w (clock w) OpQuery); [discriminate|].
  rewrite view_tick. intros Ho. split; congruence.
Qed.

Lemma find_map_same {A} (p : A -> bool) (g : A -> A) (l : list A) :
  (forall x, p (g x) = p x) -> find p (map g l) = option_map g (find p l).
Proof.
  intros Hp. induction l as [|x l IH]; cbn; [reflexivity|].
  rewrite Hp. destruct (p x); [reflexivity | exact IH].
Qed.

(** The uniqueness check of [updateEvent] reads and does not write. *)
Lemma updateEvent_check_reads (id : Id) (data : UpdateEventDto) (existing : Event.t)
    (w w' : World) (u : unit) :
  (if nonempty (ue_name data) || given (ue_type data)
   then
     conflictingEvent <-
       EventRepository.findByNameAndTypeExcludingId
         (if nonempty (ue_name data)
          then match ue_name data with Some n => n | None => Event.name existing end
          else Event.name existing)
         (match ue_type data with Some t => t | None => Event.type existing end) id ;;
     match conflictingEvent with
     | Some _ =>
         throw (new_UniqueConstraintError "Event"
                  ((if nonempty (ue_name data)
                    then match ue_name data with
                         | Some n => n
                         | None => Event.name existing
                         end
                    else Event.name existing)
                   ++ ":" ++ EventType_value
                        (match ue_type data with
                         | Some t => t
                         | None => Event.type existing
                         end)))
     | None => ret tt
     end
   else ret tt) w = (Ok u, w') ->
  view Pool w' = view Pool w /\ now w' = now w.
Proof.
  destruct (nonempty (ue_name data) || given (ue_type data)).
  - intros H. apply bind_Ok in H. destruct H as [o [w1 [Hfind H]]].
    unfold EventRepository.findByNameAndTypeExcludingId in Hfind.
    apply findOne_Ok in Hfind. destruct Hfind as [_ ->].
    destruct o; [cbv beta iota delta [throw] in H; discriminate|].
    apply ret_Ok in H. destruct H as [_ <-]. now rewrite view_tick.
  - intros H. apply ret_Ok in H. destruct H as [_ <-]. now split.
Qed.

(** X20.  When [updateEvent] succeeds, a non-deleted event had the id, and
    the method returns that row after the patch: the fields of the request
    that are given replace the old ones, the others are kept, and the update
    time is the current time.  In the table every row with the id is patched
    so, and every other row is as before. *)
Theorem updateEvent_returns_patched_row :
  forall (id : Id) (data : UpdateEventDto) (w : World) (r : option Event.t)
         (w' : World),
    EventService.updateEvent id data w = (Ok (Success r), w') ->
    exists existing,
      event_with_id (view Pool w) id = Some existing
      /\ r = Some (Event.mk id
                     (match ue_name data with Some n => n | None => Event.name existing end)
                     (match ue_type data with Some t => t | None => Event.type existing end)
                     (match ue_description data with
                      | Some d => d
                      | None => Event.description existing
                      end)
                     (Event.create_time existing) (now w) false
                     (Event.deleted_at existing))
      /\ events (view Pool w')
         = map (fun e => if (Event.id e =? id)%nat
                         then touch (now w) (EventService.patch_event data e)
                         else e)
             (events (view Pool w)).
Proof.
  intros id data w r w' H.
  unfold EventService.updateEvent in H. apply tryCatch_Success in H.
  apply bind_Ok in H. destruct H as [found [w1 [Hfind H]]].
  unfold BaseRepository.findById in Hfind.
  apply findOne_Ok in Hfind. destruct Hfind as [Hfound ->].
  change (find _ (table (view Pool w))) with (event_with_id (view Pool w) id)
    in Hfound.
  destruct found as [existing|]; [|cbv beta iota delta [throw] in H; discriminate].
  exists existing. split; [now symmetry|].
  cbv zeta in H.
  apply bind_Ok in H. destruct H as [u [w2 [Hcheck H]]].
  apply updateEvent_check_reads in Hcheck. destruct Hcheck as [Hview Hnow].
  rewrite view_tick in Hview. cbn [now tick] in Hnow.
  apply bind_Ok in H. destruct H as [updated [w3 [Hupd H]]].
  apply ret_Ok in H. destruct H as [Hr <-].
  assert (Hru : r = updated) by congruence. subst updated. clear Hr.
  unfold BaseRepository.update in Hupd.
  apply bind_Ok in Hupd. destruct Hupd as [n [w4 [Hwrite Hread]]].
  apply update_Ok in Hwrite.
  unfold BaseRepository.findById in Hread.
  apply findOne_Ok in Hread. destruct Hread as [Hr ->].
  rewrite view_tick. subst w4.
  rewrite view_write_pool, view_tick, Hview, Hnow in *.
  cbn [apply_update events set_table table Event_Entity] in *.
  split; [|reflexivity].
  rewrite find_map_same in Hr.
  - change (find _ (events (view Pool w))) with (event_with_id (view Pool w) id) in Hr.
    rewrite <- Hfound in Hr. cbn [option_map] in Hr.
    unfold event_with_id in Hfound. symmetry in Hfound.
    apply find_some in Hfound. destruct Hfound as [_ Hp].
    apply andb_true_iff in Hp. destruct Hp as [Hid Hlive].
    cbv beta in Hr. cbn [entity_id Event_Entity] in Hr.
    rewrite Hid in Hr. apply Nat.eqb_eq in Hid. apply negb_true_iff in Hlive.
    rewrite Hr. cbn. now rewrite Hid, Hlive.
  - intros x. destruct (entity_id x =? id)%nat eqn:Hx; [|now rewrite Hx].
    cbn in *. now rewrite Hx.
Qed.

Lemma updateEvent_returns_patched_row_witness :
  exists r w',
    EventService.updateEvent 1 (rename_event "Sign in") (quiet store_with_login)
    = (Ok (Success r), w')
    /\ exists existing,
         event_with_id (view Pool (quiet store_with_login)) 1 = Some existing
         /\ r = Some (Event.mk 1 "Sign in" (Event.type existing)
                        (Event.description existing) (Event.create_time existing)
                        100 false (Event.deleted_at existing))
         /\ events (view Pool w')
            = map (fun e => if (Event.id e =? 1)%nat
                            then touch 100
                                   (EventService.patch_event (rename_event "Sign in") e)
                            else e)
                (events (view Pool (quiet store_with_login))).
Proof.
  eexists. eexists. split; [vm_compute; reflexivity|].
  apply (updateEvent_returns_patched_row 1 (rename_event "Sign in")
           (quiet store_with_login)).
  vm_compute. reflexivity.
Defined.

Lemma validatePropertyRules_tick (rules : JsVal) (type : PropertyType) (w : World) :
  PropertyService.validatePropertyRules rules type (tick w)
  = (fst (PropertyService.validatePropertyRules rules type w), tick w).
Proof.
  assert (Heq : regexp_compiles (tick w) = regexp_compiles w) by reflexivity.
  revert Heq. generalize (tick w). intros w' Heq.
  unfold PropertyService.validatePropertyRules, PropertyService.reject_if,
    bind, throw, ret.
  destruct type;
    repeat (cbv beta iota; rewrite ?Heq;
            match goal with
            | |- context [if ?b then _ else _] => destruct b
            | |- context [match ?o with Some _ => _ | None => _ end] => destruct o
            end);
    reflexivity.
Qed.

(** X21.  [createProperty] checks the rules of a new property before it
    writes: whenever [validatePropertyRules] throws for the rules and the
    type of the request, [createProperty] returns the failure with the
    message of that error, and the world has only seen the lookup. *)
Theorem createProperty_rejects_invalid_rules :
  forall (data : CreatePropertyDto) (w : World) (rules : JsVal) (e : Error),
    fault w (clock w) OpQuery = None ->
    stored_property (view Pool w) (cp_name data) (cp_type data) = None ->
    cp_validation_rules data = Some rules ->
    truthy (Some rules) = true ->
    fst (PropertyService.validatePropertyRules rules (cp_type data) w) = Throw e ->
    PropertyService.createProperty data w
    = (Ok (Failure {| code := "CREATE_PROPERTY_ERROR"; err_message := message e |}),
       tick w).
Proof.
  intros data w rules e Hq Hnew Hrules Ht Hthrow.
  unfold PropertyService.createProperty, tryCatch, bind.
  rewrite property_lookup_runs, Hnew by assumption.
  unfold PropertyService.validate_if_given. rewrite Hrules, Ht.
  rewrite validatePropertyRules_tick, Hthrow. reflexivity.
Qed.

Lemma createProperty_rejects_invalid_rules_witness :
  PropertyService.createProperty
    (property_candidate "tier" STRING (Some invalid_min)) (quiet empty_store)
  = (Ok (Failure {| code := "CREATE_PROPERTY_ERROR";
                    err_message := "String property min length must be a number" |}),
     tick (quiet empty_store)).
Proof.
  apply (createProperty_rejects_invalid_rules
           (property_candidate "tier" STRING (Some invalid_min))
           (quiet empty_store) invalid_min
           (new_ValidationError "String property min length must be a number"));
    reflexivity.
Defined.

(* ===================================================================== *)
(** ** Listing the tracking plans *)
(* ===================================================================== *)

Lemma load_page_Ok (plans : list TrackingPlan.t) :
  forall (w : World) (loaded : list (option TrackingPlanResponseDto)) (w' : World),
    forEach (fun plan =>
      fullPlan <- TrackingPlanRepository.findWithEvents (TrackingPlan.id plan) ;;
      match fullPlan with
      | Some full =>
          r <- TrackingPlanService.mapToResponseDto full ;; ret (Some r)
      | None => ret None
      end) plans w = (Ok loaded, w') ->
    clock w' = clock w + length plans
    /\ db w' = db w
    /\ tx w' = tx w
    /\ length loaded = length plans
    /\ Forall (fun o => forall r, o = Some r -> r_is_deleted r = false) loaded.
Proof.
  induction plans as [|plan rest IH]; intros w loaded w' H; cbn [forEach] in H.
  - apply ret_Ok in H. destruct H as [<- <-]. cbn. repeat split; try lia.
    constructor.
  - apply bind_Ok in H. destruct H as [o [w1 [Hone H]]].
    apply bind_Ok in H. destruct H as [os [w2 [Hrest H]]].
    apply ret_Ok in H. destruct H as [<- <-].
    apply IH in Hrest. destruct Hrest as [Hc [Hdb [Htx [Hlen Hall]]]].
    apply bind_Ok in Hone. destruct Hone as [full [w3 [Hfind Hone]]].
    apply findWithEvents_Ok in Hfind. destruct Hfind as [-> ->].
    assert (Hstep : w1 = tick w
                    /\ forall r, o = Some r -> r_is_deleted r = false).
    { destruct (stored_plan (view Pool w) (TrackingPlan.id plan)) as [row|] eqn:Hrow;
        cbn [option_map] in Hone.
      - apply bind_Ok in Hone. destruct Hone as [r [w4 [Hmap Hone]]].
        apply ret_Ok in Hone. destruct Hone as [<- <-].
        pose proof (mapToResponseDto_same_world _ _ _ _ Hmap) as Hw.
        split; [exact Hw|].
        intros r' Hr'. assert (r' = r) by congruence. subst r'.
        apply mapToResponseDto_row in Hmap. rewrite Hmap.
        cbn [r_is_deleted TrackingPlanService.response].
        unfold stored_plan in Hrow. apply find_some in Hrow.
        destruct Hrow as [_ Hp]. apply andb_true_iff in Hp.
        destruct Hp as [_ Hp]. now apply negb_true_iff in Hp.
      - apply ret_Ok in Hone. destruct Hone as [<- <-].
        split; [reflexivity | discriminate]. }
    destruct Hstep as [-> Hlive].
    cbn [clock tick db tx] in *. cbn [length].
    repeat split; try lia; try assumption.
    now constructor.
Qed.

Lemma flat_map_somes {A} (P : A -> Prop) (l : list (option A)) :
  Forall (fun o => forall r, o = Some r -> P r) l ->
  Forall P (flat_map (fun o => match o with Some r => [r] | None => [] end) l)
  /\ length (flat_map (fun o => match o with Some r => [r] | None => [] end) l)
     <= length l.
Proof.
  induction 1 as [|o l Ho _ [IH1 IH2]]; cbn [flat_map length].
  - split; [constructor | lia].
  - destruct o as [r|]; cbn [app length].
    + split; [constructor; [now apply Ho | exact IH1] | lia].
    + split; [exact IH1 | lia].
Qed.

(** X22.  When [getAllTrackingPlans] succeeds it has made one query for the
    list and one more for each plan of the page, and has written nothing.
    The total it reports is the number of all non-deleted plans that pass the
    filter; the plans it returns are at most those of the page, and none of
    them is soft-deleted. *)
Theorem getAllTrackingPlans_one_query_per_plan :
  forall (flt : TrackingPlanRepository.TrackingPlanFilter)
         (pagination : PaginationOptions) (w : World)
         (result : PaginatedResponse TrackingPlanResponseDto) (w' : World),
    TrackingPlanService.getAllTrackingPlans flt pagination w
    = (Ok (Success result), w') ->
    clock w' = clock w + 1 + length (fst (paginate (matching_plans w flt) pagination))
    /\ db w' = db w
    /\ pg_total (pd_pagination result) = Z.of_nat (length (matching_plans w flt))
    /\ length (pd_data result)
       <= length (fst (paginate (matching_plans w flt) pagination))
    /\ Forall (fun r => r_is_deleted r = false) (pd_data result).
Proof.
  intros flt pagination w result w' H.
  unfold TrackingPlanService.getAllTrackingPlans in H. apply tryCatch_Success in H.
  apply bind_Ok in H. destruct H as [l [w1 [Hfind H]]].
  unfold TrackingPlanRepository.findByFilter in Hfind.
  apply find_Ok in Hfind. destruct Hfind as [Hl ->].
  change (filter _ (table (view Pool w))) with (matching_plans w flt) in Hl.
  subst l.
  destruct (paginate (matching_plans w flt) pagination) as [page_plans info] eqn:Hpage.
  apply bind_Ok in H. destruct H as [loaded [w2 [Hloop H]]].
  apply ret_Ok in H. destruct H as [Hres <-].
  apply load_page_Ok in Hloop. destruct Hloop as [Hc [Hdb [_ [Hlen Hall]]]].
  assert (Hresult : result
                    = Build_PaginatedResponse
                        (flat_map (fun o => match o with Some r => [r] | None => [] end)
                           loaded) info) by congruence.
  subst result. cbn [pd_data pd_pagination fst].
  destruct (flat_map_somes (fun r => r_is_deleted r = false) loaded Hall) as [HP Hle].
  cbn [clock tick db] in Hc, Hdb.
  assert (Hinfo : pg_total info = Z.of_nat (length (matching_plans w flt))).
  { unfold paginate in Hpage. inversion Hpage. reflexivity. }
  repeat split; try assumption; lia.
Qed.

Lemma getAllTrackingPlans_one_query_per_plan_witness :
  exists result w',
    TrackingPlanService.getAllTrackingPlans any_plan first_page (quiet catalog_store)
    = (Ok (Success result), w')
    /\ clock w' = 3
    /\ db w' = catalog_store
    /\ pg_total (pd_pagination result) = 2%Z
    /\ length (pd_data result) <= 2
    /\ Forall (fun r => r_is_deleted r = false) (pd_data result).
Proof.
  eexists. eexists. split; [vm_compute; reflexivity|].
  apply (getAllTrackingPlans_one_query_per_plan any_plan first_page
           (quiet catalog_store)).
  vm_compute. reflexivity.
Defined.
